(** * videosoo: the link-management server (server.js)

    A shallow embedding of [server.js] and the properties of its
    obfuscated-id codec, id allocator, health prober, refresh cycle,
    upload route and status route.

    Conventions of the embedding.
    - A JavaScript string is a [string] holding its UTF-8 bytes; all the
      strings the server builds itself (ids, tokens) are ASCII.  A
      string with a lone surrogate has no UTF-8 bytes and is not
      modelled.
    - [null] and [undefined] are [None].
    - The module-level variables [refreshTimer], [pendingUploads],
      [linkDatabase] and [isRefreshing] are the fields of [State].
    - Everything outside the process (the clock, [Math.random], the
      remote hosts answering [axios.head], [ytdl.getInfo], the GitHub
      API) is a [World]: a tick counter and one oracle per kind of call,
      each call reading the oracle at the current tick and advancing it.
    - An [async] function is embedded twice.  As a computation of the
      monad [M] it is run to completion, which is what it does when no
      other handler runs while it is suspended.  As a [Task] it has its
      [await]s, at which the event loop may run other handlers; the
      properties that depend on what happens meanwhile are stated on
      tasks. *)

From Stdlib Require Import ZArith NArith List String Ascii Bool Lia.
From Stdlib Require Import Decimal DecimalString.
From Stdlib Require DecimalNat.
Import ListNotations.
Open Scope string_scope.

Set Implicit Arguments.

(** ** JavaScript string primitives *)

Module Js.

(** [!!s] for a string: only the empty string is falsy. *)
Definition truthy_string (s : string) : bool :=
  negb (String.eqb s "").

(** [!!v] for a value that is a string, [null] or [undefined]. *)
Definition truthy (v : option string) : bool :=
  match v with
  | Some s => truthy_string s
  | None => false
  end.

(** [a || b] on such values. *)
Definition or_else (v : option string) (d : string) : string :=
  match v with
  | Some s => if truthy_string s then s else d
  | None => d
  end.

(** [s.substring(i, j)]: the characters at positions [i .. j-1] that
    exist; the two indices are swapped when [j < i]. *)
Definition substring (i j : nat) (s : string) : string :=
  String.substring (Nat.min i j) (Nat.max i j - Nat.min i j) s.

(** [s.slice(0, -k)]: everything but the last [k] characters, the
    empty string when there are no more than [k]. *)
Definition slice_drop_last (k : nat) (s : string) : string :=
  String.substring 0 (String.length s - k) s.

(** [s.startsWith(p)]. *)
Definition startsWith (s p : string) : bool := String.prefix p s.

(** [String(n)] for a non-negative integer. *)
Definition String_of_nat (n : nat) : string :=
  NilEmpty.string_of_uint (Nat.to_uint n).

(** [String(z)] for an integer. *)
Definition String_of_Z (z : Z) : string :=
  NilZero.string_of_int (Z.to_int z).

Fixpoint repeat_char (c : ascii) (n : nat) : string :=
  match n with
  | O => ""
  | S n' => String c (repeat_char c n')
  end.

(** [s.padStart(n, c)] for a one-character pad. *)
Definition padStart (n : nat) (c : ascii) (s : string) : string :=
  repeat_char c (n - String.length s) ++ s.

(** [s.replace(/c/g, '')]: every occurrence of [c] is dropped. *)
Fixpoint remove_char (c : ascii) (s : string) : string :=
  match s with
  | "" => ""
  | String x s' =>
      if Ascii.eqb x c then remove_char c s'
      else String x (remove_char c s')
  end.

End Js.

(** ** Node's Buffer, as far as the codec uses it

    [Buffer] belongs to Node, not to the repository; these definitions
    follow Node's documented behaviour.  Encoding is standard base64 with
    padding.  Decoding is lenient and never throws: characters outside the
    alphabet are skipped, the URL-safe [-] and [_] are accepted, decoding
    stops at the first [=], and a trailing group of two or three sextets
    yields one or two bytes. *)

Module Buffer.

Definition t := list ascii.

(** [Buffer.from(s)] *)
Definition from (s : string) : t := list_ascii_of_string s.

Definition alphabet : list ascii :=
  list_ascii_of_string
    "ABCDEFGHIJKLMNOPQRSTUVWXYZabcdefghijklmnopqrstuvwxyz0123456789+/".

Definition sextet_char (n : N) : ascii :=
  nth (N.to_nat n) alphabet "="%char.

Definition byte (c : ascii) : N := N_of_ascii c.

(** U+FFFD, in UTF-8. *)
Definition replacement : list ascii :=
  [ascii_of_N 239; ascii_of_N 191; ascii_of_N 189].

(** What a lead byte of a UTF-8 sequence announces: the number of
    bytes that follow it and the bounds of the first of them. *)
Definition lead (c : ascii) : option (nat * N * N) :=
  let b := byte c in
  (if (194 <=? b) && (b <=? 223) then Some (1%nat, 128, 191)
   else if b =? 224 then Some (2%nat, 160, 191)
   else if (225 <=? b) && (b <=? 236) then Some (2%nat, 128, 191)
   else if b =? 237 then Some (2%nat, 128, 159)
   else if (238 <=? b) && (b <=? 239) then Some (2%nat, 128, 191)
   else if b =? 240 then Some (3%nat, 144, 191)
   else if (241 <=? b) && (b <=? 243) then Some (3%nat, 128, 191)
   else if b =? 244 then Some (3%nat, 128, 143)
   else None)%N.

(** Decoding UTF-8 as Node does: a well-formed sequence is kept, and a
    byte that can neither start nor continue a sequence, as well as a
    sequence cut short, is replaced by U+FFFD.  [seen] holds the bytes
    of the sequence under way, [needed] the number of bytes it still
    lacks, [lower] and [upper] the bounds of its next byte. *)
Fixpoint utf8 (bs : t) (seen : list ascii) (needed : nat) (lower upper : N)
  : list ascii :=
  match bs with
  | [] =>
      match needed with
      | O => []
      | S _ => replacement
      end
  | c :: bs' =>
      let start :=
        if (byte c <? 128)%N then c :: utf8 bs' [] 0 128%N 191%N
        else
          match lead c with
          | Some (n, lo, hi) => utf8 bs' [c] n lo hi
          | None => (replacement ++ utf8 bs' [] 0 128%N 191%N)%list
          end in
      match needed with
      | O => start
      | S n =>
          if ((lower <=? byte c) && (byte c <=? upper))%N then
            match n with
            | O => (seen ++ c :: utf8 bs' [] 0 128%N 191%N)%list
            | S _ => utf8 bs' (seen ++ [c])%list n 128%N 191%N
            end
          else (replacement ++ start)%list
      end
  end.

(** [buf.toString()]: the bytes decoded as UTF-8, kept as the UTF-8
    bytes of the resulting string. *)
Definition toString (b : t) : string :=
  string_of_list_ascii (utf8 b [] 0 128%N 191%N).

Definition s1 (a : ascii) : N := N.shiftr (byte a) 2.
Definition s2 (a b : ascii) : N :=
  N.lor (N.shiftl (N.land (byte a) 3) 4) (N.shiftr (byte b) 4).
Definition s3 (b c : ascii) : N :=
  N.lor (N.shiftl (N.land (byte b) 15) 2) (N.shiftr (byte c) 6).
Definition s4 (c : ascii) : N := N.land (byte c) 63.

(** [buf.toString('base64')] *)
Fixpoint toBase64 (b : t) : string :=
  match b with
  | [] => ""
  | [a] =>
      String (sextet_char (s1 a))
        (String (sextet_char (s2 a Ascii.zero)) "==")
  | [a; b] =>
      String (sextet_char (s1 a))
        (String (sextet_char (s2 a b))
           (String (sextet_char (s3 b Ascii.zero)) "="))
  | a :: b :: c :: rest =>
      String (sextet_char (s1 a))
        (String (sextet_char (s2 a b))
           (String (sextet_char (s3 b c))
              (String (sextet_char (s4 c)) (toBase64 rest))))
  end.

(** The value of a character in the decoder's table. *)
Definition unbase64 (c : ascii) : option N :=
  let n := byte c in
  (if (65 <=? n) && (n <=? 90) then Some (n - 65)
   else if (97 <=? n) && (n <=? 122) then Some (n - 71)
   else if (48 <=? n) && (n <=? 57) then Some (n + 4)
   else if (n =? 43) || (n =? 45) then Some 62
   else if (n =? 47) || (n =? 95) then Some 63
   else None)%N.

Definition byte_of (n : N) : ascii := ascii_of_N (N.land n 255).

Definition d1 (x y : N) : ascii :=
  byte_of (N.lor (N.shiftl (N.land x 63) 2) (N.shiftr (N.land y 48) 4)).
Definition d2 (y z : N) : ascii :=
  byte_of (N.lor (N.shiftl (N.land y 15) 4) (N.shiftr (N.land z 60) 2)).
Definition d3 (z u : N) : ascii :=
  byte_of (N.lor (N.shiftl (N.land z 3) 6) (N.land u 63)).

(** What the sextets of an unfinished group still yield. *)
Definition flush (pending : list N) : t :=
  match pending with
  | [x; y] => [d1 x y]
  | [x; y; z] => [d1 x y; d2 y z]
  | _ => []
  end.

Fixpoint decode_from (cs : list ascii) (pending : list N) : t :=
  match cs with
  | [] => flush pending
  | c :: cs' =>
      match unbase64 c with
      | Some v =>
          match pending with
          | [x; y; z] => d1 x y :: d2 y z :: d3 z v :: decode_from cs' []
          | _ => decode_from cs' (pending ++ [v])
          end
      | None =>
          if Ascii.eqb c "="%char then flush pending
          else decode_from cs' pending
      end
  end.

(** [Buffer.from(s, 'base64')] *)
Definition from_base64 (s : string) : t :=
  decode_from (list_ascii_of_string s) [].

End Buffer.

(** ** Completions: a call returns or throws *)

Inductive JsError : Type :=
| Error (message : string)
| TypeError (message : string)
| ReferenceError (message : string)
| AxiosError (message : string) (response_status : option Z).

(** [error.message] *)
Definition error_message (e : JsError) : string :=
  match e with
  | Error m | TypeError m | ReferenceError m | AxiosError m _ => m
  end.

(** [error.response?.status] *)
Definition error_response_status (e : JsError) : option Z :=
  match e with
  | AxiosError _ s => s
  | _ => None
  end.

Inductive Completion (A : Type) : Type :=
| Return (a : A)
| Throw (e : JsError).
Arguments Return {A} a.
Arguments Throw {A} e.

(** [try { c } catch (e) { h e }] for code without side effects. *)
Definition try_catch_pure {A} (c : Completion A)
    (h : JsError -> Completion A) : Completion A :=
  match c with
  | Return a => Return a
  | Throw e => h e
  end.

(** The call [Buffer.from(s, 'base64')] as a completion: it returns for
    every string, whatever its content. *)
Definition Buffer_from_base64_call (s : string) : Completion Buffer.t :=
  Return (Buffer.from_base64 s).

(** ** LinkEncoder (server.js, lines 32-49) *)

Module LinkEncoder.

(** [encode(id)]; [rnd36] is the string [Math.random().toString(36)]
    of this call: ["0"] or ["0."] followed by base-36 digits. *)
Definition encode (id : string) (rnd36 : string) : string :=
  let encoded := Buffer.toBase64 (Buffer.from id) in
  let random := Js.substring 2 5 rnd36 in
  Js.remove_char "="%char encoded ++ random.

(** [decode(encodedId)]; [None] is [null], the value of the [catch]
    branch. *)
Definition decode (encodedId : string) : Completion (option string) :=
  let base64 := Js.slice_drop_last 3 encodedId ++ "==" in
  try_catch_pure
    (match Buffer_from_base64_call base64 with
     | Return buf => Return (Some (Buffer.toString buf))
     | Throw e => Throw e
     end)
    (fun _ => Return None).

End LinkEncoder.


(** ** JavaScript objects used as maps

    [linkDatabase] and the published mapping are plain objects keyed by
    strings.  None of their keys is an array index (the keys are ids such
    as [mov001] and tokens starting with their base64), so the properties
    are enumerated in insertion order: an association list in which
    assigning to a present key keeps its place and a new key goes last. *)

Module Obj.

Definition t (V : Type) := list (string * V).

Definition empty {V} : t V := [].

(** [o[k]] *)
Fixpoint get {V} (k : string) (o : t V) : option V :=
  match o with
  | [] => None
  | (k', v) :: o' => if String.eqb k' k then Some v else get k o'
  end.

(** [o[k] = v] *)
Fixpoint set {V} (k : string) (v : V) (o : t V) : t V :=
  match o with
  | [] => [(k, v)]
  | (k', v') :: o' =>
      if String.eqb k' k then (k, v) :: o' else (k', v') :: set k v o'
  end.

(** [delete o[k]] *)
Fixpoint delete {V} (k : string) (o : t V) : t V :=
  match o with
  | [] => []
  | (k', v') :: o' =>
      if String.eqb k' k then delete k o' else (k', v') :: delete k o'
  end.

(** [Object.keys(o)] *)
Definition keys {V} (o : t V) : list string := map fst o.

(** [Object.entries(o)] *)
Definition entries {V} (o : t V) : list (string * V) := o.

(** An object holds each key once. *)
Definition wf {V} (o : t V) : Prop := NoDup (keys o).

End Obj.

(** ** Data model *)

(** The value stored per link (the [linkData] literal of the upload
    route, lines 414-422).  Dates are milliseconds since the epoch. *)
Record LinkData : Type := mkLinkData {
  originalUrl : string;
  streamUrl : option string;
  title : string;
  quality : string;
  createdAt : Z;
  lastRefreshed : Z;
  isValid : bool
}.

(** An element of [pendingUploads]: [{ id, data }]. *)
Record Upload : Type := mkUpload {
  upload_id : string;
  upload_data : LinkData
}.

(** The [CONFIG] object, built once from [process.env]. *)
Record Config : Type := mkConfig {
  GITHUB_OWNER : string;
  GITHUB_REPO : string;
  REFRESH_INTERVAL_HOURS : Z;
  BATCH_WINDOW_MINUTES : Z;
  API_PASSWORD : string
}.

(** [process.env.API_PASSWORD || 'your-secure-password'], and the two
    literals of the [CONFIG] object. *)
Definition make_config (owner repo : string) (password : option string)
  : Config :=
  {| GITHUB_OWNER := owner;
     GITHUB_REPO := repo;
     REFRESH_INTERVAL_HOURS := 3;
     BATCH_WINDOW_MINUTES := 5;
     API_PASSWORD := Js.or_else password "your-secure-password" |}.

(** A timeout registered with the runtime: its handle and its delay. *)
Record Timeout : Type := mkTimeout {
  handle : nat;
  delay : Z
}.

(** The module-level variables of server.js (lines 26-29), the constant
    [CONFIG], and the runtime's table of timeouts that have been set and
    neither cleared nor fired. *)
Record State : Type := mkState {
  CONFIG : Config;
  refreshTimer : option nat;
  pendingUploads : list Upload;
  linkDatabase : Obj.t LinkData;
  isRefreshing : bool;
  timeouts : list Timeout;
  nextHandle : nat
}.

Definition initialState (cfg : Config) : State :=
  {| CONFIG := cfg;
     refreshTimer := None;
     pendingUploads := [];
     linkDatabase := Obj.empty;
     isRefreshing := false;
     timeouts := [];
     nextHandle := 0 |}.

Definition set_refreshTimer (v : option nat) (st : State) : State :=
  mkState (CONFIG st) v (pendingUploads st) (linkDatabase st)
    (isRefreshing st) (timeouts st) (nextHandle st).

Definition set_pendingUploads (v : list Upload) (st : State) : State :=
  mkState (CONFIG st) (refreshTimer st) v (linkDatabase st)
    (isRefreshing st) (timeouts st) (nextHandle st).

Definition set_linkDatabase (v : Obj.t LinkData) (st : State) : State :=
  mkState (CONFIG st) (refreshTimer st) (pendingUploads st) v
    (isRefreshing st) (timeouts st) (nextHandle st).

Definition set_isRefreshing (v : bool) (st : State) : State :=
  mkState (CONFIG st) (refreshTimer st) (pendingUploads st)
    (linkDatabase st) v (timeouts st) (nextHandle st).

Definition set_timeouts (v : list Timeout) (n : nat) (st : State) : State :=
  mkState (CONFIG st) (refreshTimer st) (pendingUploads st)
    (linkDatabase st) (isRefreshing st) v n.

(** ** The world outside the process *)

(** What the host of a URL does with a HEAD request. *)
Inductive Remote : Type :=
| Responds (status : Z)
| TransportFailure (message : string)
| TimedOut.

(** A format entry of [ytdl]'s [info.formats]. *)
Record Format : Type := mkFormat {
  format_url : option string;
  format_quality : string;
  format_qualityLabel : option string;
  format_hasVideo : bool
}.

(** The part of [ytdl.getInfo]'s result that the server reads. *)
Record VideoInfo : Type := mkVideoInfo {
  videoDetails_title : string;
  videoDetails_lengthSeconds : Z;
  formats : list Format
}.

(** [links.json] as the GitHub contents API returns it. *)
Record RemoteFile : Type := mkRemoteFile {
  file_sha : string
}.

(** One value of the published mapping: [{ url, title, updated }]. *)
Record Published : Type := mkPublished {
  pub_url : option string;
  pub_title : string;
  pub_updated : Z
}.

Record World : Type := mkWorld {
  tick : nat;
  (** [Date.now()], [new Date()] *)
  clock : nat -> Z;
  (** [Math.random().toString(36)] *)
  random36 : nat -> string;
  (** the host behind a URL, for [axios.head] *)
  remote : nat -> string -> Remote;
  (** [ytdl.getInfo(url)] *)
  ytdl_info : nat -> string -> Completion VideoInfo;
  (** [octokit.rest.repos.getContent] for [links.json] *)
  github_get : nat -> Completion RemoteFile;
  (** [octokit.rest.repos.createOrUpdateFileContents] for [links.json] *)
  github_put : nat -> Obj.t Published -> option string -> Completion unit
}.

Definition advance (w : World) : World :=
  mkWorld (S (tick w)) (clock w) (random36 w) (remote w) (ytdl_info w)
    (github_get w) (github_put w).

(** ** What a run leaves behind: console lines and outgoing requests *)

(** An element of [brokenLinks] (lines 138-143 and 153-158). *)
Record BrokenLink : Type := mkBrokenLink {
  broken_id : string;
  broken_title : string;
  broken_reason : string;
  broken_originalUrl : string
}.

Inductive Console : Type :=
| RefreshSkipped
| RefreshStarting
| BrokenLinksDetected (links : list BrokenLink)
| RefreshComplete (active broken total : nat) (duration : Z)
| RefreshFailed (message : string)
| GithubUpdated
| GithubUpdateFailed (message : string)
| ConversionFailed (message : string)
| ProcessingPending (count : nat)
| UploadFailed (message : string)
| ScheduledRefresh.

Inductive Event : Type :=
| Log (line : Console)
| HeadRequest (url : string) (timeout : Z)
| GetInfoRequest (url : string)
| GetContentRequest
| PutContentRequest (content : Obj.t Published) (sha : option string).

(** ** The monad of the server's code: module state, world, completion
    and the events emitted so far *)

Record Res (A : Type) : Type := mkRes {
  completion : Completion A;
  state : State;
  world : World;
  events : list Event
}.
Arguments mkRes {A} _ _ _ _.

Definition M (A : Type) : Type := State -> World -> Res A.

Definition ret {A} (a : A) : M A :=
  fun st w => mkRes (Return a) st w [].

Definition throw {A} (e : JsError) : M A :=
  fun st w => mkRes (Throw e) st w [].

Definition bind {A B} (m : M A) (k : A -> M B) : M B :=
  fun st w =>
    let r := m st w in
    match completion r with
    | Return a =>
        let r' := k a (state r) (world r) in
        mkRes (completion r') (state r') (world r') (events r ++ events r')
    | Throw e => mkRes (Throw e) (state r) (world r) (events r)
    end.

Declare Scope js_scope.
Delimit Scope js_scope with js.
Notation "x <- m ;; k" := (bind m (fun x => k))
  (at level 61, m at next level, right associativity) : js_scope.
Notation "m ;; k" := (bind m (fun _ => k))
  (at level 61, right associativity) : js_scope.
Open Scope js_scope.

(** [try { m } catch (e) { h e }] *)
Definition try_catch {A} (m : M A) (h : JsError -> M A) : M A :=
  fun st w =>
    let r := m st w in
    match completion r with
    | Return _ => r
    | Throw e =>
        let r' := h e (state r) (world r) in
        mkRes (completion r') (state r') (world r') (events r ++ events r')
    end.

(** [try { m } finally { f }] *)
Definition try_finally {A} (m : M A) (f : M unit) : M A :=
  fun st w =>
    let r := m st w in
    let r' := f (state r) (world r) in
    mkRes
      (match completion r' with
       | Return _ => completion r
       | Throw e => Throw e
       end)
      (state r') (world r') (events r ++ events r').

Definition gets {A} (f : State -> A) : M A :=
  fun st w => mkRes (Return (f st)) st w [].

Definition modify (f : State -> State) : M unit :=
  fun st w => mkRes (Return tt) (f st) w [].

Definition emit (e : Event) : M unit :=
  fun st w => mkRes (Return tt) st w [e].

(** A call out of the process: the oracle is read at the current tick,
    the tick advances, and the request is recorded. *)
Definition external {A} (request : list Event)
    (oracle : World -> nat -> Completion A) : M A :=
  fun st w => mkRes (oracle w (tick w)) st (advance w) request.

(** [for (const x of xs) { body x }] *)
Fixpoint for_of {X} (xs : list X) (body : X -> M unit) : M unit :=
  match xs with
  | [] => ret tt
  | x :: xs' => body x ;; for_of xs' body
  end.

(** A [for ... of] loop whose body updates local variables [acc]. *)
Fixpoint for_of_with {X L} (xs : list X) (acc : L) (body : L -> X -> M L)
  : M L :=
  match xs with
  | [] => ret acc
  | x :: xs' => acc' <- body acc x ;; for_of_with xs' acc' body
  end.

(** [Date.now()] and [new Date()] *)
Definition Date_now : M Z :=
  external [] (fun w t => Return (clock w t)).

(** [Math.random().toString(36)] *)
Definition Math_random_toString36 : M string :=
  external [] (fun w t => Return (random36 w t)).

(** [axios.head(url, { timeout })], outside the repository: with axios's
    default [validateStatus] the promise is fulfilled for a status from
    200 to 299 and rejected for any other status, for a transport
    failure and for a timeout.  The result is [response.status]. *)
Definition axios_head (url : string) (timeout : Z) : M Z :=
  external [HeadRequest url timeout]
    (fun w t =>
       match remote w t url with
       | Responds s =>
           if (200 <=? s)%Z && (s <? 300)%Z then Return s
           else Throw (AxiosError
                  ("Request failed with status code " ++ Js.String_of_Z s)
                  (Some s))
       | TransportFailure m => Throw (AxiosError m None)
       | TimedOut =>
           Throw (AxiosError
                    ("timeout of " ++ Js.String_of_Z timeout ++ "ms exceeded")
                    None)
       end).

(** [ytdl.getInfo(url)] *)
Definition ytdl_getInfo (url : string) : M VideoInfo :=
  external [GetInfoRequest url] (fun w t => ytdl_info w t url).

(** [ytdl.filterFormats(formats, 'video')], outside the repository: the
    formats that have a URL and carry video. *)
Definition ytdl_filterFormats_video (fs : list Format) : list Format :=
  filter (fun f => Js.truthy (format_url f) && format_hasVideo f) fs.

(** [octokit.rest.repos.getContent({ ..., path: 'links.json' })] *)
Definition octokit_getContent : M RemoteFile :=
  external [GetContentRequest] (fun w t => github_get w t).

(** [octokit.rest.repos.createOrUpdateFileContents({ ..., content, sha })];
    the content is kept as the object that is serialised. *)
Definition octokit_createOrUpdateFileContents
    (content : Obj.t Published) (sha : option string) : M unit :=
  external [PutContentRequest content sha]
    (fun w t => github_put w t content sha).

(** ** YouTubeConverter (lines 52-104) *)

Record VideoSummary : Type := mkVideoSummary {
  summary_title : string;
  summary_duration : Z;
  summary_isAvailable : bool;
  summary_error : option string
}.

Record StreamData : Type := mkStreamData {
  stream_streamUrl : option string;
  stream_title : string;
  stream_quality : string;
  stream_expiresAt : option Z;
  stream_isValid : bool;
  stream_error : option string
}.

Module YouTubeConverter.

Definition getVideoInfo (url : string) : M VideoSummary :=
  try_catch
    (info <- ytdl_getInfo url ;;
     ret {| summary_title := videoDetails_title info;
            summary_duration := videoDetails_lengthSeconds info;
            summary_isAvailable := true;
            summary_error := None |})
    (fun error =>
       ret {| summary_title := "Unknown Video";
              summary_duration := 0;
              summary_isAvailable := false;
              summary_error := Some (error_message error) |}).

(** [formats.find(f => f.quality === 'highest') || formats[0]] *)
Definition bestFormat (fs : list Format) : option Format :=
  match find (fun f => String.eqb (format_quality f) "highest") fs with
  | Some f => Some f
  | None => hd_error fs
  end.

Definition convertToStreamLink (url : string) : M StreamData :=
  try_catch
    (info <- ytdl_getInfo url ;;
     let formats := ytdl_filterFormats_video (formats info) in
     match bestFormat formats with
     | None => throw (Error "No video format available")
     | Some best =>
         now <- Date_now ;;
         ret {| stream_streamUrl := format_url best;
                stream_title := videoDetails_title info;
                stream_quality :=
                  Js.or_else (format_qualityLabel best) "Unknown";
                stream_expiresAt := Some (now + 6 * 60 * 60 * 1000)%Z;
                stream_isValid := true;
                stream_error := None |}
     end)
    (fun error =>
       emit (Log (ConversionFailed (error_message error))) ;;
       ret {| stream_streamUrl := None;
              stream_title := "Conversion Failed";
              stream_quality := "N/A";
              stream_expiresAt := None;
              stream_isValid := false;
              stream_error := Some (error_message error) |}).

End YouTubeConverter.

(** ** LinkHealthChecker (lines 107-172) *)

Record HealthCheck : Type := mkHealthCheck {
  isActive : bool;
  status : Z;
  error : option string
}.

Record Detail : Type := mkDetail {
  detail_id : string;
  detail_title : string;
  detail_status : string;
  detail_lastChecked : Z
}.

Record Results : Type := mkResults {
  total : nat;
  active : nat;
  broken : nat;
  details : list Detail;
  duration : option Z
}.

Module LinkHealthChecker.

Definition checkLink (streamUrl : string) : M HealthCheck :=
  try_catch
    (response_status <- axios_head streamUrl 10000 ;;
     ret {| isActive := (response_status =? 200)%Z;
            status := response_status;
            error := None |})
    (fun e =>
       ret {| isActive := false;
              status :=
                match error_response_status e with
                | Some s => if (s =? 0)%Z then 0%Z else s
                | None => 0%Z
                end;
              error := Some (error_message e) |}).

(** [results.total++], [results.active++], [results.broken++] and
    [results.details.push(d)] *)
Definition incr_total (r : Results) : Results :=
  mkResults (S (total r)) (active r) (broken r) (details r) (duration r).
Definition incr_active (r : Results) : Results :=
  mkResults (total r) (S (active r)) (broken r) (details r) (duration r).
Definition incr_broken (r : Results) : Results :=
  mkResults (total r) (active r) (S (broken r)) (details r) (duration r).
Definition push_detail (d : Detail) (r : Results) : Results :=
  mkResults (total r) (active r) (broken r) (details r ++ [d])%list
    (duration r).

(** The record pushed on [brokenLinks]. *)
Definition brokenLink (linkId : string) (linkData : LinkData)
    (reason : string) : BrokenLink :=
  {| broken_id := linkId;
     broken_title := title linkData;
     broken_reason := reason;
     broken_originalUrl := originalUrl linkData |}.

(** The entry without a stream URL (lines 137-146). *)
Definition noStreamUrl (brokenLinks : list BrokenLink) (results : Results)
    (linkId : string) (linkData : LinkData)
  : M (list BrokenLink * Results) :=
  ret ((brokenLinks ++ [brokenLink linkId linkData "No stream URL"])%list,
       incr_broken results).

(** The body of the loop of [checkAllLinks] for one entry; the locals
    [brokenLinks] and [results] are the accumulator. *)
Definition checkEntry (acc : list BrokenLink * Results)
    (entry : string * LinkData) : M (list BrokenLink * Results) :=
  let '(brokenLinks, results) := acc in
  let '(linkId, linkData) := entry in
  let results := incr_total results in
  match streamUrl linkData with
  | None => noStreamUrl brokenLinks results linkId linkData
  | Some url =>
      if negb (Js.truthy_string url) then
        noStreamUrl brokenLinks results linkId linkData
      else
        healthCheck <- checkLink url ;;
        let '(brokenLinks, results) :=
          if isActive healthCheck then (brokenLinks, incr_active results)
          else
            ((brokenLinks ++
                [brokenLink linkId linkData
                   (Js.or_else (error healthCheck)
                      ("HTTP " ++ Js.String_of_Z (status healthCheck)))])%list,
             incr_broken results) in
        lastChecked <- Date_now ;;
        ret (brokenLinks,
             push_detail
               {| detail_id := linkId;
                  detail_title := title linkData;
                  detail_status :=
                    if isActive healthCheck then "active" else "broken";
                  detail_lastChecked := lastChecked |}
               results)
  end.

Definition checkAllLinks : M (list BrokenLink * Results) :=
  db <- gets linkDatabase ;;
  for_of_with (Obj.entries db) ([], mkResults 0 0 0 [] None) checkEntry.

End LinkHealthChecker.

(** ** GitHubManager.updateLinksFile (lines 176-218);
    [removeFromGitHub] (lines 220-251) is called nowhere and is left
    out *)

Module GitHubManager.

(** The body of the loop that fills [githubData] (lines 180-187): the
    id is encoded afresh, with the random string of this call. *)
Definition publishEntry (githubData : Obj.t Published)
    (entry : string * LinkData) : M (Obj.t Published) :=
  let '(linkId, linkData) := entry in
  rnd36 <- Math_random_toString36 ;;
  let encodedId := LinkEncoder.encode linkId rnd36 in
  updated <- Date_now ;;
  ret (Obj.set encodedId
         {| pub_url := streamUrl linkData;
            pub_title := title linkData;
            pub_updated := updated |}
         githubData).

Definition updateLinksFile : M bool :=
  try_catch
    (db <- gets linkDatabase ;;
     githubData <- for_of_with (Obj.entries db) Obj.empty publishEntry ;;
     fileSha <-
       try_catch
         (data <- octokit_getContent ;; ret (Some (file_sha data)))
         (fun _ => ret None) ;;
     _ <- Date_now ;;
     octokit_createOrUpdateFileContents githubData fileSha ;;
     emit (Log GithubUpdated) ;;
     ret true)
    (fun error =>
       emit (Log (GithubUpdateFailed (error_message error))) ;;
       ret false).

End GitHubManager.

(** ** LogCollector (lines 255-302); the returned log objects are not
    used by any caller and are left out *)

Module LogCollector.

Definition sendBrokenLinksLog (brokenLinks : list BrokenLink) : M unit :=
  if (List.length brokenLinks =? 0)%nat then ret tt
  else
    _ <- Date_now ;;
    emit (Log (BrokenLinksDetected brokenLinks)).

Definition generateRefreshLog (results : Results) : M unit :=
  _ <- Date_now ;;
  emit (Log (RefreshComplete (active results) (broken results)
               (total results)
               (match duration results with Some d => d | None => 0%Z end))).

End LogCollector.

(** ** refreshAllLinks (lines 305-354) *)

(** [linkDatabase[linkId].streamUrl = v; linkDatabase[linkId].lastRefreshed
    = new Date()]: assigning through a missing entry throws. *)
Definition assign_entry (linkId : string) (f : LinkData -> LinkData)
  : M unit :=
  db <- gets linkDatabase ;;
  match Obj.get linkId db with
  | None => throw (TypeError "Cannot set properties of undefined")
  | Some d => modify (set_linkDatabase (Obj.set linkId (f d) db))
  end.

Definition with_streamUrl (v : option string) (d : LinkData) : LinkData :=
  mkLinkData (originalUrl d) v (title d) (quality d) (createdAt d)
    (lastRefreshed d) (isValid d).

Definition with_lastRefreshed (v : Z) (d : LinkData) : LinkData :=
  mkLinkData (originalUrl d) (streamUrl d) (title d) (quality d)
    (createdAt d) v (isValid d).

(** The body of the re-resolution loop (lines 332-338). *)
Definition refreshEntry (entry : string * LinkData) : M unit :=
  let '(linkId, linkData) := entry in
  if Js.truthy_string (originalUrl linkData) then
    newStreamData <-
      YouTubeConverter.convertToStreamLink (originalUrl linkData) ;;
    if stream_isValid newStreamData then
      assign_entry linkId (with_streamUrl (stream_streamUrl newStreamData)) ;;
      now <- Date_now ;;
      assign_entry linkId (with_lastRefreshed now)
    else ret tt
  else ret tt.

(** The re-resolution loop (lines 331-339). *)
Definition refreshActiveLinks : M unit :=
  db <- gets linkDatabase ;;
  for_of (Obj.entries db) refreshEntry.

(** [brokenLinks.forEach(link => { delete linkDatabase[link.id]; })] *)
Definition removeBrokenLinks (brokenLinks : list BrokenLink) : M unit :=
  for_of brokenLinks
    (fun link =>
       modify (fun st =>
         set_linkDatabase (Obj.delete (broken_id link) (linkDatabase st)) st)).

Definition with_duration (v : Z) (r : Results) : Results :=
  mkResults (total r) (active r) (broken r) (details r) (Some v).

(** The [try] block of [refreshAllLinks] (lines 317-347). *)
Definition refreshBody (startTime : Z) : M unit :=
  checked <- LinkHealthChecker.checkAllLinks ;;
  let '(brokenLinks, results) := checked in
  (if (0 <? List.length brokenLinks)%nat then
     LogCollector.sendBrokenLinksLog brokenLinks ;;
     removeBrokenLinks brokenLinks
   else ret tt) ;;
  refreshActiveLinks ;;
  _ <- GitHubManager.updateLinksFile ;;
  now <- Date_now ;;
  LogCollector.generateRefreshLog (with_duration (now - startTime) results).

Definition refreshAllLinks : M unit :=
  refreshing <- gets isRefreshing ;;
  if refreshing then emit (Log RefreshSkipped)
  else
    modify (set_isRefreshing true) ;;
    startTime <- Date_now ;;
    emit (Log RefreshStarting) ;;
    try_finally
      (try_catch (refreshBody startTime)
         (fun error => emit (Log (RefreshFailed (error_message error)))))
      (modify (set_isRefreshing false)).

(** ** The debounce timer (lines 357-379) *)

(** [clearTimeout(h)] *)
Definition clearTimeout (h : nat) : M unit :=
  modify (fun st =>
    set_timeouts
      (filter (fun t => negb (Nat.eqb (handle t) h)) (timeouts st))
      (nextHandle st) st).

(** [setTimeout(callback, delay)]; server.js registers one callback
    only, [batchTimerCallback] below. *)
Definition setTimeout (delay : Z) : M nat :=
  h <- gets nextHandle ;;
  modify (fun st =>
    set_timeouts (timeouts st ++ [mkTimeout h delay])%list (S h) st) ;;
  ret h.

(** The callback given to [setTimeout] (lines 362-378). *)
Definition batchTimerCallback : M unit :=
  pending <- gets pendingUploads ;;
  if (0 <? List.length pending)%nat then
    emit (Log (ProcessingPending (List.length pending))) ;;
    let uploads := pending in
    modify (set_pendingUploads []) ;;
    for_of uploads
      (fun upload =>
         modify (fun st =>
           set_linkDatabase
             (Obj.set (upload_id upload) (upload_data upload)
                (linkDatabase st)) st)) ;;
    refreshAllLinks
  else ret tt.

Definition scheduleBatchUpload : M unit :=
  armed <- gets refreshTimer ;;
  match armed with
  | Some h => clearTimeout h
  | None => ret tt
  end ;;
  cfg <- gets CONFIG ;;
  h <- setTimeout (BATCH_WINDOW_MINUTES cfg * 60 * 1000)%Z ;;
  modify (set_refreshTimer (Some h)).

(** The runtime fires a timeout that is still registered: it leaves the
    table and its callback runs.  A handle that is not registered (it
    was cleared, or has fired) does nothing. *)
Definition fireTimeout (h : nat) : M unit :=
  registered <- gets (fun st =>
    existsb (fun t => Nat.eqb (handle t) h) (timeouts st)) ;;
  if registered then clearTimeout h ;; batchTimerCallback
  else ret tt.

(** The cron callback (lines 470-473). *)
Definition scheduledRefresh : M unit :=
  emit (Log ScheduledRefresh) ;;
  refreshAllLinks.

(** ** generateLinkId (lines 382-386) *)

Definition nextLinkId (type : string) (db : Obj.t LinkData) : string :=
  let existing := filter (fun id => Js.startsWith id type) (Obj.keys db) in
  let nextNum := List.length existing + 1 in
  type ++ Js.padStart 3 "0"%char (Js.String_of_nat nextNum).

Definition generateLinkId (type : string) : M string :=
  gets (fun st => nextLinkId type (linkDatabase st)).

(** ** The routes (lines 389-467) *)

(** The JSON body of an upload request: [links] is [None] when the
    property is missing or is not an array, [password] when it is
    missing or is not a string. *)
Record UploadBody : Type := mkUploadBody {
  links : option (list string);
  password : option string
}.

(** An element of the [results] array of the upload response. *)
Record UploadResult : Type := mkUploadResult {
  result_originalUrl : string;
  result_masterLink : string;
  result_title : string;
  result_linkId : string;
  result_status : string
}.

(** The object the status route passes to [res.json]. *)
Record StatusBody : Type := mkStatusBody {
  status_totalLinks : nat;
  status_totalViews : Z;
  status_pendingUploads : nat;
  status_oldLinksToClean : nat;
  status_lastRefresh : Z;
  status_isRefreshing : bool;
  status_nextRefresh : string;
  status_topLinks : list string
}.

Inductive Body : Type :=
| ErrorBody (error : string) (details : option string)
| UploadOk (results : list UploadResult) (message : string)
| StatusOk (body : StatusBody)
| UnhandledError (e : JsError).

Record Response : Type := mkResponse {
  code : Z;
  body : Body
}.

(** The body of the loop over [links] (lines 404-437); the local
    [results] is the accumulator. *)
Definition uploadOne (results : list UploadResult) (url : string)
  : M (list UploadResult) :=
  videoInfo <- YouTubeConverter.getVideoInfo url ;;
  streamData <- YouTubeConverter.convertToStreamLink url ;;
  linkId <- generateLinkId "mov" ;;
  rnd36 <- Math_random_toString36 ;;
  let encodedId := LinkEncoder.encode linkId rnd36 in
  createdAt <- Date_now ;;
  lastRefreshed <- Date_now ;;
  let linkData :=
    {| originalUrl := url;
       streamUrl := stream_streamUrl streamData;
       title := summary_title videoInfo;
       quality := stream_quality streamData;
       createdAt := createdAt;
       lastRefreshed := lastRefreshed;
       isValid :=
         stream_isValid streamData && summary_isAvailable videoInfo |} in
  modify (fun st =>
    set_pendingUploads
      (pendingUploads st ++ [mkUpload linkId linkData])%list st) ;;
  cfg <- gets CONFIG ;;
  ret (results ++
         [{| result_originalUrl := url;
             result_masterLink :=
               "https://" ++ GITHUB_OWNER cfg ++ ".github.io/" ++
               GITHUB_REPO cfg ++ "/r/" ++ encodedId;
             result_title := summary_title videoInfo;
             result_linkId := linkId;
             result_status :=
               if isValid linkData then "success" else "failed" |}])%list.

(** [app.post('/api/upload', ...)] *)
Definition uploadRoute (req : UploadBody) : M Response :=
  try_catch
    (cfg <- gets CONFIG ;;
     if negb (match password req with
              | Some p => String.eqb p (API_PASSWORD cfg)
              | None => false
              end)
     then ret (mkResponse 401 (ErrorBody "Invalid password" None))
     else
       match links req with
       | None => ret (mkResponse 400 (ErrorBody "Links array required" None))
       | Some links =>
           results <- for_of_with links [] uploadOne ;;
           scheduleBatchUpload ;;
           ret (mkResponse 200
                  (UploadOk results
                     (Js.String_of_nat (List.length results) ++
                      " links processed. Refresh will happen in " ++
                      Js.String_of_Z (BATCH_WINDOW_MINUTES cfg) ++
                      " minutes.")))
       end)
    (fun error =>
       emit (Log (UploadFailed (error_message error))) ;;
       ret (mkResponse 500
              (ErrorBody "Upload failed" (Some (error_message error))))).

(** The names bound at the top level of server.js: its [require]s, its
    [const] and [let] declarations, its classes and its functions. *)
Definition moduleScope : list string :=
  [ "express"; "cron"; "axios"; "Octokit"; "ytdl"; "app"; "CONFIG";
    "octokit"; "refreshTimer"; "pendingUploads"; "linkDatabase";
    "isRefreshing"; "LinkEncoder"; "YouTubeConverter"; "LinkHealthChecker";
    "GitHubManager"; "LogCollector"; "refreshAllLinks";
    "scheduleBatchUpload"; "generateLinkId"; "PORT" ].

(** Evaluating an identifier in a scope: a name that nothing binds
    throws. *)
Definition identifier {A} (scope : list string) (name : string) (value : A)
  : M A :=
  if existsb (String.eqb name) scope then ret value
  else throw (ReferenceError (name ++ " is not defined")).

(** The static methods the status route calls on [LinkCleaner] and
    [ViewTracker].  server.js declares neither class, so their behaviour
    is left open: the route is embedded for whatever they would do. *)
Record StatusHelpers : Type := mkStatusHelpers {
  LinkCleaner_getOldLinks : State -> list string;
  ViewTracker_getTotalViews : State -> Z;
  ViewTracker_getTopLinks : nat -> State -> list string
}.

(** The handler of [app.get('/api/status', ...)], evaluated in a scope. *)
Definition statusHandler (scope : list string) (helpers : StatusHelpers)
  : M Response :=
  let identifier {A} := @identifier A scope in
  getOldLinks <- identifier "LinkCleaner" (LinkCleaner_getOldLinks helpers) ;;
  oldLinks <- gets getOldLinks ;;
  let oldLinksCount := List.length oldLinks in
  totalLinks <- gets (fun st => List.length (Obj.keys (linkDatabase st))) ;;
  getTotalViews <-
    identifier "ViewTracker" (ViewTracker_getTotalViews helpers) ;;
  totalViews <- gets getTotalViews ;;
  pending <- gets (fun st => List.length (pendingUploads st)) ;;
  lastRefresh <- Date_now ;;
  refreshing <- gets isRefreshing ;;
  armed <- gets refreshTimer ;;
  getTopLinks <-
    identifier "ViewTracker" (ViewTracker_getTopLinks helpers) ;;
  topLinks <- gets (getTopLinks 5) ;;
  ret (mkResponse 200
         (StatusOk
            {| status_totalLinks := totalLinks;
               status_totalViews := totalViews;
               status_pendingUploads := pending;
               status_oldLinksToClean := oldLinksCount;
               status_lastRefresh := lastRefresh;
               status_isRefreshing := refreshing;
               status_nextRefresh :=
                 match armed with
                 | Some _ => "Scheduled"
                 | None => "None"
                 end;
               status_topLinks := topLinks |})).

(** [app.get('/api/status', ...)]: the handler in the scope of
    server.js. *)
Definition statusRoute (helpers : StatusHelpers) : M Response :=
  statusHandler moduleScope helpers.

(** Express around a route handler: an exception that escapes the
    handler is answered by the default error handler with status 500. *)
Definition express (handler : M Response) : M Response :=
  try_catch handler (fun e => ret (mkResponse 500 (UnhandledError e))).

(** ** Vocabulary of the properties *)

(** The spec's "success status", read as HTTP does: the class 2xx.  It
    is also the set of statuses for which [axios.head] is fulfilled. *)
Definition success_status (s : Z) : bool := (200 <=? s)%Z && (s <? 300)%Z.

(** [m] returns, whatever the state and the world. *)
Definition returns {A} (m : M A) : Prop :=
  forall st w, exists a, completion (m st w) = Return a.

(** [m] leaves the observation [f] of the module state as it was. *)
Definition preserves {A X} (f : State -> X) (m : M A) : Prop :=
  forall st w, f (state (m st w)) = f st.

(** The string is made of ASCII characters only. *)
Definition isAscii (s : string) : bool :=
  forallb (fun c => (N_of_ascii c <? 128)%N) (list_ascii_of_string s).

(** Every byte, and a check of a predicate on every byte. *)
Definition all_ascii : list ascii := map ascii_of_nat (seq 0 256).
Definition forall_ascii (p : ascii -> bool) : bool := forallb p all_ascii.

(** The value a run returned, if it did. *)
Definition returned {A} (r : Res A) : option A :=
  match completion r with
  | Return a => Some a
  | Throw _ => None
  end.

(** [m], run in [st] and [w], returns [a] in state [st'] and world [w']. *)
Definition runs {A} (m : M A) (st : State) (w : World)
    (a : A) (st' : State) (w' : World) : Prop :=
  completion (m st w) = Return a /\
  state (m st w) = st' /\
  world (m st w) = w'.

(** The locals of [checkAllLinks] before its loop. *)
Definition noResults : list BrokenLink * Results :=
  ([], mkResults 0 0 0 [] None).

(** The verdict of the health phase on an entry probed in state [st]
    and world [w]: it has a stream URL and the probe is active. *)
Definition verdict (d : LinkData) (st : State) (w : World) : bool :=
  match streamUrl d with
  | Some url =>
      Js.truthy_string url &&
      match returned (LinkHealthChecker.checkLink url st w) with
      | Some h => isActive h
      | None => false
      end
  | None => false
  end.

(** The world in which the loop of [checkAllLinks], started in state
    [st] and world [w], has gone through the entries [pre]. *)
Definition worldAfter (pre : list (string * LinkData)) (st : State)
    (w : World) : World :=
  world (for_of_with pre noResults LinkHealthChecker.checkEntry st w).

(** The health check that [checkAllLinks], started in state [st] and
    world [w], makes for the entry that follows the entries [pre]. *)
Definition probeAfter (pre : list (string * LinkData)) (url : string)
    (st : State) (w : World) : Res HealthCheck :=
  let before := for_of_with pre noResults LinkHealthChecker.checkEntry st w in
  LinkHealthChecker.checkLink url (state before) (world before).

(** The registry without the entries of the given ids. *)
Definition prune (ids : list string) (db : Obj.t LinkData) : Obj.t LinkData :=
  fold_left (fun o id => Obj.delete id o) ids db.

(** The entry [d] after a successful re-resolution [s] at time [now]. *)
Definition refreshed (d : LinkData) (s : StreamData) (now : Z) : LinkData :=
  with_lastRefreshed now (with_streamUrl (stream_streamUrl s) d).


(** The entry [d], which follows the entries [pre] in the registry, had
    a successful health probe in the health phase started in [st] and
    [w]. *)
Definition passesHealthCheck (pre : list (string * LinkData))
    (d : LinkData) (st : State) (w : World) : Prop :=
  exists url h,
    streamUrl d = Some url /\ Js.truthy_string url = true /\
    completion (probeAfter pre url st w) = Return h /\ isActive h = true.

(** The entry [d] had no stream URL, or its health probe failed. *)
Definition failsHealthCheck (pre : list (string * LinkData))
    (d : LinkData) (st : State) (w : World) : Prop :=
  Js.truthy (streamUrl d) = false \/
  exists url h,
    streamUrl d = Some url /\
    completion (probeAfter pre url st w) = Return h /\ isActive h = false.

(** The ids of the pending uploads. *)
Definition pendingIds (st : State) : list string :=
  map upload_id (pendingUploads st).

(** The ids that an upload response reports. *)
Definition responseIds (r : Response) : list string :=
  match body r with
  | UploadOk results _ => map result_linkId results
  | _ => []
  end.

(** The public tokens (the last path segment of each master link) that
    an upload response reports, given the length of the link prefix. *)
Definition responseLinks (r : Response) : list string :=
  match body r with
  | UploadOk results _ => map result_masterLink results
  | _ => []
  end.

(** The mappings handed to the publisher during a run. *)
Fixpoint publishedMappings (es : list Event) : list (Obj.t Published) :=
  match es with
  | [] => []
  | PutContentRequest content _ :: es' => content :: publishedMappings es'
  | _ :: es' => publishedMappings es'
  end.

(** ** A scripted world and scenarios *)

Definition demoConfig : Config := make_config "owner" "repo" (Some "secret").

Definition demoFormat (url : string) : Format :=
  mkFormat (Some url) "highest" (Some "720p") true.

(** Every URL [u:x] resolves to the stream [s:x]; every stream answers
    200, except [s:a] from tick [expiry] on, which answers 404; the
    random strings alternate; [links.json] does not exist yet and every
    write succeeds. *)
Definition demoWorld (expiry : nat) : World :=
  {| tick := 0;
     clock := fun t => (1000 * Z.of_nat t)%Z;
     random36 := fun t => if Nat.even t then "0.abcdef" else "0.xyz123";
     remote := fun t url =>
       if String.eqb url "s:a" && (expiry <=? t)%nat then Responds 404
       else Responds 200;
     ytdl_info := fun _ url =>
       if String.prefix "u:" url then
         Return (mkVideoInfo ("Title of " ++ url) 60
                   [demoFormat ("s:" ++ String.substring 2 8 url)])
       else Throw (Error "Not a YouTube domain");
     github_get := fun _ => Throw (Error "Not Found");
     github_put := fun _ _ _ => Return tt |}.

(** A world in which the host of every URL answers with [status]. *)
Definition worldAnswering (status : Z) : World :=
  {| tick := 0;
     clock := fun t => Z.of_nat t;
     random36 := fun _ => "0.abcdef";
     remote := fun _ _ => Responds status;
     ytdl_info := fun _ _ => Throw (Error "unavailable");
     github_get := fun _ => Throw (Error "Not Found");
     github_put := fun _ _ _ => Return tt |}.

(** The probe of a stream whose host answers 204 No Content. *)
Definition probe204 : Res HealthCheck :=
  LinkHealthChecker.checkLink "s:a" (initialState demoConfig)
    (worldAnswering 204).

Definition demoUpload (urls : list string) : UploadBody :=
  mkUploadBody (Some urls) (Some "secret").

Definition demoData (url : string) (stream : option string) : LinkData :=
  {| originalUrl := url;
     streamUrl := stream;
     title := "Title of " ++ url;
     quality := "720p";
     createdAt := 0;
     lastRefreshed := 0;
     isValid := true |}.


(** A registry with a healthy entry, an expired one, and one that never
    had a stream. *)
Definition demoState : State :=
  set_linkDatabase
    [ ("mov001", demoData "u:b" (Some "s:b"));
      ("mov002", demoData "u:a" (Some "s:a"));
      ("mov003", demoData "x:c" None) ]
    (initialState demoConfig).

(** Uploading one URL at a time, with an entry expiring in between:
    [u:a] and [u:b] are uploaded and admitted, [s:a] then expires and a
    scheduled refresh prunes its entry, and [u:c] is uploaded. *)
Definition reuse1 : Res Response :=
  uploadRoute (demoUpload ["u:a"]) (initialState demoConfig) (demoWorld 40).
Definition reuse2 : Res unit := fireTimeout 0 (state reuse1) (world reuse1).
Definition reuse3 : Res Response :=
  uploadRoute (demoUpload ["u:b"]) (state reuse2) (world reuse2).
Definition reuse4 : Res unit := fireTimeout 1 (state reuse3) (world reuse3).
Definition reuse5 : Res unit := scheduledRefresh (state reuse4) (world reuse4).
Definition reuse6 : Res Response :=
  uploadRoute (demoUpload ["u:c"]) (state reuse5) (world reuse5).
Definition reuse7 : Res unit := fireTimeout 2 (state reuse6) (world reuse6).

(** One batch of three URLs on a fresh server, and the debounce timer
    firing afterwards. *)
Definition batch1 : Res Response :=
  uploadRoute (demoUpload ["u:a"; "u:b"; "u:c"]) (initialState demoConfig)
    (demoWorld 1000).
Definition batch2 : Res unit := fireTimeout 0 (state batch1) (world batch1).

(** One URL on a fresh server, and the debounce timer firing. *)
Definition single1 : Res Response :=
  uploadRoute (demoUpload ["u:b"]) (initialState demoConfig) (demoWorld 1000).
Definition single2 : Res unit := fireTimeout 0 (state single1) (world single1).

(** ** The handlers the runtime starts *)

(** A request to one of the two routes, a timeout firing, or the cron
    schedule firing. *)
Inductive Trigger : Type :=
| UploadRequest (req : UploadBody)
| StatusRequest (helpers : StatusHelpers)
| TimeoutFires (h : nat)
| CronFires.

Definition handleTrigger (t : Trigger) : M unit :=
  match t with
  | UploadRequest req => _ <- uploadRoute req ;; ret tt
  | StatusRequest helpers => _ <- express (statusRoute helpers) ;; ret tt
  | TimeoutFires h => fireTimeout h
  | CronFires => scheduledRefresh
  end.

(** The server under the schedule in which every handler runs to its
    end before the next one starts.  The event loop also starts a
    handler while another is suspended at an [await]: that is
    [interleave], below. *)
Definition serve (ts : list Trigger) : M unit := for_of ts handleTrigger.

(** ** Vocabulary of the further properties *)

(** [ytdl.getInfo(url)] returns in the world [w]. *)
Definition videoAvailable (w : World) (url : string) : bool :=
  match ytdl_info w (tick w) url with
  | Return _ => true
  | Throw _ => false
  end.

(** [ytdl.getInfo(url)] returns in the world [w] and one of the formats
    has a URL and carries video. *)
Definition streamResolvable (w : World) (url : string) : bool :=
  match ytdl_info w (tick w) url with
  | Return info =>
      match YouTubeConverter.bestFormat
              (ytdl_filterFormats_video (formats info)) with
      | Some _ => true
      | None => false
      end
  | Throw _ => false
  end.

(** The password check of the upload route (line 394). *)
Definition authorized (cfg : Config) (req : UploadBody) : bool :=
  match password req with
  | Some p => String.eqb p (API_PASSWORD cfg)
  | None => false
  end.

(** The stream URLs that the health phase probes: those of the entries
    that have one, in the order of the registry. *)
Definition probedUrls (db : Obj.t LinkData) : list string :=
  flat_map
    (fun entry =>
       match streamUrl (snd entry) with
       | Some url => if Js.truthy_string url then [url] else []
       | None => []
       end)
    db.

(** The reason with which the health phase reports an entry whose
    stream URL got the answer [r], or [None] when it reports it active:
    the client's error message when there is one, and [HTTP] followed by
    the status otherwise. *)
Definition brokenReason (r : Remote) : option string :=
  match r with
  | Responds s =>
      if success_status s then
        if (s =? 200)%Z then None else Some ("HTTP " ++ Js.String_of_Z s)
      else Some ("Request failed with status code " ++ Js.String_of_Z s)
  | TransportFailure m =>
      Some (if Js.truthy_string m then m else "HTTP 0")
  | TimedOut => Some "timeout of 10000ms exceeded"
  end.

(** Kinds of events. *)
Definition isBrokenNotice (e : Event) : bool :=
  match e with
  | Log (BrokenLinksDetected _) => true
  | _ => false
  end.

Definition isPutRequest (e : Event) : bool :=
  match e with
  | PutContentRequest _ _ => true
  | _ => false
  end.

Definition isOutgoing (e : Event) : bool :=
  match e with
  | Log _ => false
  | _ => true
  end.

(** [m] emits no event of the kind [p]. *)
Definition emits_no {A} (p : Event -> bool) (m : M A) : Prop :=
  forall st w, filter p (events (m st w)) = [].

(** Every key of the mapping under construction is the encoding of the
    id of an entry gone through, and carries its stream URL and title. *)
Definition describes (entries : list (string * LinkData))
    (content : Obj.t Published) : Prop :=
  forall k v,
    Obj.get k content = Some v ->
    exists id d rnd36,
      In (id, d) entries /\
      k = LinkEncoder.encode id rnd36 /\
      pub_url v = streamUrl d /\
      pub_title v = title d.


(** The mapping that the publisher builds on [acc] from the entries gone
    through in order, each with the random string and the time of its
    turn: an entry whose key is there already takes that key over. *)
Fixpoint publication (entries : list (string * LinkData))
    (stamps : list (string * Z)) (acc : Obj.t Published) : Obj.t Published :=
  match entries, stamps with
  | (id, d) :: entries', (rnd36, now) :: stamps' =>
      publication entries' stamps'
        (Obj.set (LinkEncoder.encode id rnd36)
           {| pub_url := streamUrl d; pub_title := title d;
              pub_updated := now |} acc)
  | _, _ => acc
  end.

(** The random string gives the suffix its three characters. *)
Definition fullSuffix (stamp : string * Z) : Prop :=
  String.length (Js.substring 2 5 (fst stamp)) = 3.

(** The debounce discipline: at most one timeout is registered, it is
    the one [refreshTimer] holds, its delay is the batch window, and
    handles that were handed out are below the next one. *)
Definition timerInvariant (st : State) : Prop :=
  (forall t, In t (timeouts st) ->
     refreshTimer st = Some (handle t) /\
     delay t = (BATCH_WINDOW_MINUTES (CONFIG st) * 60 * 1000)%Z) /\
  (List.length (timeouts st) <= 1)%nat /\
  (forall h, refreshTimer st = Some h -> (h < nextHandle st)%nat).

(** What the module state says about timers. *)
Definition timerView (st : State) :=
  (refreshTimer st, timeouts st, nextHandle st, CONFIG st).


(** The id that line 385 builds for the number [n]. *)
Definition linkIdOf (type : string) (n : nat) : string :=
  type ++ Js.padStart 3 "0" (Js.String_of_nat n).

(** The number that a string of decimal digits denotes ([parseInt] on
    digits only); [None] if a character is not a digit or the string is
    empty. *)
Definition linkNumber (digits : string) : option nat :=
  match digits with
  | "" => None
  | _ => option_map Nat.of_uint (NilEmpty.uint_of_string digits)
  end.

(** The number of keys that [generateLinkId] counts. *)
Definition countWithPrefix (type : string) (db : Obj.t LinkData) : nat :=
  List.length (filter (fun id => Js.startsWith id type) (Obj.keys db)).

(** * The handlers as the event loop runs them

    An [async] function runs until it reaches an [await], is suspended
    there, and is resumed later by the event loop, which may run other
    handlers in between.  A [Task] is such a function: synchronous
    stretches of the module's code ([Sync]), separated by the points
    where it is suspended ([Yield]).  Every [await] suspends, also when
    the awaited promise is already settled.  The event loop is not
    asked to prefer promise reactions to timers and requests: at a
    suspension point any handler may run, which admits every schedule
    of Node and some more. *)

Inductive Task (A : Type) : Type :=
| Pure (a : A)
| Raise (e : JsError)
| Sync {X : Type} (m : M X) (k : Completion X -> Task A)
| Yield (rest : Task A).
Arguments Pure {A} a.
Arguments Raise {A} e.
Arguments Sync {A X} m k.
Arguments Yield {A} rest.

(** [t], and then [k] on the way [t] completed. *)
Fixpoint settle {A B} (t : Task A) (k : Completion A -> Task B) : Task B :=
  match t with
  | Pure a => k (Return a)
  | Raise e => k (Throw e)
  | Sync m k' => Sync m (fun c => settle (k' c) k)
  | Yield rest => Yield (settle rest k)
  end.

Definition settled {A} (c : Completion A) : Task A :=
  match c with
  | Return a => Pure a
  | Throw e => Raise e
  end.

(** A synchronous stretch. *)
Definition now {A} (m : M A) : Task A := Sync m settled.

(** [await t]: [t] runs to its completion, through its own suspension
    points; the awaiting function is suspended in any case and gets the
    value, or the exception, when it is resumed. *)
Definition await {A} (t : Task A) : Task A :=
  settle t (fun c => Yield (settled c)).

Definition bindT {A B} (t : Task A) (k : A -> Task B) : Task B :=
  settle t (fun c => match c with
                     | Return a => k a
                     | Throw e => Raise e
                     end).

Definition try_catchT {A} (t : Task A) (h : JsError -> Task A) : Task A :=
  settle t (fun c => match c with
                     | Return a => Pure a
                     | Throw e => h e
                     end).

Definition try_finallyT {A} (t : Task A) (f : Task unit) : Task A :=
  settle t (fun c =>
    settle f (fun c' => match c' with
                        | Return _ => settled c
                        | Throw e => Raise e
                        end)).

Declare Scope task_scope.
Delimit Scope task_scope with task.
Bind Scope task_scope with Task.
Bind Scope js_scope with M.
Notation "x <- t ;; k" := (bindT t (fun x => k))
  (at level 61, t at next level, right associativity) : task_scope.
Notation "t ;; k" := (bindT t (fun _ => k))
  (at level 61, right associativity) : task_scope.

Fixpoint for_ofT {X} (xs : list X) (body : X -> Task unit) : Task unit :=
  match xs with
  | [] => Pure tt
  | x :: xs' => (body x ;; for_ofT xs' body)%task
  end.

Fixpoint for_of_withT {X L} (xs : list X) (acc : L) (body : L -> X -> Task L)
  : Task L :=
  match xs with
  | [] => Pure acc
  | x :: xs' => (acc' <- body acc x ;; for_of_withT xs' acc' body)%task
  end.

(** The functions of server.js that are [async], with their [await]s. *)
Module Tasks.

(** lines 53-69 *)
Definition getVideoInfo (url : string) : Task VideoSummary :=
  (try_catchT
     (info <- await (now (ytdl_getInfo url)) ;;
      Pure {| summary_title := videoDetails_title info;
              summary_duration := videoDetails_lengthSeconds info;
              summary_isAvailable := true;
              summary_error := None |})
     (fun error =>
        Pure {| summary_title := "Unknown Video";
                summary_duration := 0;
                summary_isAvailable := false;
                summary_error := Some (error_message error) |}))%task.

(** lines 71-103 *)
Definition convertToStreamLink (url : string) : Task StreamData :=
  (try_catchT
     (info <- await (now (ytdl_getInfo url)) ;;
      let formats := ytdl_filterFormats_video (formats info) in
      match YouTubeConverter.bestFormat formats with
      | None => Raise (Error "No video format available")
      | Some best =>
          time <- now Date_now ;;
          Pure {| stream_streamUrl := format_url best;
                  stream_title := videoDetails_title info;
                  stream_quality :=
                    Js.or_else (format_qualityLabel best) "Unknown";
                  stream_expiresAt := Some (time + 6 * 60 * 60 * 1000)%Z;
                  stream_isValid := true;
                  stream_error := None |}
      end)
     (fun error =>
        now (emit (Log (ConversionFailed (error_message error)))) ;;
        Pure {| stream_streamUrl := None;
                stream_title := "Conversion Failed";
                stream_quality := "N/A";
                stream_expiresAt := None;
                stream_isValid := false;
                stream_error := Some (error_message error) |}))%task.

(** lines 108-123 *)
Definition checkLink (streamUrl : string) : Task HealthCheck :=
  (try_catchT
     (response_status <- await (now (axios_head streamUrl 10000)) ;;
      Pure {| isActive := (response_status =? 200)%Z;
              status := response_status;
              error := None |})
     (fun e =>
        Pure {| isActive := false;
                status :=
                  match error_response_status e with
                  | Some s => if (s =? 0)%Z then 0%Z else s
                  | None => 0%Z
                  end;
                error := Some (error_message e) |}))%task.

(** The body of the loop of [checkAllLinks] (lines 134-168). *)
Definition checkEntry (acc : list BrokenLink * Results)
    (entry : string * LinkData) : Task (list BrokenLink * Results) :=
  let '(brokenLinks, results) := acc in
  let '(linkId, linkData) := entry in
  let results := LinkHealthChecker.incr_total results in
  match streamUrl linkData with
  | None => now (LinkHealthChecker.noStreamUrl brokenLinks results linkId
                   linkData)
  | Some url =>
      if negb (Js.truthy_string url) then
        now (LinkHealthChecker.noStreamUrl brokenLinks results linkId
               linkData)
      else
        (healthCheck <- await (checkLink url) ;;
         let '(brokenLinks, results) :=
           if isActive healthCheck
           then (brokenLinks, LinkHealthChecker.incr_active results)
           else
             ((brokenLinks ++
                 [LinkHealthChecker.brokenLink linkId linkData
                    (Js.or_else (error healthCheck)
                       ("HTTP " ++ Js.String_of_Z (status healthCheck)))])%list,
              LinkHealthChecker.incr_broken results) in
         lastChecked <- now Date_now ;;
         Pure (brokenLinks,
               LinkHealthChecker.push_detail
                 {| detail_id := linkId;
                    detail_title := title linkData;
                    detail_status :=
                      if isActive healthCheck then "active" else "broken";
                    detail_lastChecked := lastChecked |}
                 results))%task
  end.

(** lines 125-171: [Object.entries(linkDatabase)] is taken once, when
    the loop starts. *)
Definition checkAllLinks : Task (list BrokenLink * Results) :=
  (db <- now (gets linkDatabase) ;;
   for_of_withT (Obj.entries db) noResults checkEntry)%task.

(** lines 176-218: the loop that fills [githubData] has no [await]. *)
Definition updateLinksFile : Task bool :=
  (try_catchT
     (db <- now (gets linkDatabase) ;;
      githubData <-
        now (for_of_with (Obj.entries db) Obj.empty
               GitHubManager.publishEntry) ;;
      fileSha <-
        try_catchT
          (data <- await (now octokit_getContent) ;;
           Pure (Some (file_sha data)))
          (fun _ => Pure None) ;;
      _ <- now Date_now ;;
      await (now (octokit_createOrUpdateFileContents githubData fileSha)) ;;
      now (emit (Log GithubUpdated)) ;;
      Pure true)
     (fun error =>
        now (emit (Log (GithubUpdateFailed (error_message error)))) ;;
        Pure false))%task.

(** lines 256-281 and 283-301: [async] functions without an [await]. *)
Definition sendBrokenLinksLog (brokenLinks : list BrokenLink) : Task unit :=
  now (LogCollector.sendBrokenLinksLog brokenLinks).

Definition generateRefreshLog (results : Results) : Task unit :=
  now (LogCollector.generateRefreshLog results).

(** The body of the re-resolution loop (lines 332-338). *)
Definition refreshEntry (entry : string * LinkData) : Task unit :=
  let '(linkId, linkData) := entry in
  if Js.truthy_string (originalUrl linkData) then
    (newStreamData <- await (convertToStreamLink (originalUrl linkData)) ;;
     if stream_isValid newStreamData then
       now (assign_entry linkId
              (with_streamUrl (stream_streamUrl newStreamData))) ;;
       time <- now Date_now ;;
       now (assign_entry linkId (with_lastRefreshed time))
     else Pure tt)%task
  else Pure tt.

(** lines 331-339 *)
Definition refreshActiveLinks : Task unit :=
  (db <- now (gets linkDatabase) ;;
   for_ofT (Obj.entries db) refreshEntry)%task.

(** The [try] block of [refreshAllLinks] (lines 316-346). *)
Definition refreshBody (startTime : Z) : Task unit :=
  (checked <- await checkAllLinks ;;
   let '(brokenLinks, results) := checked in
   (if (0 <? List.length brokenLinks)%nat then
      await (sendBrokenLinksLog brokenLinks) ;;
      now (removeBrokenLinks brokenLinks)
    else Pure tt) ;;
   refreshActiveLinks ;;
   _ <- await updateLinksFile ;;
   time <- now Date_now ;;
   await (generateRefreshLog (with_duration (time - startTime) results)))%task.

(** lines 305-354 *)
Definition refreshAllLinks : Task unit :=
  (refreshing <- now (gets isRefreshing) ;;
   if refreshing then now (emit (Log RefreshSkipped))
   else
     now (modify (set_isRefreshing true)) ;;
     startTime <- now Date_now ;;
     now (emit (Log RefreshStarting)) ;;
     try_finallyT
       (try_catchT (refreshBody startTime)
          (fun error => now (emit (Log (RefreshFailed (error_message error))))))
       (now (modify (set_isRefreshing false))))%task.

(** The callback given to [setTimeout] (lines 362-378). *)
Definition batchTimerCallback : Task unit :=
  (pending <- now (gets pendingUploads) ;;
   if (0 <? List.length pending)%nat then
     now (emit (Log (ProcessingPending (List.length pending)))) ;;
     let uploads := pending in
     now (modify (set_pendingUploads [])) ;;
     now (for_of uploads
            (fun upload =>
               modify (fun st =>
                 set_linkDatabase
                   (Obj.set (upload_id upload) (upload_data upload)
                      (linkDatabase st)) st))) ;;
     await refreshAllLinks
   else Pure tt)%task.

(** The runtime firing the timeout [h], if it is still registered. *)
Definition fireTimeout (h : nat) : Task unit :=
  (registered <- now (gets (fun st =>
     existsb (fun t => Nat.eqb (handle t) h) (timeouts st))) ;;
   if registered then now (clearTimeout h) ;; batchTimerCallback
   else Pure tt)%task.

(** The cron callback (lines 470-473): the promise of
    [refreshAllLinks] is not awaited. *)
Definition scheduledRefresh : Task unit :=
  (now (emit (Log ScheduledRefresh)) ;; refreshAllLinks)%task.

(** The body of the loop over [links] (lines 404-437). *)
Definition uploadOne (results : list UploadResult) (url : string)
  : Task (list UploadResult) :=
  (videoInfo <- await (getVideoInfo url) ;;
   streamData <- await (convertToStreamLink url) ;;
   linkId <- now (generateLinkId "mov") ;;
   rnd36 <- now Math_random_toString36 ;;
   let encodedId := LinkEncoder.encode linkId rnd36 in
   createdAt <- now Date_now ;;
   lastRefreshed <- now Date_now ;;
   let linkData :=
     {| originalUrl := url;
        streamUrl := stream_streamUrl streamData;
        title := summary_title videoInfo;
        quality := stream_quality streamData;
        createdAt := createdAt;
        lastRefreshed := lastRefreshed;
        isValid :=
          stream_isValid streamData && summary_isAvailable videoInfo |} in
   now (modify (fun st =>
     set_pendingUploads
       (pendingUploads st ++ [mkUpload linkId linkData])%list st)) ;;
   cfg <- now (gets CONFIG) ;;
   Pure (results ++
          [{| result_originalUrl := url;
              result_masterLink :=
                "https://" ++ GITHUB_OWNER cfg ++ ".github.io/" ++
                GITHUB_REPO cfg ++ "/r/" ++ encodedId;
              result_title := summary_title videoInfo;
              result_linkId := linkId;
              result_status :=
                if isValid linkData then "success" else "failed" |}])%list)%task.

(** [app.post('/api/upload', ...)] (lines 389-452) *)
Definition uploadRoute (req : UploadBody) : Task Response :=
  (try_catchT
     (cfg <- now (gets CONFIG) ;;
      if negb (match password req with
               | Some p => String.eqb p (API_PASSWORD cfg)
               | None => false
               end)
      then Pure (mkResponse 401 (ErrorBody "Invalid password" None))
      else
        match links req with
        | None =>
            Pure (mkResponse 400 (ErrorBody "Links array required" None))
        | Some links =>
            results <- for_of_withT links [] uploadOne ;;
            now scheduleBatchUpload ;;
            Pure (mkResponse 200
                    (UploadOk results
                       (Js.String_of_nat (List.length results) ++
                        " links processed. Refresh will happen in " ++
                        Js.String_of_Z (BATCH_WINDOW_MINUTES cfg) ++
                        " minutes.")))
        end)
     (fun error =>
        now (emit (Log (UploadFailed (error_message error)))) ;;
        Pure (mkResponse 500
                (ErrorBody "Upload failed" (Some (error_message error))))))%task.

(** The handler that a trigger starts.  The status handler has no
    [await]. *)
Definition handler (t : Trigger) : Task unit :=
  match t with
  | UploadRequest req => (_ <- uploadRoute req ;; Pure tt)%task
  | StatusRequest helpers =>
      (_ <- now (express (statusRoute helpers)) ;; Pure tt)%task
  | TimeoutFires h => fireTimeout h
  | CronFires => scheduledRefresh
  end.

End Tasks.

(** ** The event loop *)

(** Where a task stands after a stretch: it has completed, or it is
    suspended with the rest of its code. *)
Inductive Outcome (A : Type) : Type :=
| Finished (c : Completion A)
| Suspended (rest : Task A).
Arguments Finished {A} c.
Arguments Suspended {A} rest.

Record Ran (A : Type) : Type := mkRan {
  outcome : Outcome A;
  ran_state : State;
  ran_world : World;
  ran_events : list Event
}.
Arguments mkRan {A} _ _ _ _.

(** One stretch of a task: up to its next suspension point or to its
    end. *)
Fixpoint stretch {A} (t : Task A) (st : State) (w : World) : Ran A :=
  match t with
  | Pure a => mkRan (Finished (Return a)) st w []
  | Raise e => mkRan (Finished (Throw e)) st w []
  | Sync m k =>
      let r := m st w in
      let r' := stretch (k (completion r)) (state r) (world r) in
      mkRan (outcome r') (ran_state r') (ran_world r')
        (events r ++ ran_events r')%list
  | Yield rest => mkRan (Suspended rest) st w []
  end.

(** The process between two stretches: the module state, the world,
    the suspended tasks, what has been logged and requested so far,
    and, as a history variable, the ids of the uploads that timer
    callbacks have moved from the queue into the registry. *)
Record Runtime : Type := mkRuntime {
  module_state : State;
  outside : World;
  suspended : list (Task unit);
  output : list Event;
  admitted : list string
}.

Definition boot (cfg : Config) (w : World) : Runtime :=
  mkRuntime (initialState cfg) w [] [] [].

(** What the event loop does next: a trigger arrives and its handler
    runs its first stretch, or a suspended task runs its next one. *)
Inductive Move : Type :=
| Arrive (t : Trigger)
| Resume (i : nat).

(** The ids that the handler of the trigger is about to admit. *)
Definition admits (t : Trigger) (st : State) : list string :=
  match t with
  | TimeoutFires h =>
      if existsb (fun t => Nat.eqb (handle t) h) (timeouts st)
      then pendingIds st
      else []
  | _ => []
  end.

Definition launch (task : Task unit) (pool : list (Task unit))
    (new : list string) (rt : Runtime) : Runtime :=
  let r := stretch task (module_state rt) (outside rt) in
  mkRuntime (ran_state r) (ran_world r)
    (match outcome r with
     | Suspended rest => (pool ++ [rest])%list
     | Finished _ => pool
     end)
    (output rt ++ ran_events r)%list
    (admitted rt ++ new)%list.

Fixpoint without {X} (i : nat) (xs : list X) : list X :=
  match xs, i with
  | [], _ => []
  | _ :: xs', O => xs'
  | x :: xs', S i' => x :: without i' xs'
  end.

Definition step (mv : Move) (rt : Runtime) : Runtime :=
  match mv with
  | Arrive t =>
      launch (Tasks.handler t) (suspended rt)
        (admits t (module_state rt)) rt
  | Resume i =>
      match nth_error (suspended rt) i with
      | Some task => launch task (without i (suspended rt)) [] rt
      | None => rt
      end
  end.

(** The server under a schedule of the event loop. *)
Definition interleave (moves : list Move) (rt : Runtime) : Runtime :=
  fold_left (fun rt mv => step mv rt) moves rt.

(** A task among the others: at each of its suspension points the
    event loop makes the next batch of moves of the schedule, and then
    resumes the task.  The result is the way the task completed, the
    runtime at that moment, and what is left of the schedule. *)
Definition Schedule : Type := list (list Move).

Record Among (A : Type) : Type := mkAmong {
  among_completion : Completion A;
  among_runtime : Runtime;
  among_schedule : Schedule
}.
Arguments mkAmong {A} _ _ _.

Definition ran (r : Runtime) {X} (x : Res X) : Runtime :=
  mkRuntime (state x) (world x) (suspended r) (output r ++ events x)%list
    (admitted r).

Fixpoint runAmong {A} (t : Task A) (sched : Schedule) (rt : Runtime)
  : Among A :=
  match t with
  | Pure a => mkAmong (Return a) rt sched
  | Raise e => mkAmong (Throw e) rt sched
  | Sync m k =>
      let r := m (module_state rt) (outside rt) in
      runAmong (k (completion r)) sched (ran rt r)
  | Yield rest =>
      match sched with
      | [] => runAmong rest [] rt
      | batch :: sched' => runAmong rest sched' (interleave batch rt)
      end
  end.

(** Running a task to its end with nothing in between. *)
Definition atomically {A} (t : Task A) : M A :=
  fun st w =>
    let r := runAmong t [] (mkRuntime st w [] [] []) in
    mkRes (among_completion r) (module_state (among_runtime r))
      (outside (among_runtime r)) (output (among_runtime r)).

(** ** Vocabulary of the properties of interleaved runs *)

(** A task that never writes the registry or the guard, whatever the
    state it is resumed in: an upload request, a status request, what
    is left of a callback after its refresh. *)
Fixpoint bystander {A} (t : Task A) : Prop :=
  match t with
  | Pure _ => True
  | Raise _ => True
  | Sync m k =>
      preserves linkDatabase m /\ preserves isRefreshing m /\
      forall c, bystander (k c)
  | Yield rest => bystander rest
  end.

(** The event loop at one suspension point of a task. *)
Definition pause (sched : Schedule) (rt : Runtime) : Runtime * Schedule :=
  match sched with
  | [] => (rt, [])
  | batch :: sched' => (interleave batch rt, sched')
  end.

(** The runtime when a cycle that starts in [rt] reaches its [try]
    block: the guard is set, the clock has been read, the start is
    logged. *)
Definition entered (rt : Runtime) : Runtime :=
  mkRuntime (set_isRefreshing true (module_state rt)) (advance (outside rt))
    (suspended rt) (output rt ++ [Log RefreshStarting])%list (admitted rt).

(** The health check that the loop of [checkAllLinks], started in the
    runtime [rt] among the schedule [sched], makes for the entry that
    follows the entries [pre]. *)
Definition probeAmong (pre : list (string * LinkData)) (url : string)
    (sched : Schedule) (rt : Runtime) : Completion HealthCheck :=
  let before := runAmong (for_of_withT pre noResults Tasks.checkEntry)
                  sched rt in
  among_completion
    (runAmong (Tasks.checkLink url) (among_schedule before)
       (among_runtime before)).

(** The entry [d], which follows the entries [pre] in the registry, had
    a successful health probe in that loop. *)
Definition passesHealthCheckAmong (pre : list (string * LinkData))
    (d : LinkData) (sched : Schedule) (rt : Runtime) : Prop :=
  exists url h,
    streamUrl d = Some url /\ Js.truthy_string url = true /\
    probeAmong pre url sched rt = Return h /\ isActive h = true.

(** The entry [d] had no stream URL, or its health probe failed. *)
Definition failsHealthCheckAmong (pre : list (string * LinkData))
    (d : LinkData) (sched : Schedule) (rt : Runtime) : Prop :=
  Js.truthy (streamUrl d) = false \/
  exists url h,
    streamUrl d = Some url /\
    probeAmong pre url sched rt = Return h /\ isActive h = false.

(** While a cycle is suspended: the guard is set and the other
    suspended tasks are bystanders. *)
Definition calm (rt : Runtime) : Prop :=
  isRefreshing (module_state rt) = true /\ Forall bystander (suspended rt).

(** From [rt] to [rt'] the registry has lost no key and has gained the
    keys of the uploads admitted in between. *)
Definition joined (rt rt' : Runtime) : Prop :=
  exists new,
    admitted rt' = (admitted rt ++ new)%list /\
    forall k,
      In k (Obj.keys (linkDatabase (module_state rt'))) <->
      In k (Obj.keys (linkDatabase (module_state rt))) \/ In k new.

(** The registry with the uploads written under their ids, in order
    (lines 370-372). *)
Definition admission (uploads : list Upload) (db : Obj.t LinkData)
  : Obj.t LinkData :=
  fold_left (fun o u => Obj.set (upload_id u) (upload_data u) o) uploads db.

(** The verdict of the health phase on an entry whose probe is made in
    the runtime [rt] among the schedule [sched]: it has a stream URL
    and the probe is active. *)
Definition verdictAmong (d : LinkData) (sched : Schedule) (rt : Runtime)
  : bool :=
  match streamUrl d with
  | Some url =>
      Js.truthy_string url &&
      match among_completion (runAmong (Tasks.checkLink url) sched rt) with
      | Return h => isActive h
      | Throw _ => false
      end
  | None => false
  end.

(** The verdict on the entry that follows the entries [pre] in the
    loop of [checkAllLinks] started in [rt] among [sched]. *)
Definition verdictAfter (pre : list (string * LinkData)) (d : LinkData)
    (sched : Schedule) (rt : Runtime) : bool :=
  let before := runAmong (for_of_withT pre noResults Tasks.checkEntry)
                  sched rt in
  verdictAmong d (among_schedule before) (among_runtime before).

(** [t] returns, whatever the schedule and the runtime. *)
Definition lands {A} (t : Task A) : Prop :=
  forall sched rt, exists a, among_completion (runAmong t sched rt) = Return a.

(** One entry in the registry and an upload that could not be resolved
    waiting for its timer: [u:b] has been uploaded and admitted, and
    [x:c] has been uploaded since. *)
Definition waiting : Res Response :=
  uploadRoute (demoUpload ["x:c"]) (state single2) (world single2).

(** The timer of the waiting upload fires at the first suspension point
    of whatever runs. *)
Definition timerFiresFirst : Schedule := [[Arrive (TimeoutFires 1)]].

(** A task none of whose stretches writes the guard. *)
Fixpoint keepsGuard {A} (t : Task A) : Prop :=
  match t with
  | Pure _ => True
  | Raise _ => True
  | Sync m k => preserves isRefreshing m /\ forall c, keepsGuard (k c)
  | Yield rest => keepsGuard rest
  end.

(** What is left of a running cycle: resumed with the guard set, it
    keeps the guard set from stretch to stretch, until the stretch that
    clears it, after which it is a bystander.  It does not end with the
    guard set. *)
Fixpoint cycling {A} (t : Task A) : Prop :=
  match t with
  | Pure _ => False
  | Raise _ => False
  | Sync m k =>
      forall st w,
        isRefreshing st = true ->
        if isRefreshing (state (m st w))
        then cycling (k (completion (m st w)))
        else bystander (k (completion (m st w)))
  | Yield rest => cycling rest
  end.

(** A handler at its start, while the guard is clear: it is not
    suspended before it has either set the guard, becoming a running
    cycle, or become a bystander. *)
Fixpoint starting {A} (t : Task A) : Prop :=
  match t with
  | Pure _ => True
  | Raise _ => True
  | Sync m k =>
      forall st w,
        isRefreshing st = false ->
        if isRefreshing (state (m st w))
        then cycling (k (completion (m st w)))
        else starting (k (completion (m st w)))
  | Yield rest => bystander rest
  end.

(** At most one cycle is in flight: with the guard clear every
    suspended task is a bystander; with the guard set one suspended
    task is the running cycle and the others are bystanders. *)
Definition oneCycle (rt : Runtime) : Prop :=
  (isRefreshing (module_state rt) = false /\
   Forall bystander (suspended rt)) \/
  (isRefreshing (module_state rt) = true /\
   exists before cycle behind,
     suspended rt = (before ++ cycle :: behind)%list /\
     cycling cycle /\
     Forall bystander (before ++ behind)%list).

(** The task [t], run with nothing in between, is the computation
    [m]. *)
Definition alone {A} (t : Task A) (m : M A) : Prop :=
  forall rt,
    runAmong t [] rt =
    mkAmong (completion (m (module_state rt) (outside rt)))
      (ran rt (m (module_state rt) (outside rt))) [].

(** A schedule of the event loop on a fresh server: [u:b] is uploaded,
    its timer fires and the cycle of the callback runs to its end;
    [x:c], which cannot be resolved, is uploaded; the cron schedule
    fires; while its cycle is suspended at its first health probe, the
    timer of the second upload fires; then everything runs to its
    end. *)
Definition lateTimer : list Move :=
  ([Arrive (UploadRequest (demoUpload ["u:b"]))] ++ repeat (Resume 0) 4 ++
   [Arrive (TimeoutFires 0)] ++ repeat (Resume 0) 10 ++
   [Arrive (UploadRequest (demoUpload ["x:c"]))] ++ repeat (Resume 0) 4 ++
   [Arrive CronFires; Arrive (TimeoutFires 1)] ++ repeat (Resume 0) 12)%list.

(** The cycle of the cron schedule is suspended at its first probe and
    the timer of the waiting upload has not fired yet. *)
Definition midCycle : Runtime :=
  interleave [Arrive CronFires]
    (mkRuntime (state waiting) (world waiting) [] [] []).

(** The stretch [r] after the events [ev]. *)
Definition after {A} (ev : list Event) (r : Ran A) : Ran A :=
  mkRan (outcome r) (ran_state r) (ran_world r) (ev ++ ran_events r)%list.

(** * Properties *)

(** ** Reasoning about runs *)

Create HintDb js.

Section Runs.

Context {A B : Type}.

Lemma bind_returns (m : M A) (k : A -> M B) st w a :
  completion (m st w) = Return a ->
  bind m k st w =
  mkRes (completion (k a (state (m st w)) (world (m st w))))
        (state (k a (state (m st w)) (world (m st w))))
        (world (k a (state (m st w)) (world (m st w))))
        (events (m st w) ++ events (k a (state (m st w)) (world (m st w)))).
Proof. intros H. unfold bind. rewrite H. reflexivity. Qed.

Lemma bind_throws (m : M A) (k : A -> M B) st w e :
  completion (m st w) = Throw e ->
  bind m k st w = mkRes (Throw e) (state (m st w)) (world (m st w))
                    (events (m st w)).
Proof. intros H. unfold bind. rewrite H. reflexivity. Qed.

Lemma returns_ret (a : A) : returns (ret a).
Proof. intros st w. exists a. reflexivity. Qed.

Lemma returns_gets (f : State -> A) : returns (gets f).
Proof. intros st w. eexists. reflexivity. Qed.

Lemma returns_bind (m : M A) (k : A -> M B) :
  returns m -> (forall a, returns (k a)) -> returns (bind m k).
Proof.
  intros Hm Hk st w. destruct (Hm st w) as [a Ha].
  rewrite (bind_returns _ _ _ _ Ha). simpl. apply Hk.
Qed.

Lemma returns_try_catch (m : M A) (h : JsError -> M A) :
  (forall e, returns (h e)) -> returns (try_catch m h).
Proof.
  intros Hh st w. unfold try_catch.
  destruct (completion (m st w)) as [a|e] eqn:E.
  - exists a. exact E.
  - simpl. apply Hh.
Qed.

Lemma returns_external_return (req : list Event) (f : World -> nat -> A) :
  returns (external req (fun w t => Return (f w t))).
Proof. intros st w. eexists. reflexivity. Qed.

Lemma preserves_ret {X} (f : State -> X) (a : A) : preserves f (ret a).
Proof. intros st w. reflexivity. Qed.

Lemma preserves_throw {X} (f : State -> X) e : preserves f (@throw A e).
Proof. intros st w. reflexivity. Qed.

Lemma preserves_gets {X} (f : State -> X) (g : State -> A) :
  preserves f (gets g).
Proof. intros st w. reflexivity. Qed.

Lemma preserves_external {X} (f : State -> X) req
    (o : World -> nat -> Completion A) :
  preserves f (external req o).
Proof. intros st w. reflexivity. Qed.

Lemma preserves_bind {X} (f : State -> X) (m : M A) (k : A -> M B) :
  preserves f m -> (forall a, preserves f (k a)) -> preserves f (bind m k).
Proof.
  intros Hm Hk st w. unfold bind.
  destruct (completion (m st w)) as [a|e]; simpl.
  - rewrite Hk. apply Hm.
  - apply Hm.
Qed.

Lemma preserves_try_catch {X} (f : State -> X) (m : M A)
    (h : JsError -> M A) :
  preserves f m -> (forall e, preserves f (h e)) ->
  preserves f (try_catch m h).
Proof.
  intros Hm Hh st w. unfold try_catch.
  destruct (completion (m st w)) as [a|e]; simpl.
  - apply Hm.
  - rewrite Hh. apply Hm.
Qed.

End Runs.

Lemma returns_modify g : returns (modify g).
Proof. intros st w. eexists. reflexivity. Qed.

Lemma returns_emit e : returns (emit e).
Proof. intros st w. eexists. reflexivity. Qed.

Lemma preserves_emit {X} (f : State -> X) e : preserves f (emit e).
Proof. intros st w. reflexivity. Qed.

Lemma preserves_modify {X} (f : State -> X) g :
  (forall st, f (g st) = f st) -> preserves f (modify g).
Proof. intros H st w. apply H. Qed.

Lemma returns_for_of {X} (xs : list X) (body : X -> M unit) :
  (forall x, returns (body x)) -> returns (for_of xs body).
Proof.
  intros H. induction xs as [|x xs IH]; simpl.
  - apply returns_ret.
  - apply returns_bind; auto.
Qed.

Lemma returns_for_of_with {X L} (xs : list X) (body : L -> X -> M L) :
  (forall acc x, returns (body acc x)) ->
  forall acc, returns (for_of_with xs acc body).
Proof.
  intros H. induction xs as [|x xs IH]; intros acc; simpl.
  - apply returns_ret.
  - apply returns_bind; auto.
Qed.

Lemma preserves_for_of {X Y} (f : State -> Y) (xs : list X)
    (body : X -> M unit) :
  (forall x, preserves f (body x)) -> preserves f (for_of xs body).
Proof.
  intros H. induction xs as [|x xs IH]; simpl.
  - apply preserves_ret.
  - apply preserves_bind; auto.
Qed.

Lemma preserves_for_of_with {X L Y} (f : State -> Y) (xs : list X)
    (body : L -> X -> M L) :
  (forall acc x, preserves f (body acc x)) ->
  forall acc, preserves f (for_of_with xs acc body).
Proof.
  intros H. induction xs as [|x xs IH]; intros acc; simpl.
  - apply preserves_ret.
  - apply preserves_bind; auto.
Qed.

#[global] Hint Resolve returns_ret returns_gets returns_bind returns_try_catch
  returns_external_return returns_modify returns_emit returns_for_of
  returns_for_of_with : js.
#[global] Hint Resolve preserves_ret preserves_throw preserves_gets
  preserves_external preserves_bind preserves_try_catch preserves_emit
  preserves_for_of preserves_for_of_with : js.

(** ** The guard of the refresh cycle *)

Lemma refresh_skipped st w :
  isRefreshing st = true ->
  refreshAllLinks st w = mkRes (Return tt) st w [Log RefreshSkipped].
Proof.
  intros H. unfold refreshAllLinks, bind, gets.
  cbn [completion state world events]. rewrite H. reflexivity.
Qed.

(** C3: [refreshAllLinks] called while [isRefreshing] is true leaves
    every module variable, the timer table and the world as they were,
    makes no outgoing request and returns at once, having only logged
    that the refresh is skipped; nothing is queued for later. *)
Theorem refresh_while_refreshing_is_dropped : forall st w,
  isRefreshing st = true ->
  refreshAllLinks st w = mkRes (Return tt) st w [Log RefreshSkipped].
Proof. intros st w H. apply refresh_skipped, H. Qed.

Lemma refresh_while_refreshing_witness :
  isRefreshing (set_isRefreshing true demoState) = true /\
  refreshAllLinks (set_isRefreshing true demoState) (demoWorld 0) =
  mkRes (Return tt) (set_isRefreshing true demoState) (demoWorld 0)
    [Log RefreshSkipped].
Proof.
  split.
  - reflexivity.
  - apply refresh_while_refreshing_is_dropped. reflexivity.
Defined.

(** ** The health probe *)

Lemma checkLink_run : forall url st w,
  LinkHealthChecker.checkLink url st w =
  mkRes
    (Return
       match remote w (tick w) url with
       | Responds s =>
           if success_status s then mkHealthCheck (s =? 200)%Z s None
           else mkHealthCheck false s
                  (Some ("Request failed with status code " ++
                         Js.String_of_Z s))
       | TransportFailure m => mkHealthCheck false 0 (Some m)
       | TimedOut =>
           mkHealthCheck false 0 (Some "timeout of 10000ms exceeded")
       end)
    st (advance w) [HeadRequest url 10000].
Proof.
  intros url st w.
  unfold LinkHealthChecker.checkLink, try_catch, bind, axios_head, external,
    success_status.
  simpl. destruct (remote w (tick w) url) as [s|m|]; simpl.
  - destruct ((200 <=? s)%Z && (s <? 300)%Z) eqn:E; simpl.
    + reflexivity.
    + destruct (s =? 0)%Z eqn:E0; [|reflexivity].
      apply Z.eqb_eq in E0. subst s. reflexivity.
  - reflexivity.
  - reflexivity.
Qed.

(** C9, as the code has it: [checkLink] never throws and always returns
    a result, after one HEAD request and without touching the module
    state.  The result is active exactly when the remote answers with
    status 200.  A status outside 200..299, a transport failure and a
    timeout give an inactive result that carries the failure message; a
    status in 201..299 gives an inactive result that carries the status
    and no message. *)
Theorem checkLink_active_iff_status_200 : forall url st w,
  exists h,
    LinkHealthChecker.checkLink url st w =
      mkRes (Return h) st (advance w) [HeadRequest url 10000] /\
    (isActive h = true <-> remote w (tick w) url = Responds 200) /\
    match remote w (tick w) url with
    | Responds s =>
        status h = s /\
        if success_status s then error h = None
        else isActive h = false /\
             error h = Some ("Request failed with status code " ++
                             Js.String_of_Z s)
    | TransportFailure m =>
        isActive h = false /\ status h = 0%Z /\ error h = Some m
    | TimedOut =>
        isActive h = false /\ status h = 0%Z /\
        error h = Some "timeout of 10000ms exceeded"
    end.
Proof.
  intros url st w. eexists. split; [apply checkLink_run|].
  destruct (remote w (tick w) url) as [s|m|]; simpl.
  - destruct (success_status s) eqn:E; simpl.
    + split; [|auto]. split.
      * intros H. apply Z.eqb_eq in H. now subst.
      * intros H. inversion H. reflexivity.
    + split; [|auto]. split; [discriminate|].
      intros H. inversion H. subst s. discriminate.
  - repeat split; try discriminate.
  - repeat split; try discriminate.
Qed.

(** C9, as the spec words it, fails: a remote that answers 204, a
    success status, is reported inactive, and no failure reason is
    captured in the result. *)
Lemma checkLink_success_status_inactive :
  remote (worldAnswering 204) 0 "s:a" = Responds 204 /\
  success_status 204 = true /\
  completion probe204 = Return (mkHealthCheck false 204 None) /\
  ~ (forall h, completion probe204 = Return h ->
       (isActive h = true <-> success_status 204 = true)).
Proof.
  repeat split.
  intros H. specialize (H _ eq_refl). simpl in H.
  destruct H as [_ H]. discriminate (H eq_refl).
Qed.

(** ** The status route *)

(** The handler stops at its first identifier. *)
Lemma statusRoute_run helpers st w :
  statusRoute helpers st w =
  mkRes (Throw (ReferenceError "LinkCleaner is not defined")) st w [].
Proof. reflexivity. Qed.

(** C8 fails on the code: the handler's first expression reads
    [LinkCleaner], which server.js does not declare, so every request
    to the status route throws a [ReferenceError] before any field is
    computed, whatever the missing classes would do; Express answers
    500. *)
Theorem status_route_throws : forall helpers st w,
  statusRoute helpers st w =
    mkRes (Throw (ReferenceError "LinkCleaner is not defined")) st w [] /\
  completion (express (statusRoute helpers) st w) =
    Return (mkResponse 500
              (UnhandledError (ReferenceError "LinkCleaner is not defined"))).
Proof.
  intros helpers st w. split; [apply statusRoute_run|].
  unfold express, try_catch. rewrite statusRoute_run. reflexivity.
Qed.

(** With both classes in scope the handler would answer with the four
    observations of the spec. *)
Lemma status_handler_in_scope : forall scope helpers st w,
  existsb (String.eqb "LinkCleaner") scope = true ->
  existsb (String.eqb "ViewTracker") scope = true ->
  exists b,
    completion (statusHandler scope helpers st w) =
      Return (mkResponse 200 (StatusOk b)) /\
    state (statusHandler scope helpers st w) = st /\
    status_totalLinks b = List.length (Obj.keys (linkDatabase st)) /\
    status_pendingUploads b = List.length (pendingUploads st) /\
    status_isRefreshing b = isRefreshing st /\
    status_nextRefresh b =
      match refreshTimer st with Some _ => "Scheduled" | None => "None" end.
Proof.
  intros scope helpers st w H1 H2.
  unfold statusHandler, identifier.
  rewrite H1, H2.
  cbv beta iota zeta delta
    [bind ret gets Date_now external completion state world events].
  eexists. repeat split.
Qed.

(** ** The codec on concrete tokens *)

(** [Buffer.from(_, 'base64')] returns for every string, so the [catch]
    branch of [decode] is never taken: [decode] returns a string for
    every token. *)
Lemma decode_always_returns_a_string : forall token,
  exists s, LinkEncoder.decode token = Return (Some s).
Proof.
  intros token. unfold LinkEncoder.decode, Buffer_from_base64_call.
  simpl. eexists. reflexivity.
Qed.

(** C4 fails on the code: when [Math.random()] is 0.5 its base-36
    string is [0.i], the suffix that [encode] appends has one character
    instead of three, and [decode], which always drops three, cuts two
    characters off the base64 part: the id [mov001] comes back as
    [mov0]. *)
Theorem decode_encode_short_suffix :
  Js.substring 2 5 "0.i" = "i" /\
  LinkEncoder.encode "mov001" "0.i" = "bW92MDAxi" /\
  LinkEncoder.decode (LinkEncoder.encode "mov001" "0.i") =
    Return (Some "mov0").
Proof. repeat split. Qed.

(** C5 fails on the code: a token of three characters, and a token
    whose content is not base64, are both decoded to the empty string
    instead of failing; no token at all makes [decode] fail. *)
Theorem decode_short_or_malformed_token_returns :
  LinkEncoder.decode "abc" = Return (Some "") /\
  LinkEncoder.decode "!!!!xyz" = Return (Some "") /\
  LinkEncoder.decode "bW9=2MDAxabc" = Return (Some "mo") /\
  forall token, LinkEncoder.decode token <> Return None /\
                forall e, LinkEncoder.decode token <> Throw e.
Proof.
  repeat split; intros;
    destruct (decode_always_returns_a_string token) as [s Hs];
    rewrite Hs; discriminate.
Qed.

(** ** Exhaustive checks over bytes *)

Open Scope list_scope.

Lemma all_ascii_complete a : In a all_ascii.
Proof.
  unfold all_ascii. rewrite <- (ascii_nat_embedding a).
  apply in_map. apply in_seq. pose proof (nat_ascii_bounded a). lia.
Qed.

Lemma forall_ascii_spec p : forall_ascii p = true -> forall a, p a = true.
Proof.
  unfold forall_ascii. rewrite forallb_forall. intros H a.
  apply H, all_ascii_complete.
Qed.

Lemma forall_ascii2_spec (p : ascii -> ascii -> bool) :
  forall_ascii (fun a => forall_ascii (p a)) = true ->
  forall a b, p a b = true.
Proof.
  intros H a b. apply (forall_ascii_spec (p a)).
  apply (forall_ascii_spec (fun a => forall_ascii (p a))). exact H.
Qed.

Lemma sextet_roundtrip_bool :
  forallb (fun n => match Buffer.unbase64 (Buffer.sextet_char n) with
                    | Some m => N.eqb m n
                    | None => false
                    end && negb (Ascii.eqb (Buffer.sextet_char n) "="%char))
    (map N.of_nat (seq 0 64)) = true.
Proof. vm_compute. reflexivity. Qed.

Lemma sextet_roundtrip n :
  (n < 64)%N ->
  Buffer.unbase64 (Buffer.sextet_char n) = Some n /\ Buffer.sextet_char n <> "="%char.
Proof.
  intros H. pose proof sextet_roundtrip_bool as B.
  rewrite forallb_forall in B. specialize (B n).
  assert (I : In n (map N.of_nat (seq 0 64))).
  { rewrite <- (N2Nat.id n). apply in_map, in_seq. lia. }
  specialize (B I). apply andb_prop in B. destruct B as [B1 B2].
  split.
  - destruct (Buffer.unbase64 (Buffer.sextet_char n)); [|discriminate].
    apply N.eqb_eq in B1. now subst.
  - intros E. rewrite E in B2. discriminate.
Qed.

Lemma s1_bound a : (Buffer.s1 a < 64)%N.
Proof.
  apply N.ltb_lt. revert a.
  apply (forall_ascii_spec (fun a => (Buffer.s1 a <? 64)%N)). vm_compute. reflexivity.
Qed.

Lemma s2_bound a b : (Buffer.s2 a b < 64)%N.
Proof.
  apply N.ltb_lt. revert a b.
  apply (forall_ascii2_spec (fun a b => (Buffer.s2 a b <? 64)%N)).
  vm_compute. reflexivity.
Qed.

Lemma s3_bound a b : (Buffer.s3 a b < 64)%N.
Proof.
  apply N.ltb_lt. revert a b.
  apply (forall_ascii2_spec (fun a b => (Buffer.s3 a b <? 64)%N)).
  vm_compute. reflexivity.
Qed.

Lemma s4_bound a : (Buffer.s4 a < 64)%N.
Proof.
  apply N.ltb_lt. revert a.
  apply (forall_ascii_spec (fun a => (Buffer.s4 a <? 64)%N)). vm_compute. reflexivity.
Qed.

(** The first byte of a group comes back from its first two sextets. *)
Lemma d1_of_sextets a b : Buffer.d1 (Buffer.s1 a) (Buffer.s2 a b) = a.
Proof.
  apply Ascii.eqb_eq. revert a b.
  apply (forall_ascii2_spec (fun a b => Ascii.eqb (Buffer.d1 (Buffer.s1 a) (Buffer.s2 a b)) a)).
  vm_compute. reflexivity.
Qed.

(** The second sextet matters to the second byte through its low four
    bits only, which come from the second byte. *)
Lemma s2_low a b : N.land (Buffer.s2 a b) 15 = N.land (Buffer.s2 Ascii.zero b) 15.
Proof.
  apply N.eqb_eq. revert a b.
  apply (forall_ascii2_spec
           (fun a b => N.eqb (N.land (Buffer.s2 a b) 15) (N.land (Buffer.s2 Ascii.zero b) 15))).
  vm_compute. reflexivity.
Qed.

Lemma s3_high b c : N.land (Buffer.s3 b c) 60 = N.land (Buffer.s3 b Ascii.zero) 60.
Proof.
  apply N.eqb_eq. revert b c.
  apply (forall_ascii2_spec
           (fun b c => N.eqb (N.land (Buffer.s3 b c) 60) (N.land (Buffer.s3 b Ascii.zero) 60))).
  vm_compute. reflexivity.
Qed.

Lemma d2_of_sextets a b c : Buffer.d2 (Buffer.s2 a b) (Buffer.s3 b c) = b.
Proof.
  unfold Buffer.d2. rewrite s2_low, s3_high. revert b.
  intros b. apply Ascii.eqb_eq. revert b.
  apply (forall_ascii_spec
           (fun b => Ascii.eqb
              (Buffer.byte_of (N.lor (N.shiftl (N.land (Buffer.s2 Ascii.zero b) 15) 4)
                              (N.shiftr (N.land (Buffer.s3 b Ascii.zero) 60) 2))) b)).
  vm_compute. reflexivity.
Qed.

Lemma d3_of_sextets b c : Buffer.d3 (Buffer.s3 b c) (Buffer.s4 c) = c.
Proof.
  apply Ascii.eqb_eq. revert b c.
  apply (forall_ascii2_spec (fun b c => Ascii.eqb (Buffer.d3 (Buffer.s3 b c) (Buffer.s4 c)) c)).
  vm_compute. reflexivity.
Qed.

(** ** The codec with a suffix of three characters *)

Lemma length_append (s t : string) :
  String.length (s ++ t)%string = String.length s + String.length t.
Proof. induction s as [|c s IH]; simpl; [reflexivity | now rewrite IH]. Qed.

Lemma substring_prefix (s t : string) :
  String.substring 0 (String.length s) (s ++ t)%string = s.
Proof.
  induction s as [|c s IH]; simpl.
  - destruct t; reflexivity.
  - now rewrite IH.
Qed.

Lemma slice_drop_suffix (s suffix : string) :
  Js.slice_drop_last (String.length suffix) (s ++ suffix)%string = s.
Proof.
  unfold Js.slice_drop_last. rewrite length_append.
  replace (String.length s + String.length suffix - String.length suffix)
    with (String.length s) by lia.
  apply substring_prefix.
Qed.

Lemma slice_drop_three (s suffix : string) :
  String.length suffix = 3 -> Js.slice_drop_last 3 (s ++ suffix)%string = s.
Proof. intros H. rewrite <- H. apply slice_drop_suffix. Qed.

Lemma list_ascii_of_append (s t : string) :
  list_ascii_of_string (s ++ t)%string =
  list_ascii_of_string s ++ list_ascii_of_string t.
Proof. induction s as [|c s IH]; simpl; [reflexivity | now rewrite IH]. Qed.

Lemma list_ind3 {X} (P : list X -> Prop) :
  P [] -> (forall a, P [a]) -> (forall a b, P [a; b]) ->
  (forall a b c l, P l -> P (a :: b :: c :: l)) ->
  forall l, P l.
Proof.
  intros H0 H1 H2 H3.
  fix IH 1.
  intros [|a [|b [|c l]]];
    [exact H0 | exact (H1 a) | exact (H2 a b) | exact (H3 a b c l (IH l))].
Qed.

Lemma remove_char_keeps c x s :
  x <> c -> Js.remove_char c (String x s) = String x (Js.remove_char c s).
Proof.
  intros N. simpl. apply Ascii.eqb_neq in N. now rewrite N.
Qed.

(** One character of the alphabet met by the decoder. *)
Lemma decode_from_sextet n cs pending :
  (n < 64)%N ->
  Buffer.decode_from (Buffer.sextet_char n :: cs) pending =
  match pending with
  | [x; y; z] => Buffer.d1 x y :: Buffer.d2 y z :: Buffer.d3 z n :: Buffer.decode_from cs []
  | _ => Buffer.decode_from cs (pending ++ [n])
  end.
Proof.
  intros H. destruct (sextet_roundtrip H) as [U _].
  cbn [Buffer.decode_from]. rewrite U. reflexivity.
Qed.

Lemma decode_from_padding cs pending :
  Buffer.decode_from ("="%char :: cs) pending = Buffer.flush pending.
Proof. reflexivity. Qed.

(** Decoding the unpadded base64 of a buffer, followed by padding,
    gives the buffer back. *)
Lemma decode_unpadded_base64 : forall b cs,
  Buffer.decode_from
    (list_ascii_of_string (Js.remove_char "="%char (Buffer.toBase64 b)) ++
     "="%char :: cs) [] = b.
Proof.
  intros b cs. induction b as [|x|x y|x y z b IH] using list_ind3.
  - reflexivity.
  - cbn [Buffer.toBase64].
    rewrite !remove_char_keeps
      by (apply sextet_roundtrip; auto using s1_bound, s2_bound).
    cbn [Js.remove_char list_ascii_of_string Ascii.eqb Bool.eqb].
    cbn [List.app].
    rewrite !decode_from_sextet by auto using s1_bound, s2_bound.
    cbn [List.app]. rewrite decode_from_padding. cbn [Buffer.flush].
    now rewrite d1_of_sextets.
  - cbn [Buffer.toBase64].
    rewrite !remove_char_keeps
      by (apply sextet_roundtrip; auto using s1_bound, s2_bound, s3_bound).
    cbn [Js.remove_char list_ascii_of_string Ascii.eqb Bool.eqb].
    cbn [List.app].
    rewrite !decode_from_sextet by auto using s1_bound, s2_bound, s3_bound.
    cbn [List.app]. rewrite decode_from_padding. cbn [Buffer.flush].
    now rewrite d1_of_sextets, d2_of_sextets.
  - cbn [Buffer.toBase64].
    rewrite !remove_char_keeps
      by (apply sextet_roundtrip;
          auto using s1_bound, s2_bound, s3_bound, s4_bound).
    cbn [list_ascii_of_string]. cbn [List.app].
    rewrite !decode_from_sextet
      by auto using s1_bound, s2_bound, s3_bound, s4_bound.
    cbn [List.app]. rewrite d1_of_sextets, d2_of_sextets, d3_of_sextets.
    now rewrite IH.
Qed.

(** ASCII bytes are well-formed UTF-8: decoding keeps them as they
    are. *)
Lemma utf8_ascii bs :
  forallb (fun c => (N_of_ascii c <? 128)%N) bs = true ->
  Buffer.utf8 bs [] 0 128%N 191%N = bs.
Proof.
  induction bs as [|c bs IH]; intros H; [reflexivity|].
  cbn [forallb] in H. apply andb_prop in H. destruct H as [Hc Hbs].
  cbn [Buffer.utf8]. unfold Buffer.byte. rewrite Hc. now rewrite IH.
Qed.

(** X1: when the random suffix has its three characters, decoding an
    encoded id gives the id back, whatever the suffix, for every id
    made of ASCII characters, as the ids of the server are. *)
Lemma decode_encode_three_character_suffix : forall id rnd36,
  isAscii id = true ->
  String.length (Js.substring 2 5 rnd36) = 3 ->
  LinkEncoder.decode (LinkEncoder.encode id rnd36) = Return (Some id).
Proof.
  intros id rnd36 Ha H.
  unfold LinkEncoder.decode, LinkEncoder.encode, try_catch_pure,
    Buffer_from_base64_call, Buffer.from_base64.
  rewrite (slice_drop_three _ _ H), list_ascii_of_append.
  cbn [list_ascii_of_string]. rewrite decode_unpadded_base64.
  unfold Buffer.toString, Buffer.from.
  rewrite (utf8_ascii _ Ha). now rewrite string_of_list_ascii_of_string.
Qed.

(** Bytes that are not UTF-8 are decoded to U+FFFD: the token
    [_wAAxyz] holds the bytes ff 00 00 and decodes to ef bf bd 00 00. *)
Example decode_replaces_invalid_bytes :
  LinkEncoder.decode "_wAAxyz" =
  Return (Some (string_of_list_ascii
                  (map ascii_of_nat [239; 191; 189; 0; 0]))).
Proof. vm_compute. reflexivity. Qed.

(** ** The id allocator on concrete runs *)

(** C6 fails on the code: [mov001] and [mov002] are allocated and
    admitted, the entry [mov001] is removed by a refresh cycle, and the
    next allocation returns [mov002] again, the id of an entry that is
    still in the registry; admitting the new upload overwrites it. *)
Theorem allocated_id_reused_after_removal :
  completion reuse1 = Return (mkResponse 200 (UploadOk
    [mkUploadResult "u:a" "https://owner.github.io/repo/r/bW92MDAxxyz"
       "Title of u:a" "mov001" "success"]
    "1 links processed. Refresh will happen in 5 minutes.")) /\
  Obj.keys (linkDatabase (state reuse2)) = ["mov001"] /\
  pendingIds (state reuse3) = ["mov002"] /\
  Obj.keys (linkDatabase (state reuse4)) = ["mov001"; "mov002"] /\
  Obj.keys (linkDatabase (state reuse5)) = ["mov002"] /\
  pendingIds (state reuse6) = ["mov002"] /\
  map (fun e => (fst e, originalUrl (snd e))) (linkDatabase (state reuse5)) =
    [("mov002", "u:b")] /\
  map (fun e => (fst e, originalUrl (snd e))) (linkDatabase (state reuse7)) =
    [("mov002", "u:c")].
Proof. vm_compute. repeat split. Qed.

(** C7 fails on the code: the three uploads of one batch all get the id
    [mov001], because [generateLinkId] counts the keys of
    [linkDatabase] only, which the route does not change; when the timer
    fires the three are admitted under one key and only the last one
    remains. *)
Theorem batch_upload_repeats_one_id :
  pendingIds (state batch1) = ["mov001"; "mov001"; "mov001"] /\
  map (fun u => originalUrl (upload_data u)) (pendingUploads (state batch1)) =
    ["u:a"; "u:b"; "u:c"] /\
  linkDatabase (state batch1) = [] /\
  refreshTimer (state batch1) = Some 0 /\
  timeouts (state batch1) = [mkTimeout 0 300000] /\
  map (fun e => (fst e, originalUrl (snd e))) (linkDatabase (state batch2)) =
    [("mov001", "u:c")].
Proof. vm_compute. repeat split. Qed.

(** ** Public tokens *)

(** C10: [encode] is not a function of the id alone: two calls on
    [mov001] with different random strings give different tokens.  In a
    run of the server this shows: the upload route answers with the
    token [bW92MDAxxyz] for the id [mov001]; when the timer fires the
    entry is published under the key [bW92MDAxabc], encoded afresh; both
    decode to [mov001], and they differ. *)
Theorem published_key_differs_from_upload_token :
  LinkEncoder.encode "mov001" "0.abcdef" <>
    LinkEncoder.encode "mov001" "0.xyz123" /\
  option_map responseIds (returned single1) = Some ["mov001"] /\
  option_map responseLinks (returned single1) =
    Some ["https://owner.github.io/repo/r/bW92MDAxxyz"] /\
  Obj.keys (linkDatabase (state single2)) = ["mov001"] /\
  map (@Obj.keys Published) (publishedMappings (events single2)) =
    [["bW92MDAxabc"]] /\
  LinkEncoder.decode "bW92MDAxxyz" = Return (Some "mov001") /\
  LinkEncoder.decode "bW92MDAxabc" = Return (Some "mov001") /\
  "bW92MDAxxyz" <> "bW92MDAxabc".
Proof.
  vm_compute. repeat split; discriminate.
Qed.

(** ** Objects *)

Section ObjFacts.

Context {V : Type}.
Implicit Types (o : Obj.t V) (k : string) (v : V).

Lemma get_of_key o k : In k (Obj.keys o) -> exists v, Obj.get k o = Some v.
Proof.
  induction o as [|[k' v'] o IH]; simpl; [tauto|].
  intros [->|H].
  - rewrite String.eqb_refl. eauto.
  - destruct (String.eqb k' k); eauto.
Qed.

Lemma key_of_get o k v : Obj.get k o = Some v -> In k (Obj.keys o).
Proof.
  induction o as [|[k' v'] o IH]; simpl; [discriminate|].
  destruct (String.eqb k' k) eqn:E.
  - apply String.eqb_eq in E. auto.
  - auto.
Qed.

Lemma keys_set_present o k v :
  In k (Obj.keys o) -> Obj.keys (Obj.set k v o) = Obj.keys o.
Proof.
  induction o as [|[k' v'] o IH]; simpl; [tauto|].
  intros H. destruct (String.eqb k' k) eqn:E; simpl.
  - apply String.eqb_eq in E. now subst.
  - f_equal. apply IH. destruct H as [H|H]; [|exact H].
    subst. rewrite String.eqb_refl in E. discriminate.
Qed.

Lemma get_set_same o k v : Obj.get k (Obj.set k v o) = Some v.
Proof.
  induction o as [|[k' v'] o IH]; simpl.
  - now rewrite String.eqb_refl.
  - destruct (String.eqb k' k) eqn:E; simpl.
    + now rewrite String.eqb_refl.
    + now rewrite E.
Qed.

Lemma get_set_other o k k' v :
  k' <> k -> Obj.get k' (Obj.set k v o) = Obj.get k' o.
Proof.
  intros N. induction o as [|[k0 v0] o IH]; simpl.
  - apply String.eqb_neq in N. rewrite String.eqb_sym in N. now rewrite N.
  - destruct (String.eqb k0 k) eqn:E; simpl.
    + apply String.eqb_eq in E. subst k0.
      apply String.eqb_neq in N. rewrite String.eqb_sym in N. now rewrite N.
    + now rewrite IH.
Qed.

Lemma get_delete_same o k : Obj.get k (Obj.delete k o) = None.
Proof.
  induction o as [|[k' v'] o IH]; simpl; [reflexivity|].
  destruct (String.eqb k' k) eqn:E; simpl; [exact IH|].
  now rewrite E.
Qed.

Lemma get_delete_none o k k' :
  Obj.get k o = None -> Obj.get k (Obj.delete k' o) = None.
Proof.
  induction o as [|[k0 v0] o IH]; simpl; [reflexivity|].
  destruct (String.eqb k0 k) eqn:E; [discriminate|].
  intros H. destruct (String.eqb k0 k'); simpl; [auto|].
  rewrite E. auto.
Qed.

Lemma in_keys_delete o k k' :
  In k' (Obj.keys (Obj.delete k o)) <-> In k' (Obj.keys o) /\ k' <> k.
Proof.
  induction o as [|[k0 v0] o IH]; simpl; [tauto|].
  destruct (String.eqb k0 k) eqn:E; simpl.
  - apply String.eqb_eq in E. subst k0. rewrite IH.
    split; [tauto|]. intros [[H|H] N]; [congruence|tauto].
  - apply String.eqb_neq in E. rewrite IH.
    split; [|tauto]. intros [H|H]; [|tauto]. subst. tauto.
Qed.


End ObjFacts.

(** ** Runs that return *)

Section RunsFacts.

Context {A B : Type}.

Lemma runs_ret (a : A) st w : runs (ret a) st w a st w.
Proof. repeat split. Qed.

Lemma runs_gets (f : State -> A) st w : runs (gets f) st w (f st) st w.
Proof. repeat split. Qed.

Lemma runs_bind (m : M A) (k : A -> M B) st w a st1 w1 b st2 w2 :
  runs m st w a st1 w1 -> runs (k a) st1 w1 b st2 w2 ->
  runs (bind m k) st w b st2 w2.
Proof.
  intros (Hc & Hs & Hw) H2. unfold runs.
  rewrite (bind_returns _ _ _ _ Hc). simpl. rewrite Hs, Hw. exact H2.
Qed.

Lemma runs_try_catch (m : M A) h st w a st1 w1 :
  runs m st w a st1 w1 -> runs (try_catch m h) st w a st1 w1.
Proof.
  intros (Hc & Hs & Hw). unfold runs, try_catch. rewrite Hc. auto.
Qed.

Lemma runs_try_finally (m : M A) f st w a st1 w1 st2 w2 :
  runs m st w a st1 w1 -> runs f st1 w1 tt st2 w2 ->
  runs (try_finally m f) st w a st2 w2.
Proof.
  intros (Hc & Hs & Hw) (Hc' & Hs' & Hw'). unfold runs, try_finally. simpl.
  rewrite Hs, Hw, Hc', Hs', Hw'. auto.
Qed.

Lemma runs_unique (m : M A) st w a st1 w1 a' st1' w1' :
  runs m st w a st1 w1 -> runs m st w a' st1' w1' ->
  a = a' /\ st1 = st1' /\ w1 = w1'.
Proof.
  intros (Hc & Hs & Hw) (Hc' & Hs' & Hw'). repeat split; congruence.
Qed.

(** A run that returns and does not touch the state. *)
Lemma runs_readonly (m : M A) st w :
  returns m -> preserves (fun s => s) m ->
  exists a, runs m st w a st (world (m st w)).
Proof.
  intros Hr Hp. destruct (Hr st w) as [a Ha]. exists a.
  repeat split; [exact Ha | apply Hp].
Qed.

End RunsFacts.

Lemma runs_modify g st w : runs (modify g) st w tt (g st) w.
Proof. repeat split. Qed.

Lemma runs_emit e st w : runs (emit e) st w tt st w.
Proof. repeat split. Qed.

Lemma runs_Date_now st w :
  runs Date_now st w (clock w (tick w)) st (advance w).
Proof. repeat split. Qed.

Lemma returns_Date_now : returns Date_now.
Proof. apply returns_external_return. Qed.

Lemma returns_Math_random : returns Math_random_toString36.
Proof. apply returns_external_return. Qed.

#[global] Hint Resolve returns_Date_now returns_Math_random : js.
#[global] Hint Unfold Date_now Math_random_toString36 axios_head
  ytdl_getInfo octokit_getContent octokit_createOrUpdateFileContents : js.

(** ** The collaborators never throw and never touch the module state *)

Lemma checkLink_returns url : returns (LinkHealthChecker.checkLink url).
Proof. intros st w. rewrite checkLink_run. eexists. reflexivity. Qed.

Lemma checkLink_preserves {X} (f : State -> X) url :
  preserves f (LinkHealthChecker.checkLink url).
Proof. intros st w. rewrite checkLink_run. reflexivity. Qed.

Lemma getVideoInfo_returns url : returns (YouTubeConverter.getVideoInfo url).
Proof.
  unfold YouTubeConverter.getVideoInfo. auto with js.
Qed.

Lemma getVideoInfo_preserves {X} (f : State -> X) url :
  preserves f (YouTubeConverter.getVideoInfo url).
Proof.
  unfold YouTubeConverter.getVideoInfo. autounfold with js. auto with js.
Qed.

(** The Resolution Client reports a failure in its result and never
    throws. *)
Lemma convertToStreamLink_returns url :
  returns (YouTubeConverter.convertToStreamLink url).
Proof.
  unfold YouTubeConverter.convertToStreamLink. auto with js.
Qed.

Lemma convertToStreamLink_preserves {X} (f : State -> X) url :
  preserves f (YouTubeConverter.convertToStreamLink url).
Proof.
  unfold YouTubeConverter.convertToStreamLink. autounfold with js.
  apply preserves_try_catch; [|auto with js].
  apply preserves_bind; [auto with js|].
  intros info. destruct (YouTubeConverter.bestFormat _); auto with js.
Qed.

(** The resolution is valid exactly when [ytdl.getInfo] returns and one
    of the formats has a URL and carries video; the stream URL of the
    result is then the URL of the chosen format. *)
Lemma convertToStreamLink_valid url st w s :
  completion (YouTubeConverter.convertToStreamLink url st w) = Return s ->
  (stream_isValid s = true <->
   exists info best,
     ytdl_info w (tick w) url = Return info /\
     YouTubeConverter.bestFormat (ytdl_filterFormats_video (formats info)) =
       Some best /\
     stream_streamUrl s = format_url best).
Proof.
  unfold YouTubeConverter.convertToStreamLink, try_catch, bind, ytdl_getInfo,
    external, Date_now, throw, ret, emit.
  cbn [completion state world events].
  destruct (ytdl_info w (tick w) url) as [info|e]; cbn [completion state world events].
  - destruct (YouTubeConverter.bestFormat _) as [best|] eqn:B;
      cbn [completion state world events].
    + intros [= <-]. cbn [stream_isValid stream_streamUrl]. split; [|reflexivity].
      intros _. exists info, best. auto.
    + intros [= <-]. cbn [stream_isValid]. split; [discriminate|].
      intros (info' & best & [= <-] & B' & _). congruence.
  - intros [= <-]. cbn [stream_isValid]. split; [discriminate|].
    intros (info' & best & E & _). discriminate.
Qed.

Lemma publishEntry_returns acc entry :
  returns (GitHubManager.publishEntry acc entry).
Proof.
  destruct entry. unfold GitHubManager.publishEntry. auto with js.
Qed.

Lemma publishEntry_preserves {X} (f : State -> X) acc entry :
  preserves f (GitHubManager.publishEntry acc entry).
Proof.
  destruct entry. unfold GitHubManager.publishEntry. autounfold with js.
  auto with js.
Qed.

(** A failed publication is logged and reported as [false]; it does not
    throw and does not undo the earlier phases. *)
Lemma updateLinksFile_returns : returns GitHubManager.updateLinksFile.
Proof.
  unfold GitHubManager.updateLinksFile. auto with js.
Qed.

Lemma updateLinksFile_preserves {X} (f : State -> X) :
  preserves f GitHubManager.updateLinksFile.
Proof.
  unfold GitHubManager.updateLinksFile. autounfold with js.
  pose proof (@publishEntry_preserves X f). auto 8 with js.
Qed.

Lemma sendBrokenLinksLog_returns bl :
  returns (LogCollector.sendBrokenLinksLog bl).
Proof.
  unfold LogCollector.sendBrokenLinksLog.
  destruct (List.length bl =? 0)%nat; auto with js.
Qed.

Lemma sendBrokenLinksLog_preserves {X} (f : State -> X) bl :
  preserves f (LogCollector.sendBrokenLinksLog bl).
Proof.
  unfold LogCollector.sendBrokenLinksLog. autounfold with js.
  destruct (List.length bl =? 0)%nat; auto with js.
Qed.

Lemma generateRefreshLog_returns r :
  returns (LogCollector.generateRefreshLog r).
Proof. unfold LogCollector.generateRefreshLog. auto with js. Qed.

Lemma generateRefreshLog_preserves {X} (f : State -> X) r :
  preserves f (LogCollector.generateRefreshLog r).
Proof.
  unfold LogCollector.generateRefreshLog. autounfold with js. auto with js.
Qed.

#[global] Hint Resolve checkLink_returns checkLink_preserves
  getVideoInfo_returns getVideoInfo_preserves
  convertToStreamLink_returns convertToStreamLink_preserves
  publishEntry_returns publishEntry_preserves
  updateLinksFile_returns updateLinksFile_preserves
  sendBrokenLinksLog_returns sendBrokenLinksLog_preserves
  generateRefreshLog_returns generateRefreshLog_preserves : js.

(** ** The health phase *)

Lemma checkEntry_run bl rs id d st w :
  exists rs' reason,
    runs (LinkHealthChecker.checkEntry (bl, rs) (id, d)) st w
      (if verdict d st w then bl else bl ++ [LinkHealthChecker.brokenLink id d reason], rs')
      st (worldAfter [(id, d)] st w).
Proof.
  unfold worldAfter. cbn [for_of_with].
  unfold verdict, noResults, LinkHealthChecker.checkEntry, LinkHealthChecker.noStreamUrl.
  destruct (streamUrl d) as [url|].
  2:{ do 2 eexists. apply runs_ret. }
  destruct (Js.truthy_string url); cbn [negb andb].
  2:{ do 2 eexists. apply runs_ret. }
  unfold runs, returned, bind, Date_now, external, ret.
  rewrite !checkLink_run. cbn [completion state world events].
  match goal with |- context [isActive ?h] => destruct (isActive h) end;
    cbn [completion state world events]; do 2 eexists; repeat split.
  Unshelve. all: exact "".
Qed.

Lemma checkLoop_runs entries : forall acc st w,
  exists acc',
    runs (for_of_with entries acc LinkHealthChecker.checkEntry) st w acc' st
      (worldAfter entries st w).
Proof.
  induction entries as [|[id d] entries IH]; intros [bl rs] st w.
  - eexists. apply runs_ret.
  - destruct (checkEntry_run bl rs id d st w) as (rs1 & reason & H1).
    destruct (checkEntry_run [] (mkResults 0 0 0 [] None) id d st w)
      as (rs0 & reason0 & H0).
    match type of H1 with runs _ _ _ ?a _ ?w1 =>
      destruct (IH a st w1) as (acc' & H2) end.
    match type of H0 with runs _ _ _ ?a _ ?w1 =>
      destruct (IH a st w1) as (acc0 & H3) end.
    exists acc'.
    pose proof (runs_bind (fun a => for_of_with entries a LinkHealthChecker.checkEntry) H0 H3)
      as (_ & _ & Hw).
    replace (worldAfter ((id, d) :: entries) st w)
      with (worldAfter entries st (worldAfter [(id, d)] st w))
      by (symmetry; exact Hw).
    exact (runs_bind (fun a => for_of_with entries a LinkHealthChecker.checkEntry) H1 H2).
Qed.

Lemma worldAfter_cons id d pre st w :
  worldAfter ((id, d) :: pre) st w = worldAfter pre st (worldAfter [(id, d)] st w).
Proof.
  destruct (checkEntry_run [] (mkResults 0 0 0 [] None) id d st w)
    as (rs0 & reason0 & H0).
  match type of H0 with runs _ _ _ ?a _ ?w1 =>
    destruct (checkLoop_runs pre a st w1) as (acc0 & H3) end.
  pose proof (runs_bind (fun a => for_of_with pre a LinkHealthChecker.checkEntry) H0 H3)
    as (_ & _ & Hw).
  exact Hw.
Qed.

Lemma checkLoop_broken entries : forall bl rs st w,
  exists bl' rs',
    runs (for_of_with entries (bl, rs) LinkHealthChecker.checkEntry) st w (bl ++ bl', rs') st
      (worldAfter entries st w) /\
    forall id,
      In id (map broken_id bl') <->
      exists pre d suf,
        entries = pre ++ (id, d) :: suf /\
        verdict d st (worldAfter pre st w) = false.
Proof.
  induction entries as [|[id0 d0] entries IH]; intros bl rs st w.
  - exists [], rs. split.
    + rewrite app_nil_r. apply runs_ret.
    + intros id. split; [intros []|].
      intros (pre & d & suf & E & _). destruct pre; discriminate.
  - destruct (checkEntry_run bl rs id0 d0 st w) as (rs1 & reason & H1).
    match type of H1 with runs _ _ _ (?b, _) _ ?w1 =>
      destruct (IH b rs1 st w1) as (bl2 & rs2 & H2 & Hin) end.
    exists ((if verdict d0 st w then [] else [LinkHealthChecker.brokenLink id0 d0 reason]) ++ bl2),
      rs2.
    split.
    + rewrite worldAfter_cons.
      replace (bl ++ (if verdict d0 st w then [] else [LinkHealthChecker.brokenLink id0 d0 reason]) ++ bl2)
        with ((if verdict d0 st w then bl else bl ++ [LinkHealthChecker.brokenLink id0 d0 reason]) ++ bl2)
        by (destruct (verdict d0 st w); [reflexivity | now rewrite <- app_assoc]).
      exact (runs_bind (fun a => for_of_with entries a LinkHealthChecker.checkEntry) H1 H2).
    + intros id. rewrite map_app, in_app_iff, Hin. split.
      * intros [H|(pre & d & suf & E & Hv)].
        -- destruct (verdict d0 st w) eqn:V; [destruct H|].
           destruct H as [H|[]]. cbn in H. subst id0.
           exists [], d0, entries. auto.
        -- exists ((id0, d0) :: pre), d, suf. split; [now rewrite E|].
           now rewrite worldAfter_cons.
      * intros (pre & d & suf & E & Hv). destruct pre as [|[id1 d1] pre].
        -- injection E as -> -> ->. left.
           change (worldAfter [] st w) with w in Hv. rewrite Hv. now left.
        -- injection E as -> -> ->. right. exists pre, d, suf. split; [reflexivity|].
           now rewrite <- worldAfter_cons.
Qed.

Lemma set_set_same {V} (o : Obj.t V) k v v' :
  Obj.set k v' (Obj.set k v o) = Obj.set k v' o.
Proof.
  induction o as [|[k0 v0] o IH]; simpl.
  - now rewrite String.eqb_refl.
  - destruct (String.eqb k0 k) eqn:E; simpl.
    + now rewrite String.eqb_refl.
    + now rewrite E, IH.
Qed.

(** ** The registry holds each key once *)

Lemma keys_set_absent {V} (o : Obj.t V) k v :
  ~ In k (Obj.keys o) -> Obj.keys (Obj.set k v o) = Obj.keys o ++ [k].
Proof.
  induction o as [|[k' v'] o IH]; simpl; [reflexivity|].
  intros N. destruct (String.eqb k' k) eqn:E.
  - apply String.eqb_eq in E. tauto.
  - simpl. f_equal. apply IH. tauto.
Qed.

Lemma wf_set {V} (o : Obj.t V) k v : Obj.wf o -> Obj.wf (Obj.set k v o).
Proof.
  unfold Obj.wf. intros H.
  destruct (in_dec string_dec k (Obj.keys o)) as [I|N].
  - now rewrite keys_set_present.
  - rewrite keys_set_absent by exact N.
    apply NoDup_app; [exact H | repeat constructor; intros [] |].
    intros x Hx [<-|[]]. tauto.
Qed.

Lemma wf_delete {V} (o : Obj.t V) k : Obj.wf o -> Obj.wf (Obj.delete k o).
Proof.
  unfold Obj.wf, Obj.keys. induction o as [|[k' v'] o IH]; simpl; [auto|].
  intros H. inversion H as [|? ? Hn Hd]; subst.
  destruct (String.eqb k' k); [auto|].
  simpl. constructor; [|auto].
  intros I. apply Hn. apply (in_keys_delete o k k'). exact I.
Qed.

Lemma wf_prune ids : forall db, Obj.wf db -> Obj.wf (prune ids db).
Proof.
  unfold prune. induction ids as [|id ids IH]; intros db H; simpl; [exact H|].
  apply IH, wf_delete, H.
Qed.

(** ** The prune phase *)

Lemma set_linkDatabase_same st : set_linkDatabase (linkDatabase st) st = st.
Proof. destruct st. reflexivity. Qed.

Lemma linkDatabase_set db st : linkDatabase (set_linkDatabase db st) = db.
Proof. reflexivity. Qed.

Lemma set_linkDatabase_twice db db' st :
  set_linkDatabase db (set_linkDatabase db' st) = set_linkDatabase db st.
Proof. reflexivity. Qed.

Lemma get_none_of_key {V} (o : Obj.t V) k :
  ~ In k (Obj.keys o) -> Obj.get k o = None.
Proof.
  intros N. destruct (Obj.get k o) eqn:E; [|reflexivity].
  exfalso. apply N. eapply key_of_get. exact E.
Qed.

Lemma in_keys_prune ids : forall db k,
  In k (Obj.keys (prune ids db)) <-> In k (Obj.keys db) /\ ~ In k ids.
Proof.
  unfold prune. induction ids as [|id ids IH]; intros db k; simpl.
  - tauto.
  - rewrite IH, in_keys_delete. intuition congruence.
Qed.

Lemma removeBrokenLinks_runs bl : forall st w,
  runs (removeBrokenLinks bl) st w tt
    (set_linkDatabase (prune (map broken_id bl) (linkDatabase st)) st) w.
Proof.
  unfold removeBrokenLinks, prune.
  induction bl as [|l bl IH]; intros st w; simpl for_of.
  - simpl. rewrite set_linkDatabase_same. apply runs_ret.
  - eapply runs_bind; [apply runs_modify|].
    exact (IH (set_linkDatabase
                 (Obj.delete (broken_id l) (linkDatabase st)) st) w).
Qed.

Lemma prunePhase_runs bl st w :
  exists w',
    runs (if (0 <? List.length bl)%nat then
            bind (LogCollector.sendBrokenLinksLog bl)
              (fun _ => removeBrokenLinks bl)
          else ret tt)
      st w tt
      (set_linkDatabase (prune (map broken_id bl) (linkDatabase st)) st) w'.
Proof.
  destruct bl as [|l bl].
  - exists w. simpl. rewrite set_linkDatabase_same. apply runs_ret.
  - destruct (runs_readonly st w (sendBrokenLinksLog_returns (l :: bl))
                (sendBrokenLinksLog_preserves _ (l :: bl))) as ([] & H).
    eexists. cbn [List.length Nat.ltb Nat.leb].
    eapply runs_bind; [exact H|]. apply removeBrokenLinks_runs.
Qed.

(** ** The re-resolution phase *)

Lemma assign_entry_runs id f d st w :
  Obj.get id (linkDatabase st) = Some d ->
  runs (assign_entry id f) st w tt
    (set_linkDatabase (Obj.set id (f d) (linkDatabase st)) st) w.
Proof.
  intros H. unfold assign_entry.
  eapply runs_bind; [apply runs_gets|]. cbv beta. rewrite H. apply runs_modify.
Qed.

(** One turn of the loop, for an entry whose key is in the registry. *)
Lemma refreshEntry_runs id d d0 st w :
  Obj.get id (linkDatabase st) = Some d0 ->
  exists s,
    runs (YouTubeConverter.convertToStreamLink (originalUrl d)) st w s st
      (world (YouTubeConverter.convertToStreamLink (originalUrl d) st w)) /\
    let w1 := world (YouTubeConverter.convertToStreamLink (originalUrl d) st w) in
    exists w',
      runs (refreshEntry (id, d)) st w tt
        (if Js.truthy_string (originalUrl d) && stream_isValid s then
           set_linkDatabase
             (Obj.set id (refreshed d0 s (clock w1 (tick w1))) (linkDatabase st))
             st
         else st) w'.
Proof.
  intros H.
  destruct (runs_readonly st w (convertToStreamLink_returns (originalUrl d))
              (convertToStreamLink_preserves _ (originalUrl d))) as (s & Hs).
  exists s. split; [exact Hs|]. cbv zeta. unfold refreshEntry.
  destruct (Js.truthy_string (originalUrl d)); cbn [andb].
  2:{ eexists. apply runs_ret. }
  destruct (stream_isValid s) eqn:V.
  2:{ eexists. eapply runs_bind; [exact Hs|]. cbv beta. rewrite V. apply runs_ret. }
  eexists. eapply runs_bind; [exact Hs|]. cbv beta. rewrite V.
  eapply runs_bind; [eapply assign_entry_runs; exact H|].
  eapply runs_bind; [apply runs_Date_now|].
  match goal with |- runs (assign_entry _ ?f) ?st1 ?w2 _ _ _ =>
    pose proof (@assign_entry_runs id f
                  (with_streamUrl (stream_streamUrl s) d0) st1 w2) as H2
  end.
  rewrite linkDatabase_set, set_set_same in H2.
  apply H2. apply get_set_same.
Qed.



Lemma refreshLoop_runs xs : forall st w,
  (forall id d, In (id, d) xs -> In id (Obj.keys (linkDatabase st))) ->
  exists db' w',
    runs (for_of xs refreshEntry) st w tt (set_linkDatabase db' st) w' /\
    Obj.keys db' = Obj.keys (linkDatabase st) /\
    forall k, ~ In k (map fst xs) -> Obj.get k db' = Obj.get k (linkDatabase st).
Proof.
  induction xs as [|[id d] xs IH]; intros st w Hk.
  - exists (linkDatabase st), w. rewrite set_linkDatabase_same.
    split; [apply runs_ret|]. auto.
  - destruct (@get_of_key _ (linkDatabase st) id) as [d0 Hd0];
      [apply (Hk id d); now left|].
    destruct (@refreshEntry_runs id d d0 st w Hd0) as (s & _ & w1 & H1).
    cbv zeta in H1.
    set (now := clock _ _) in H1.
    set (st1 := if Js.truthy_string (originalUrl d) && stream_isValid s
                then set_linkDatabase
                       (Obj.set id (refreshed d0 s now) (linkDatabase st)) st
                else st) in H1.
    assert (E1 : st1 = set_linkDatabase (linkDatabase st1) st).
    { subst st1. destruct (_ && _); [reflexivity|].
      now rewrite set_linkDatabase_same. }
    assert (K1 : Obj.keys (linkDatabase st1) = Obj.keys (linkDatabase st)).
    { subst st1. destruct (_ && _); [|reflexivity].
      rewrite linkDatabase_set. apply keys_set_present.
      eapply key_of_get; eauto. }
    assert (G1 : forall k, k <> id ->
                 Obj.get k (linkDatabase st1) = Obj.get k (linkDatabase st)).
    { intros k N. subst st1. destruct (_ && _); [|reflexivity].
      rewrite linkDatabase_set. now apply get_set_other. }
    destruct (IH st1 w1) as (db' & w' & H2 & K2 & G2).
    { intros id' d' Hin. rewrite K1. apply (Hk id' d'). now right. }
    exists db', w'. split; [|split].
    + simpl for_of. eapply runs_bind; [exact H1|].
      rewrite E1 in H2 at 2. exact H2.
    + congruence.
    + intros k N. simpl in N. rewrite G2, G1; auto.
Qed.



(** ** The whole cycle *)

Lemma refreshActiveLinks_runs st w :
  exists db' w',
    runs refreshActiveLinks st w tt (set_linkDatabase db' st) w' /\
    Obj.keys db' = Obj.keys (linkDatabase st).
Proof.
  destruct (@refreshLoop_runs (Obj.entries (linkDatabase st)) st w)
    as (db' & w' & R & K & _).
  { intros id d H. apply (in_map fst) in H. exact H. }
  exists db', w'. split; [|exact K].
  unfold refreshActiveLinks. eapply runs_bind; [apply runs_gets|]. exact R.
Qed.

Lemma refreshBody_runs startTime st w :
  exists st' w',
    runs (refreshBody startTime) st w tt st' w' /\
    isRefreshing st' = isRefreshing st /\
    (Obj.wf (linkDatabase st) -> Obj.wf (linkDatabase st')) /\
    forall id,
      In id (Obj.keys (linkDatabase st')) <->
      In id (Obj.keys (linkDatabase st)) /\
      ~ exists pre d suf,
          linkDatabase st = pre ++ (id, d) :: suf /\
          verdict d st (worldAfter pre st w) = false.
Proof.
  destruct (checkLoop_broken (Obj.entries (linkDatabase st)) []
              (mkResults 0 0 0 [] None) st w) as (bl & rs & R1 & Hbl).
  cbn [List.app] in R1.
  destruct (prunePhase_runs bl st (worldAfter (Obj.entries (linkDatabase st)) st w))
    as (w2 & R2).
  set (st2 := set_linkDatabase (prune (map broken_id bl) (linkDatabase st)) st) in *.
  destruct (refreshActiveLinks_runs st2 w2) as (db3 & w3 & R3 & K3).
  set (st3 := set_linkDatabase db3 st2) in *.
  destruct (runs_readonly st3 w3 updateLinksFile_returns
              (updateLinksFile_preserves _)) as (ok & R4).
  set (w4 := world (GitHubManager.updateLinksFile st3 w3)) in *.
  destruct (runs_readonly st3 (advance w4)
              (generateRefreshLog_returns
                 (with_duration (clock w4 (tick w4) - startTime) rs))
              (generateRefreshLog_preserves _ _)) as ([] & R5).
  exists st3. eexists. split; [|split; [|split]].
  - unfold refreshBody.
    eapply runs_bind.
    { unfold LinkHealthChecker.checkAllLinks.
      eapply runs_bind; [apply runs_gets|]. exact R1. }
    cbv beta iota.
    eapply runs_bind; [exact R2|].
    eapply runs_bind; [exact R3|].
    eapply runs_bind; [exact R4|].
    eapply runs_bind; [apply runs_Date_now|].
    exact R5.
  - reflexivity.
  - intros Hwf. unfold Obj.wf. subst st3 st2.
    rewrite linkDatabase_set, K3, linkDatabase_set. now apply wf_prune.
  - intros id. subst st3 st2. rewrite !linkDatabase_set, K3, linkDatabase_set.
    rewrite in_keys_prune, Hbl. reflexivity.
Qed.

Lemma probeAfter_eq pre url st w :
  probeAfter pre url st w =
  LinkHealthChecker.checkLink url st (worldAfter pre st w).
Proof.
  unfold probeAfter, worldAfter.
  destruct (checkLoop_runs pre noResults st w) as (acc & _ & -> & _).
  reflexivity.
Qed.

Lemma verdict_true pre d st w :
  verdict d st (worldAfter pre st w) = true <-> passesHealthCheck pre d st w.
Proof.
  unfold verdict, passesHealthCheck, returned. split.
  - destruct (streamUrl d) as [url|]; [|discriminate].
    intros H. apply andb_prop in H. destruct H as [Ht Ha].
    rewrite <- probeAfter_eq in Ha.
    destruct (completion (probeAfter pre url st w)) as [h|e] eqn:E;
      [|discriminate].
    exists url, h. auto.
  - intros (url & h & -> & Ht & Hc & Ha).
    rewrite <- probeAfter_eq, Hc, Ht, Ha. reflexivity.
Qed.

Lemma verdict_false pre d st w :
  failsHealthCheck pre d st w -> verdict d st (worldAfter pre st w) = false.
Proof.
  unfold verdict, failsHealthCheck, returned, Js.truthy.
  intros [H|(url & h & -> & Hc & Ha)].
  - destruct (streamUrl d); [|reflexivity]. now rewrite H.
  - rewrite <- probeAfter_eq, Hc, Ha. apply andb_false_r.
Qed.

(** ** The frame of the cycle: it changes [linkDatabase] and
    [isRefreshing] and nothing else *)

Section CycleFrame.

Context {X : Type} (f : State -> X).
Hypothesis f_linkDatabase : forall db st, f (set_linkDatabase db st) = f st.
Hypothesis f_isRefreshing : forall b st, f (set_isRefreshing b st) = f st.

Lemma preserves_try_finally {A} (m : M A) (fin : M unit) :
  preserves f m -> preserves f fin -> preserves f (try_finally m fin).
Proof.
  intros Hm Hf st w. unfold try_finally. cbn [state].
  rewrite Hf. apply Hm.
Qed.

Lemma checkEntry_preserves acc entry :
  preserves f (LinkHealthChecker.checkEntry acc entry).
Proof.
  destruct acc as [bl rs], entry as [id d].
  unfold LinkHealthChecker.checkEntry, LinkHealthChecker.noStreamUrl.
  autounfold with js.
  destruct (streamUrl d) as [url|]; [|auto with js].
  destruct (negb (Js.truthy_string url)); [auto with js|].
  apply preserves_bind; [auto with js|].
  intros h. destruct (isActive h); auto with js.
Qed.

Lemma checkAllLinks_preserves : preserves f LinkHealthChecker.checkAllLinks.
Proof.
  unfold LinkHealthChecker.checkAllLinks.
  pose proof checkEntry_preserves. auto with js.
Qed.

Lemma assign_entry_preserves id g : preserves f (assign_entry id g).
Proof.
  unfold assign_entry. apply preserves_bind; [auto with js|].
  intros db. destruct (Obj.get id db); [|auto with js].
  apply preserves_modify. intros st. apply f_linkDatabase.
Qed.

Lemma refreshEntry_preserves entry : preserves f (refreshEntry entry).
Proof.
  destruct entry as [id d]. unfold refreshEntry. autounfold with js.
  pose proof assign_entry_preserves.
  destruct (Js.truthy_string (originalUrl d)); [|auto with js].
  apply preserves_bind; [auto with js|].
  intros s. destruct (stream_isValid s); auto with js.
Qed.

Lemma removeBrokenLinks_preserves bl : preserves f (removeBrokenLinks bl).
Proof.
  unfold removeBrokenLinks. apply preserves_for_of. intros l.
  apply preserves_modify. intros st. apply f_linkDatabase.
Qed.

Lemma refreshBody_preserves startTime : preserves f (refreshBody startTime).
Proof.
  unfold refreshBody, refreshActiveLinks. autounfold with js.
  pose proof checkAllLinks_preserves. pose proof refreshEntry_preserves.
  pose proof removeBrokenLinks_preserves.
  apply preserves_bind; [assumption|].
  intros [bl rs]. apply preserves_bind.
  - destruct (0 <? List.length bl)%nat; auto with js.
  - auto 7 with js.
Qed.

(** Whatever the guard says, a call of [refreshAllLinks] leaves the
    pending uploads, the timer and the configuration as they were. *)
Lemma refreshAllLinks_preserves : preserves f refreshAllLinks.
Proof.
  unfold refreshAllLinks. autounfold with js.
  pose proof refreshBody_preserves.
  apply preserves_bind; [auto with js|].
  intros [|]; [auto with js|].
  apply preserves_bind; [now apply preserves_modify|]. intros _.
  apply preserves_bind; [auto with js|]. intros startTime.
  apply preserves_bind; [auto with js|]. intros _.
  apply preserves_try_finally; [auto with js|].
  now apply preserves_modify.
Qed.

End CycleFrame.

Lemma refreshAllLinks_preserves_pending st w :
  pendingUploads (state (refreshAllLinks st w)) = pendingUploads st.
Proof. now apply (refreshAllLinks_preserves pendingUploads). Qed.

(** The cycle around its [try] block, when no other cycle is running. *)
Lemma refreshAllLinks_runs st w st' w' :
  isRefreshing st = false ->
  runs (refreshBody (clock w (tick w))) (set_isRefreshing true st) (advance w)
    tt st' w' ->
  runs refreshAllLinks st w tt (set_isRefreshing false st') w'.
Proof.
  intros Hg R. unfold refreshAllLinks.
  eapply runs_bind; [apply runs_gets|]. cbv beta. rewrite Hg.
  eapply runs_bind; [apply runs_modify|].
  eapply runs_bind; [apply runs_Date_now|].
  eapply runs_bind; [apply runs_emit|].
  eapply runs_try_finally; [|apply runs_modify].
  apply runs_try_catch. exact R.
Qed.

(** The cycle returns and keeps the registry well formed, whether it
    runs or is skipped. *)
Lemma refreshAllLinks_keeps_wf st w :
  Obj.wf (linkDatabase st) ->
  completion (refreshAllLinks st w) = Return tt /\
  Obj.wf (linkDatabase (state (refreshAllLinks st w))) /\
  (isRefreshing st = false ->
   isRefreshing (state (refreshAllLinks st w)) = false).
Proof.
  intros Hwf. destruct (isRefreshing st) eqn:Hg.
  - rewrite (refresh_skipped st w Hg). repeat split; [exact Hwf|discriminate].
  - destruct (refreshBody_runs (clock w (tick w)) (set_isRefreshing true st)
                (advance w)) as (st' & w' & R & _ & Hw & _).
    destruct (refreshAllLinks_runs Hg R) as (Rc & Rs & _). rewrite Rc, Rs.
    repeat split. apply Hw. exact Hwf.
Qed.

(** Admitting the pending uploads keeps the registry well formed, and
    so does the timer callback as a whole. *)
Lemma batchTimerCallback_keeps_wf st w :
  Obj.wf (linkDatabase st) ->
  completion (batchTimerCallback st w) = Return tt /\
  Obj.wf (linkDatabase (state (batchTimerCallback st w))) /\
  pendingUploads (state (batchTimerCallback st w)) = [] /\
  (isRefreshing st = false ->
   isRefreshing (state (batchTimerCallback st w)) = false).
Proof.
  intros Hwf. unfold batchTimerCallback.
  destruct (pendingUploads st) as [|u us] eqn:E.
  - unfold bind, gets. cbn [completion state world events].
    rewrite E. cbn. auto.
  - assert (A : forall ups st0, Obj.wf (linkDatabase st0) ->
                exists st1,
                  runs (for_of ups (fun upload =>
                          modify (fun s =>
                            set_linkDatabase
                              (Obj.set (upload_id upload) (upload_data upload)
                                 (linkDatabase s)) s))) st0 w tt st1 w /\
                  Obj.wf (linkDatabase st1) /\
                  pendingUploads st1 = pendingUploads st0 /\
                  isRefreshing st1 = isRefreshing st0).
    { induction ups as [|x ups IH]; intros st0 H0.
      - exists st0. split; [apply runs_ret|]. auto.
      - destruct (IH (set_linkDatabase
                        (Obj.set (upload_id x) (upload_data x)
                           (linkDatabase st0)) st0))
          as (st1 & R1 & W1 & P1 & G1).
        { apply wf_set, H0. }
        exists st1. split; [|auto].
        simpl for_of. eapply runs_bind; [apply runs_modify|]. exact R1. }
    destruct (A (u :: us) (set_pendingUploads [] st) Hwf)
      as (st1 & R1 & W1 & P1 & G1).
    destruct (refreshAllLinks_keeps_wf st1 w W1) as (Rc & Rw & Rg).
    assert (Rp : pendingUploads (state (refreshAllLinks st1 w)) = []).
    { rewrite (refreshAllLinks_preserves_pending st1 w). exact P1. }
    assert (R : runs (bind (gets pendingUploads) (fun pending =>
                  if (0 <? List.length pending)%nat then
                    bind (emit (Log (ProcessingPending (List.length pending))))
                      (fun _ =>
                       bind (modify (set_pendingUploads []))
                         (fun _ =>
                          bind (for_of pending (fun upload =>
                                  modify (fun s =>
                                    set_linkDatabase
                                      (Obj.set (upload_id upload)
                                         (upload_data upload)
                                         (linkDatabase s)) s)))
                            (fun _ => refreshAllLinks)))
                  else ret tt)) st w tt
                (state (refreshAllLinks st1 w)) (world (refreshAllLinks st1 w))).
    { eapply runs_bind; [apply runs_gets|]. cbv beta. rewrite E.
      cbn [List.length Nat.ltb Nat.leb].
      eapply runs_bind; [apply runs_emit|].
      eapply runs_bind; [apply runs_modify|].
      eapply runs_bind; [exact R1|].
      repeat split. exact Rc. }
    destruct R as (Rc' & Rs' & _). rewrite Rc', Rs'.
    repeat split; auto. intros Hg. apply Rg. rewrite G1. exact Hg.
Qed.

(** ** The re-resolution phase at a concrete registry *)



(** On that registry the cycle keeps [mov001], whose probe answers 200,
    and removes [mov002], whose probe answers 404, and [mov003], which
    has no stream URL. *)
Example cycle_on_demoState :
  Obj.keys (linkDatabase (state (refreshAllLinks demoState (demoWorld 0)))) =
  ["mov001"].
Proof. vm_compute. reflexivity. Qed.

(** ** The upload route on any registry *)

Lemma uploadOne_runs results url st w :
  exists results' data w',
    runs (uploadOne results url) st w results'
      (set_pendingUploads
         (pendingUploads st ++
            [mkUpload (nextLinkId "mov" (linkDatabase st)) data]) st) w' /\
    map result_linkId results' =
      map result_linkId results ++ [nextLinkId "mov" (linkDatabase st)] /\
    originalUrl data = url.
Proof.
  destruct (runs_readonly st w (getVideoInfo_returns url)
              (getVideoInfo_preserves _ url)) as (vi & R1).
  set (w1 := world (YouTubeConverter.getVideoInfo url st w)) in *.
  destruct (runs_readonly st w1 (convertToStreamLink_returns url)
              (convertToStreamLink_preserves _ url)) as (sd & R2).
  set (w2 := world (YouTubeConverter.convertToStreamLink url st w1)) in *.
  do 3 eexists. split; [|split].
  - unfold uploadOne.
    eapply runs_bind; [exact R1|].
    eapply runs_bind; [exact R2|].
    eapply runs_bind; [apply runs_gets|].
    eapply runs_bind; [repeat split|].
    eapply runs_bind; [apply runs_Date_now|].
    eapply runs_bind; [apply runs_Date_now|].
    eapply runs_bind; [apply runs_modify|].
    eapply runs_bind; [apply runs_gets|].
    apply runs_ret.
  - rewrite map_app. reflexivity.
  - reflexivity.
Qed.

Lemma uploadLoop_runs urls : forall results st w,
  exists results' added w',
    runs (for_of_with urls results uploadOne) st w results'
      (set_pendingUploads (pendingUploads st ++ added) st) w' /\
    map result_linkId results' =
      map result_linkId results ++
      repeat (nextLinkId "mov" (linkDatabase st)) (List.length urls) /\
    map upload_id added =
      repeat (nextLinkId "mov" (linkDatabase st)) (List.length urls) /\
    map (fun u => originalUrl (upload_data u)) added = urls.
Proof.
  induction urls as [|url urls IH]; intros results st w.
  - exists results, [], w. rewrite !app_nil_r.
    replace (set_pendingUploads (pendingUploads st) st) with st
      by (destruct st; reflexivity).
    repeat split.
  - destruct (uploadOne_runs results url st w)
      as (results1 & data & w1 & R1 & E1 & U1).
    set (st1 := set_pendingUploads _ st) in R1.
    destruct (IH results1 st1 w1) as (results' & added & w' & R2 & E2 & A2 & O2).
    exists results', (mkUpload (nextLinkId "mov" (linkDatabase st)) data :: added), w'.
    split; [|split; [|split]].
    + simpl for_of_with. eapply runs_bind; [exact R1|].
      subst st1.
      replace (pendingUploads st ++ _ :: added)
        with ((pendingUploads st ++
                 [mkUpload (nextLinkId "mov" (linkDatabase st)) data]) ++ added)
        by (now rewrite <- app_assoc).
      exact R2.
    + rewrite E2, E1, <- app_assoc. reflexivity.
    + simpl. now rewrite A2.
    + simpl. now rewrite O2, U1.
Qed.

Lemma scheduleBatchUpload_runs st w :
  exists st',
    runs scheduleBatchUpload st w tt st' w /\
    pendingUploads st' = pendingUploads st /\
    linkDatabase st' = linkDatabase st /\
    isRefreshing st' = isRefreshing st /\
    refreshTimer st' = Some (nextHandle st) /\
    exists others,
      timeouts st' =
        others ++ [mkTimeout (nextHandle st)
                     (BATCH_WINDOW_MINUTES (CONFIG st) * 60 * 1000)].
Proof.
  unfold scheduleBatchUpload.
  destruct (refreshTimer st) as [h|] eqn:E.
  - eexists. split.
    + eapply runs_bind; [apply runs_gets|]. cbv beta. rewrite E.
      eapply runs_bind; [apply runs_modify|].
      eapply runs_bind; [apply runs_gets|].
      eapply runs_bind.
      { unfold setTimeout. eapply runs_bind; [apply runs_gets|].
        eapply runs_bind; [apply runs_modify|]. apply runs_ret. }
      apply runs_modify.
    + cbn. repeat split. eexists. reflexivity.
  - eexists. split.
    + eapply runs_bind; [apply runs_gets|]. cbv beta. rewrite E.
      eapply runs_bind; [apply runs_ret|].
      eapply runs_bind; [apply runs_gets|].
      eapply runs_bind.
      { unfold setTimeout. eapply runs_bind; [apply runs_gets|].
        eapply runs_bind; [apply runs_modify|]. apply runs_ret. }
      apply runs_modify.
    + cbn. repeat split. eexists. reflexivity.
Qed.

(** Whatever the registry and the world, the uploads of one accepted
    batch that no other handler interrupts all get the id that
    [generateLinkId] gives at the start, the registry is not touched,
    and the timer is armed. *)
Lemma upload_batch_shares_one_id : forall st w urls,
  let r := uploadRoute (mkUploadBody (Some urls) (Some (API_PASSWORD (CONFIG st)))) st w in
  exists resp,
    completion r = Return resp /\ code resp = 200%Z /\
    responseIds resp =
      repeat (nextLinkId "mov" (linkDatabase st)) (List.length urls) /\
    pendingIds (state r) =
      pendingIds st ++
      repeat (nextLinkId "mov" (linkDatabase st)) (List.length urls) /\
    linkDatabase (state r) = linkDatabase st /\
    refreshTimer (state r) = Some (nextHandle st).
Proof.
  intros st w urls r.
  destruct (uploadLoop_runs urls [] st w)
    as (results & added & w1 & R1 & E1 & A1 & _).
  set (st1 := set_pendingUploads (pendingUploads st ++ added) st) in R1.
  destruct (scheduleBatchUpload_runs st1 w1)
    as (st2 & R2 & P2 & D2 & _ & T2 & _).
  assert (R :
    runs (uploadRoute (mkUploadBody (Some urls) (Some (API_PASSWORD (CONFIG st)))))
      st w
      (mkResponse 200
         (UploadOk results
            (Js.String_of_nat (List.length results) ++
             " links processed. Refresh will happen in " ++
             Js.String_of_Z (BATCH_WINDOW_MINUTES (CONFIG st)) ++ " minutes.")%string))
      st2 w1).
  { unfold uploadRoute. apply runs_try_catch.
    eapply runs_bind; [apply runs_gets|]. cbv beta.
    cbn [password links]. rewrite String.eqb_refl. cbn [negb].
    eapply runs_bind; [exact R1|].
    eapply runs_bind; [exact R2|].
    apply runs_ret. }
  destruct R as (Rc & Rs & _).
  subst r. rewrite Rc, Rs. eexists. split; [reflexivity|].
  split; [reflexivity|]. split; [exact E1|].
  split; [|split; [exact D2 | exact T2]].
  unfold pendingIds. rewrite P2. subst st1. cbn [pendingUploads set_pendingUploads].
  now rewrite map_app, A1.
Qed.

(** ** The invariant of the server *)

Section UploadFrame.

Context {X : Type} (f : State -> X).
Hypothesis f_pendingUploads : forall v st, f (set_pendingUploads v st) = f st.
Hypothesis f_refreshTimer : forall v st, f (set_refreshTimer v st) = f st.
Hypothesis f_timeouts : forall v n st, f (set_timeouts v n st) = f st.

Lemma uploadOne_preserves results url : preserves f (uploadOne results url).
Proof.
  unfold uploadOne, generateLinkId. autounfold with js.
  apply preserves_bind; [auto with js|]. intros vi.
  apply preserves_bind; [auto with js|]. intros sd.
  apply preserves_bind; [auto with js|]. intros id.
  apply preserves_bind; [auto with js|]. intros rnd.
  apply preserves_bind; [auto with js|]. intros t1.
  apply preserves_bind; [auto with js|]. intros t2.
  apply preserves_bind; [|auto with js].
  apply preserves_modify. intros st. apply f_pendingUploads.
Qed.

Lemma clearTimeout_preserves h : preserves f (clearTimeout h).
Proof. apply preserves_modify. intros st. apply f_timeouts. Qed.

Lemma scheduleBatchUpload_preserves : preserves f scheduleBatchUpload.
Proof.
  unfold scheduleBatchUpload, setTimeout.
  pose proof clearTimeout_preserves.
  apply preserves_bind; [auto with js|]. intros [h|].
  - apply preserves_bind; [auto|]. intros _.
    apply preserves_bind; [auto with js|]. intros cfg.
    apply preserves_bind.
    + apply preserves_bind; [auto with js|]. intros n.
      apply preserves_bind; [|auto with js].
      apply preserves_modify. intros st. apply f_timeouts.
    + intros n. apply preserves_modify. intros st. apply f_refreshTimer.
  - apply preserves_bind; [auto with js|]. intros _.
    apply preserves_bind; [auto with js|]. intros cfg.
    apply preserves_bind.
    + apply preserves_bind; [auto with js|]. intros n.
      apply preserves_bind; [|auto with js].
      apply preserves_modify. intros st. apply f_timeouts.
    + intros n. apply preserves_modify. intros st. apply f_refreshTimer.
Qed.

(** The upload route touches the pending uploads and the timer only. *)
Lemma uploadRoute_preserves req : preserves f (uploadRoute req).
Proof.
  unfold uploadRoute.
  pose proof uploadOne_preserves. pose proof scheduleBatchUpload_preserves.
  apply preserves_try_catch; [|auto with js].
  apply preserves_bind; [auto with js|]. intros cfg.
  destruct (negb _); [auto with js|].
  destruct (links req) as [urls|]; auto with js.
Qed.

End UploadFrame.

Lemma uploadRoute_returns req : returns (uploadRoute req).
Proof. unfold uploadRoute. auto with js. Qed.

Lemma express_returns handler : returns (express handler).
Proof. unfold express. auto with js. Qed.

Lemma handleTrigger_invariant t st w :
  Obj.wf (linkDatabase st) -> isRefreshing st = false ->
  completion (handleTrigger t st w) = Return tt /\
  Obj.wf (linkDatabase (state (handleTrigger t st w))) /\
  isRefreshing (state (handleTrigger t st w)) = false.
Proof.
  intros Hwf Hg. destruct t as [req|helpers|h|]; unfold handleTrigger.
  - destruct (uploadRoute_returns req st w) as [resp Hc].
    rewrite (bind_returns _ _ _ _ Hc). cbn [completion state world events ret].
    rewrite (uploadRoute_preserves linkDatabase) by reflexivity.
    rewrite (uploadRoute_preserves isRefreshing) by reflexivity.
    auto.
  - unfold express, try_catch, bind. rewrite statusRoute_run.
    cbn [completion state world events ret]. auto.
  - unfold fireTimeout.
    destruct (existsb (fun t => Nat.eqb (handle t) h) (timeouts st)) eqn:E.
    + set (st1 := set_timeouts
                    (filter (fun t => negb (Nat.eqb (handle t) h)) (timeouts st))
                    (nextHandle st) st).
      destruct (@batchTimerCallback_keeps_wf st1 w Hwf) as (Bc & Bw & _ & Bg).
      assert (R : runs (bind (gets (fun st => existsb (fun t => Nat.eqb (handle t) h) (timeouts st)))
                   (fun registered => if registered
                      then bind (clearTimeout h) (fun _ => batchTimerCallback)
                      else ret tt)) st w tt
                  (state (batchTimerCallback st1 w))
                  (world (batchTimerCallback st1 w))).
      { eapply runs_bind; [apply runs_gets|]. cbv beta. rewrite E.
        eapply runs_bind; [apply runs_modify|]. repeat split. exact Bc. }
      destruct R as (Rc & Rs & _). rewrite Rc, Rs. auto.
    + unfold bind, gets. cbn [completion state world events].
      rewrite E. cbn. auto.
  - unfold scheduledRefresh.
    destruct (@refreshAllLinks_keeps_wf st w Hwf) as (Rc & Rw & Rg).
    unfold bind, emit. cbn [completion state world events].
    rewrite Rc. cbn [completion state world events]. auto.
Qed.

(** * Further properties *)

(** ** The codec, at a concrete id *)

Lemma decode_encode_three_character_suffix_witness :
  isAscii "mov001" = true /\
  String.length (Js.substring 2 5 "0.abcdef") = 3 /\
  LinkEncoder.decode (LinkEncoder.encode "mov001" "0.abcdef") =
    Return (Some "mov001").
Proof.
  split; [reflexivity|]. split; [reflexivity|].
  apply decode_encode_three_character_suffix; reflexivity.
Defined.

(** ** The resolution client, outcome by outcome *)

Lemma getVideoInfo_run url st w :
  YouTubeConverter.getVideoInfo url st w =
  mkRes
    (Return
       match ytdl_info w (tick w) url with
       | Return info =>
           mkVideoSummary (videoDetails_title info)
             (videoDetails_lengthSeconds info) true None
       | Throw e =>
           mkVideoSummary "Unknown Video" 0 false (Some (error_message e))
       end)
    st (advance w) [GetInfoRequest url].
Proof.
  unfold YouTubeConverter.getVideoInfo, try_catch, bind, ytdl_getInfo,
    external, ret.
  cbn [completion state world events].
  destruct (ytdl_info w (tick w) url); reflexivity.
Qed.

Lemma bestFormat_in fs best :
  YouTubeConverter.bestFormat fs = Some best -> In best fs.
Proof.
  unfold YouTubeConverter.bestFormat.
  destruct (find _ fs) as [f|] eqn:E.
  - intros [= <-]. apply find_some in E. tauto.
  - destruct fs as [|f fs]; [discriminate|]. intros [= <-]. now left.
Qed.

Lemma bestFormat_none fs :
  YouTubeConverter.bestFormat fs = None <-> fs = [].
Proof.
  unfold YouTubeConverter.bestFormat. split.
  - destruct (find _ fs); [discriminate|]. destruct fs; [auto|discriminate].
  - intros ->. reflexivity.
Qed.

(** The failure value of [convertToStreamLink]. *)
Lemma convertToStreamLink_run url st w :
  YouTubeConverter.convertToStreamLink url st w =
  match ytdl_info w (tick w) url with
  | Return info =>
      match YouTubeConverter.bestFormat
              (ytdl_filterFormats_video (formats info)) with
      | Some best =>
          mkRes
            (Return
               (mkStreamData (format_url best) (videoDetails_title info)
                  (Js.or_else (format_qualityLabel best) "Unknown")
                  (Some (clock w (S (tick w)) + 6 * 60 * 60 * 1000)%Z)
                  true None))
            st (advance (advance w)) [GetInfoRequest url]
      | None =>
          mkRes
            (Return
               (mkStreamData None "Conversion Failed" "N/A" None false
                  (Some "No video format available")))
            st (advance w)
            [GetInfoRequest url;
             Log (ConversionFailed "No video format available")]
      end
  | Throw e =>
      mkRes
        (Return
           (mkStreamData None "Conversion Failed" "N/A" None false
              (Some (error_message e))))
        st (advance w)
        [GetInfoRequest url; Log (ConversionFailed (error_message e))]
  end.
Proof.
  unfold YouTubeConverter.convertToStreamLink, try_catch, bind, ytdl_getInfo,
    external, Date_now, throw, ret, emit.
  cbn [completion state world events].
  destruct (ytdl_info w (tick w) url) as [info|e];
    cbn [completion state world events]; [|reflexivity].
  destruct (YouTubeConverter.bestFormat _);
    cbn [completion state world events]; reflexivity.
Qed.

(** X2: [convertToStreamLink] never throws and never touches the module
    state.  Its result is valid exactly when [ytdl.getInfo] returns and
    one format has a URL and carries video; a valid result has a
    non-empty stream URL, no error, and expires six hours after the clock
    reading taken; an invalid result has no stream URL, the title
    [Conversion Failed], and the error message, which is also logged. *)
Theorem convertToStreamLink_outcome : forall url st w,
  exists s,
    completion (YouTubeConverter.convertToStreamLink url st w) = Return s /\
    state (YouTubeConverter.convertToStreamLink url st w) = st /\
    stream_isValid s = streamResolvable w url /\
    (if stream_isValid s then
       Js.truthy (stream_streamUrl s) = true /\
       stream_error s = None /\
       stream_expiresAt s =
         Some (clock w (S (tick w)) + 6 * 60 * 60 * 1000)%Z
     else
       stream_streamUrl s = None /\
       stream_title s = "Conversion Failed"%string /\
       stream_expiresAt s = None /\
       exists message,
         stream_error s = Some message /\
         In (Log (ConversionFailed message))
            (events (YouTubeConverter.convertToStreamLink url st w))).
Proof.
  intros url st w. rewrite convertToStreamLink_run. unfold streamResolvable.
  destruct (ytdl_info w (tick w) url) as [info|e].
  - destruct (YouTubeConverter.bestFormat _) as [best|] eqn:B.
    + eexists. repeat split. cbn [stream_streamUrl].
      apply bestFormat_in in B. unfold ytdl_filterFormats_video in B.
      apply filter_In in B. destruct B as [_ B].
      apply andb_prop in B. tauto.
    + eexists. repeat split. cbn [stream_isValid].
      repeat split. eexists. split; [reflexivity|]. cbn. auto.
  - eexists. repeat split. cbn [stream_isValid].
    repeat split. eexists. split; [reflexivity|]. cbn. auto.
Qed.

(** ** The upload route, URL by URL *)

Lemma convertToStreamLink_facts url st w :
  exists s w',
    runs (YouTubeConverter.convertToStreamLink url) st w s st w' /\
    stream_isValid s = streamResolvable w url /\
    (stream_isValid s = false -> stream_streamUrl s = None).
Proof.
  unfold runs. rewrite convertToStreamLink_run. unfold streamResolvable.
  destruct (ytdl_info w (tick w) url) as [info|e].
  - destruct (YouTubeConverter.bestFormat _) as [best|];
      do 2 eexists; repeat split; discriminate.
  - do 2 eexists; repeat split.
Qed.

Lemma getVideoInfo_facts url st w :
  exists v,
    runs (YouTubeConverter.getVideoInfo url) st w v st (advance w) /\
    summary_isAvailable v = videoAvailable w url /\
    (videoAvailable w url = false ->
     summary_title v = "Unknown Video"%string).
Proof.
  unfold runs. rewrite getVideoInfo_run. unfold videoAvailable.
  destruct (ytdl_info w (tick w) url) as [info|e];
    eexists; repeat split; discriminate.
Qed.

Lemma uploadOne_appends results url st w :
  exists r data w',
    runs (uploadOne results url) st w (results ++ [r])
      (set_pendingUploads
         (pendingUploads st ++ [mkUpload (result_linkId r) data]) st) w' /\
    result_linkId r = nextLinkId "mov" (linkDatabase st) /\
    result_originalUrl r = url /\
    result_title r = title data /\
    result_status r = (if isValid data then "success" else "failed")%string /\
    (exists rnd36,
       result_masterLink r =
         ("https://" ++ GITHUB_OWNER (CONFIG st) ++ ".github.io/" ++
          GITHUB_REPO (CONFIG st) ++ "/r/" ++
          LinkEncoder.encode (result_linkId r) rnd36)%string) /\
    originalUrl data = url /\
    isValid data = streamResolvable (advance w) url && videoAvailable w url /\
    (streamResolvable (advance w) url = false -> streamUrl data = None) /\
    (videoAvailable w url = false -> title data = "Unknown Video"%string).
Proof.
  destruct (getVideoInfo_facts url st w) as (v & R1 & V1 & V2).
  destruct (convertToStreamLink_facts url st (advance w))
    as (s & w2 & R2 & S1 & S2).
  eexists (mkUploadResult url _ (summary_title v)
             (nextLinkId "mov" (linkDatabase st)) _).
  eexists (mkLinkData url (stream_streamUrl s) (summary_title v)
             (stream_quality s) _ _
             (stream_isValid s && summary_isAvailable v)).
  eexists. split.
  - unfold uploadOne.
    eapply runs_bind; [exact R1|].
    eapply runs_bind; [exact R2|].
    eapply runs_bind; [apply runs_gets|].
    eapply runs_bind; [repeat split|].
    eapply runs_bind; [apply runs_Date_now|].
    eapply runs_bind; [apply runs_Date_now|].
    eapply runs_bind; [apply runs_modify|].
    eapply runs_bind; [apply runs_gets|].
    apply runs_ret.
  - cbn [result_linkId result_originalUrl result_title result_status
         result_masterLink originalUrl isValid streamUrl title].
    rewrite S1, V1.
    split; [reflexivity|]. split; [reflexivity|]. split; [reflexivity|].
    split; [reflexivity|]. split; [eexists; reflexivity|].
    split; [reflexivity|]. split; [reflexivity|].
    split; [|exact V2]. intros H. apply S2. now rewrite S1.
Qed.

(** X3: every URL of an accepted batch is queued, whatever its
    resolution gave.  The loop body of the upload route never throws; it
    appends one result and one pending upload for the URL, under the id
    [generateLinkId] computes from the registry, and leaves the registry
    alone.  The result is reported [success] exactly when both calls of
    [ytdl.getInfo] return and a format is usable, otherwise [failed]; a
    URL that could not be resolved is queued without a stream URL, and a
    video whose information could not be read gets the title
    [Unknown Video].  A master link is returned in either case. *)
Theorem upload_queues_every_url : forall results url st w,
  exists r data,
    returned (uploadOne results url st w) = Some (results ++ [r]) /\
    pendingUploads (state (uploadOne results url st w)) =
      pendingUploads st ++ [mkUpload (result_linkId r) data] /\
    linkDatabase (state (uploadOne results url st w)) = linkDatabase st /\
    result_linkId r = nextLinkId "mov" (linkDatabase st) /\
    result_originalUrl r = url /\
    originalUrl data = url /\
    result_title r = title data /\
    (result_status r = "success"%string <->
     videoAvailable w url = true /\
     streamResolvable (advance w) url = true) /\
    (result_status r = "failed"%string <->
     videoAvailable w url = false \/
     streamResolvable (advance w) url = false) /\
    (streamResolvable (advance w) url = false -> streamUrl data = None) /\
    (videoAvailable w url = false -> title data = "Unknown Video"%string) /\
    exists rnd36,
      result_masterLink r =
        ("https://" ++ GITHUB_OWNER (CONFIG st) ++ ".github.io/" ++
         GITHUB_REPO (CONFIG st) ++ "/r/" ++
         LinkEncoder.encode (result_linkId r) rnd36)%string.
Proof.
  intros results url st w.
  destruct (uploadOne_appends results url st w)
    as (r & data & w' & (Rc & Rs & _) & Hid & Hurl & Ht & Hst & Hm & Hd & Hv
        & Hs & Hu).
  exists r, data. unfold returned. rewrite Rc, Rs.
  split; [reflexivity|]. split; [reflexivity|]. split; [reflexivity|].
  split; [exact Hid|]. split; [exact Hurl|]. split; [exact Hd|].
  split; [exact Ht|].
  rewrite Hst, Hv.
  destruct (streamResolvable (advance w) url), (videoAvailable w url);
    cbn [andb]; repeat split; auto; try discriminate;
    try (intros [? ?]; discriminate); try (intros [?|?]; discriminate).
Qed.

Lemma uploadLoop_appends urls : forall results st w,
  exists rs added w',
    runs (for_of_with urls results uploadOne) st w (results ++ rs)
      (set_pendingUploads (pendingUploads st ++ added) st) w' /\
    map result_originalUrl rs = urls /\
    map (fun u => originalUrl (upload_data u)) added = urls /\
    map upload_id added = map result_linkId rs /\
    List.length rs = List.length urls.
Proof.
  induction urls as [|url urls IH]; intros results st w.
  - exists [], [], w. rewrite !app_nil_r.
    replace (set_pendingUploads (pendingUploads st) st) with st
      by (destruct st; reflexivity).
    repeat split.
  - destruct (uploadOne_appends results url st w)
      as (r & data & w1 & R1 & _ & Hurl & _ & _ & _ & Hd & _).
    set (st1 := set_pendingUploads _ st) in R1.
    destruct (IH (results ++ [r]) st1 w1)
      as (rs & added & w' & R2 & E1 & E2 & E3 & E4).
    exists (r :: rs), (mkUpload (result_linkId r) data :: added), w'.
    split; [|cbn [map List.length upload_id upload_data];
             rewrite E1, E2, E3, E4, Hurl, Hd; auto].
    simpl for_of_with. eapply runs_bind; [exact R1|].
    subst st1.
    replace (results ++ r :: rs) with ((results ++ [r]) ++ rs)
      by (now rewrite <- app_assoc).
    replace (pendingUploads st ++ mkUpload (result_linkId r) data :: added)
      with ((pendingUploads st ++ [mkUpload (result_linkId r) data]) ++ added)
      by (now rewrite <- app_assoc).
    exact R2.
Qed.

(** X4: an upload request with the right password and an array of
    links is answered 200 with one result per URL, in the order of the
    request; one pending upload per URL is appended, in the same order
    and under the same ids; the registry and the guard are not touched;
    the debounce timer is armed anew, for [BATCH_WINDOW_MINUTES] minutes,
    under a fresh handle that [refreshTimer] then holds.  This covers the
    empty array: nothing is queued and the timer is armed all the
    same. *)
Theorem upload_accepted : forall st w urls,
  exists results added,
    returned (uploadRoute
                (mkUploadBody (Some urls) (Some (API_PASSWORD (CONFIG st))))
                st w) =
      Some (mkResponse 200
              (UploadOk results
                 (Js.String_of_nat (List.length urls) ++
                  " links processed. Refresh will happen in " ++
                  Js.String_of_Z (BATCH_WINDOW_MINUTES (CONFIG st)) ++
                  " minutes.")%string)) /\
    map result_originalUrl results = urls /\
    map (fun u => originalUrl (upload_data u)) added = urls /\
    map upload_id added = map result_linkId results /\
    let st' :=
      state (uploadRoute
               (mkUploadBody (Some urls) (Some (API_PASSWORD (CONFIG st))))
               st w) in
    pendingUploads st' = pendingUploads st ++ added /\
    linkDatabase st' = linkDatabase st /\
    isRefreshing st' = isRefreshing st /\
    refreshTimer st' = Some (nextHandle st) /\
    In (mkTimeout (nextHandle st)
          (BATCH_WINDOW_MINUTES (CONFIG st) * 60 * 1000))
       (timeouts st').
Proof.
  intros st w urls.
  destruct (uploadLoop_appends urls [] st w)
    as (results & added & w1 & R1 & E1 & E2 & E3 & E4).
  cbn [List.app] in R1.
  set (st1 := set_pendingUploads (pendingUploads st ++ added) st) in R1.
  destruct (scheduleBatchUpload_runs st1 w1)
    as (st2 & R2 & P2 & D2 & G2 & T2 & others & O2).
  assert (R :
    runs (uploadRoute
            (mkUploadBody (Some urls) (Some (API_PASSWORD (CONFIG st)))))
      st w
      (mkResponse 200
         (UploadOk results
            (Js.String_of_nat (List.length results) ++
             " links processed. Refresh will happen in " ++
             Js.String_of_Z (BATCH_WINDOW_MINUTES (CONFIG st)) ++
             " minutes.")%string))
      st2 w1).
  { unfold uploadRoute. apply runs_try_catch.
    eapply runs_bind; [apply runs_gets|]. cbv beta.
    cbn [password links]. rewrite String.eqb_refl. cbn [negb].
    eapply runs_bind; [exact R1|].
    eapply runs_bind; [exact R2|].
    apply runs_ret. }
  destruct R as (Rc & Rs & _).
  exists results, added. unfold returned. rewrite Rc, Rs, E4.
  split; [reflexivity|]. split; [exact E1|]. split; [exact E2|].
  split; [exact E3|]. cbv zeta.
  split; [exact P2|]. split; [exact D2|]. split; [exact G2|].
  split; [exact T2|]. rewrite O2. apply in_or_app. right. now left.
Qed.

Lemma bind_gets {A B} (f : State -> A) (k : A -> M B) st w :
  bind (gets f) k st w = k (f st) st w.
Proof.
  unfold bind, gets. cbn [completion state world events List.app].
  destruct (k (f st) st w). reflexivity.
Qed.

Lemma try_catch_returned {A} (m : M A) h st w a :
  completion (m st w) = Return a -> try_catch m h st w = m st w.
Proof. intros H. unfold try_catch. now rewrite H. Qed.

(** X5: an upload request without the right password is answered 401,
    and one with the right password but without an array of links is
    answered 400; in both cases nothing else happens: no URL is resolved,
    no request leaves the process, nothing is logged, and the module
    state is as before. *)
Theorem upload_rejected_leaves_no_trace : forall req st w,
  (authorized (CONFIG st) req = false ->
   uploadRoute req st w =
   mkRes (Return (mkResponse 401 (ErrorBody "Invalid password" None)))
     st w []) /\
  (authorized (CONFIG st) req = true -> links req = None ->
   uploadRoute req st w =
   mkRes (Return (mkResponse 400 (ErrorBody "Links array required" None)))
     st w []).
Proof.
  intros req st w. unfold authorized. split.
  - intros E. unfold uploadRoute.
    rewrite try_catch_returned
      with (a := mkResponse 401 (ErrorBody "Invalid password" None));
      rewrite bind_gets, E; reflexivity.
  - intros E L. unfold uploadRoute.
    rewrite try_catch_returned
      with (a := mkResponse 400 (ErrorBody "Links array required" None));
      rewrite bind_gets, E, L; reflexivity.
Qed.

Lemma upload_rejected_leaves_no_trace_witness :
  authorized demoConfig (mkUploadBody (Some ["u:a"]) (Some "guess")) = false /\
  uploadRoute (mkUploadBody (Some ["u:a"]) (Some "guess")) demoState
    (demoWorld 0) =
  mkRes (Return (mkResponse 401 (ErrorBody "Invalid password" None)))
    demoState (demoWorld 0) [].
Proof.
  split; [reflexivity|].
  apply (upload_rejected_leaves_no_trace
           (mkUploadBody (Some ["u:a"]) (Some "guess")) demoState
           (demoWorld 0)).
  reflexivity.
Defined.

(** ** The health phase: what it counts and what it requests *)

Lemma checkEntry_counts bl rs id d st w :
  exists bl' rs',
    completion (LinkHealthChecker.checkEntry (bl, rs) (id, d) st w) =
      Return (bl', rs') /\
    state (LinkHealthChecker.checkEntry (bl, rs) (id, d) st w) = st /\
    events (LinkHealthChecker.checkEntry (bl, rs) (id, d) st w) =
      map (fun url => HeadRequest url 10000) (probedUrls [(id, d)]) /\
    total rs' = S (total rs) /\
    active rs' + broken rs' = S (active rs + broken rs) /\
    List.length bl' + broken rs = List.length bl + broken rs' /\
    List.length (details rs') =
      List.length (details rs) + List.length (probedUrls [(id, d)]).
Proof.
  unfold probedUrls. cbn [flat_map snd].
  unfold LinkHealthChecker.checkEntry, LinkHealthChecker.noStreamUrl.
  destruct (streamUrl d) as [url|].
  2:{ do 2 eexists. cbn [ret completion state events map List.app].
      repeat split; cbn [total active broken details
                         LinkHealthChecker.incr_broken
                         LinkHealthChecker.incr_total List.length];
        rewrite ?length_app; cbn [List.length]; lia. }
  destruct (Js.truthy_string url); cbn [negb].
  2:{ do 2 eexists. cbn [ret completion state events map List.app].
      repeat split; cbn [total active broken details
                         LinkHealthChecker.incr_broken
                         LinkHealthChecker.incr_total List.length];
        rewrite ?length_app; cbn [List.length]; lia. }
  unfold bind, Date_now, external, ret.
  rewrite !checkLink_run. cbn [completion state world events].
  match goal with |- context [isActive ?h] => destruct (isActive h) end;
    cbn [completion state world events map List.app];
    do 2 eexists;
    (repeat split;
     cbn [total active broken details LinkHealthChecker.incr_broken
          LinkHealthChecker.incr_active LinkHealthChecker.push_detail
          LinkHealthChecker.incr_total List.length];
     rewrite ?length_app; cbn [List.length]; lia).
Qed.

Lemma probedUrls_cons entry entries :
  probedUrls (entry :: entries) = probedUrls [entry] ++ probedUrls entries.
Proof. unfold probedUrls. cbn [flat_map]. now rewrite app_nil_r. Qed.

Lemma checkLoop_counts entries : forall bl rs st w,
  exists bl' rs',
    completion (for_of_with entries (bl, rs) LinkHealthChecker.checkEntry st w)
      = Return (bl', rs') /\
    state (for_of_with entries (bl, rs) LinkHealthChecker.checkEntry st w)
      = st /\
    events (for_of_with entries (bl, rs) LinkHealthChecker.checkEntry st w)
      = map (fun url => HeadRequest url 10000) (probedUrls entries) /\
    total rs' = total rs + List.length entries /\
    active rs' + broken rs' = active rs + broken rs + List.length entries /\
    List.length bl' + broken rs = List.length bl + broken rs' /\
    List.length (details rs') =
      List.length (details rs) + List.length (probedUrls entries).
Proof.
  induction entries as [|[id d] entries IH]; intros bl rs st w.
  - exists bl, rs. cbn. repeat split; lia.
  - destruct (checkEntry_counts bl rs id d st w)
      as (bl1 & rs1 & Hc & Hs & He & T1 & A1 & B1 & D1).
    cbn [for_of_with]. rewrite (bind_returns _ _ _ _ Hc).
    cbn [completion state world events]. rewrite Hs, He.
    destruct (IH bl1 rs1 st
                (world (LinkHealthChecker.checkEntry (bl, rs) (id, d) st w)))
      as (bl' & rs' & Hc' & Hs' & He' & T' & A' & B' & D').
    exists bl', rs'. rewrite Hc', Hs', He'.
    rewrite (probedUrls_cons (id, d) entries), map_app, length_app. cbn [List.length].
    repeat split; lia.
Qed.

(** X6: [checkAllLinks] never throws and leaves the module state as it
    was.  Its summary counts every registry entry once ([total]), each
    of them as active or as broken ([active + broken = total]); the list
    of broken links has [broken] elements, and there is one detail per
    probed entry.  The requests it makes are exactly one HEAD request,
    with a timeout of ten seconds, for each entry that has a stream URL,
    in the order of the registry: an entry without a stream URL is
    counted broken without being probed; nothing is logged. *)
Theorem checkAllLinks_counts_and_requests : forall st w,
  exists brokenLinks results,
    completion (LinkHealthChecker.checkAllLinks st w) =
      Return (brokenLinks, results) /\
    state (LinkHealthChecker.checkAllLinks st w) = st /\
    events (LinkHealthChecker.checkAllLinks st w) =
      map (fun url => HeadRequest url 10000)
        (probedUrls (linkDatabase st)) /\
    total results = List.length (Obj.keys (linkDatabase st)) /\
    active results + broken results = total results /\
    List.length brokenLinks = broken results /\
    List.length (details results) =
      List.length (probedUrls (linkDatabase st)).
Proof.
  intros st w. unfold LinkHealthChecker.checkAllLinks. rewrite bind_gets.
  destruct (checkLoop_counts (Obj.entries (linkDatabase st)) []
              (mkResults 0 0 0 [] None) st w)
    as (bl & rs & Hc & Hs & He & T & A & B & D).
  exists bl, rs. rewrite Hc, Hs, He. unfold Obj.keys, Obj.entries in *.
  rewrite length_map. cbn in T, A, B, D.
  repeat split; lia.
Qed.

(** X7: how the health phase reports one entry.  An entry without a
    stream URL is added to the broken links with the reason
    [No stream URL], and no request is made for it.  An entry with a
    stream URL is probed once; it is added to the broken links unless
    the answer is status 200, with the client's error message as the
    reason (for a status outside 200..299, a transport failure or a
    timeout) or, when the client has no message, with [HTTP] and the
    status (a status from 201 to 299, and a failure with an empty
    message, status 0). *)
Theorem checkEntry_reports : forall bl rs id d st w,
  exists rs',
    completion (LinkHealthChecker.checkEntry (bl, rs) (id, d) st w) =
    Return
      (match streamUrl d with
       | Some url =>
           if Js.truthy_string url then
             match brokenReason (remote w (tick w) url) with
             | None => bl
             | Some reason =>
                 bl ++ [LinkHealthChecker.brokenLink id d reason]
             end
           else bl ++ [LinkHealthChecker.brokenLink id d "No stream URL"]
       | None => bl ++ [LinkHealthChecker.brokenLink id d "No stream URL"]
       end, rs') /\
    events (LinkHealthChecker.checkEntry (bl, rs) (id, d) st w) =
      match streamUrl d with
      | Some url =>
          if Js.truthy_string url then [HeadRequest url 10000] else []
      | None => []
      end.
Proof.
  intros bl rs id d st w.
  unfold LinkHealthChecker.checkEntry, LinkHealthChecker.noStreamUrl.
  destruct (streamUrl d) as [url|]; [|eexists; split; reflexivity].
  destruct (Js.truthy_string url); cbn [negb];
    [|eexists; split; reflexivity].
  unfold bind, Date_now, external, ret.
  rewrite !checkLink_run. cbn [completion state world events].
  unfold brokenReason.
  destruct (remote w (tick w) url) as [s|m|].
  - destruct (success_status s) eqn:S.
    + cbn [isActive]. destruct (s =? 200)%Z;
        cbn [completion state world events error status Js.or_else];
        eexists; split; reflexivity.
    + cbn [isActive completion state world events error status].
      eexists. split; reflexivity.
  - cbn [isActive completion state world events error status Js.or_else].
    eexists. split; [|reflexivity].
    destruct (Js.truthy_string m); reflexivity.
  - cbn [isActive completion state world events error status].
    eexists. split; reflexivity.
Qed.

(** ** Events of composed runs *)

Lemma bind_events {A B} (m : M A) (k : A -> M B) st w a st1 w1 :
  runs m st w a st1 w1 ->
  events (bind m k st w) = events (m st w) ++ events (k a st1 w1).
Proof.
  intros (Hc & Hs & Hw). rewrite (bind_returns _ _ _ _ Hc).
  cbn [events]. now rewrite Hs, Hw.
Qed.

Lemma try_catch_events {A} (m : M A) h st w a st1 w1 :
  runs m st w a st1 w1 -> events (try_catch m h st w) = events (m st w).
Proof.
  intros (Hc & _). unfold try_catch. now rewrite Hc.
Qed.

Section Quiet.

Context (p : Event -> bool).

Lemma emits_no_ret {A} (a : A) : emits_no p (ret a).
Proof. intros st w. reflexivity. Qed.

Lemma emits_no_throw {A} e : emits_no p (@throw A e).
Proof. intros st w. reflexivity. Qed.

Lemma emits_no_gets {A} (f : State -> A) : emits_no p (gets f).
Proof. intros st w. reflexivity. Qed.

Lemma emits_no_modify g : emits_no p (modify g).
Proof. intros st w. reflexivity. Qed.

Lemma emits_no_emit e : p e = false -> emits_no p (emit e).
Proof. intros H st w. cbn. now rewrite H. Qed.

Lemma emits_no_external {A} req (o : World -> nat -> Completion A) :
  filter p req = [] -> emits_no p (external req o).
Proof. intros H st w. exact H. Qed.

Lemma emits_no_bind {A B} (m : M A) (k : A -> M B) :
  emits_no p m -> (forall a, emits_no p (k a)) -> emits_no p (bind m k).
Proof.
  intros Hm Hk st w. unfold bind.
  destruct (completion (m st w)) as [a|e]; cbn [events].
  - now rewrite filter_app, Hm, Hk.
  - apply Hm.
Qed.

Lemma emits_no_try_catch {A} (m : M A) h :
  emits_no p m -> (forall e, emits_no p (h e)) -> emits_no p (try_catch m h).
Proof.
  intros Hm Hh st w. unfold try_catch.
  destruct (completion (m st w)) as [a|e]; cbn [events].
  - apply Hm.
  - now rewrite filter_app, Hm, Hh.
Qed.

Lemma emits_no_try_finally {A} (m : M A) f :
  emits_no p m -> emits_no p f -> emits_no p (try_finally m f).
Proof.
  intros Hm Hf st w. unfold try_finally. cbn [events].
  now rewrite filter_app, Hm, Hf.
Qed.

Lemma emits_no_for_of {X} (xs : list X) body :
  (forall x, emits_no p (body x)) -> emits_no p (for_of xs body).
Proof.
  intros H. induction xs as [|x xs IH]; cbn [for_of].
  - apply emits_no_ret.
  - apply emits_no_bind; auto.
Qed.

Lemma emits_no_for_of_with {X L} (xs : list X) (body : L -> X -> M L) :
  (forall acc x, emits_no p (body acc x)) ->
  forall acc, emits_no p (for_of_with xs acc body).
Proof.
  intros H. induction xs as [|x xs IH]; intros acc; cbn [for_of_with].
  - apply emits_no_ret.
  - apply emits_no_bind; auto.
Qed.

End Quiet.

Ltac quiet :=
  repeat first
    [ apply emits_no_bind; [|intros ?]
    | apply emits_no_try_catch; [|intros ?]
    | apply emits_no_for_of; intros ?
    | apply emits_no_for_of_with; intros ? ?
    | apply emits_no_ret | apply emits_no_throw | apply emits_no_gets
    | apply emits_no_modify
    | apply emits_no_emit; reflexivity
    | apply emits_no_external; reflexivity ].

(** The phases of the cycle other than the notification emit no
    notification, and the phases other than the publication write
    nothing to GitHub. *)

Lemma checkLink_quiet p url :
  (forall u t, p (HeadRequest u t) = false) ->
  emits_no p (LinkHealthChecker.checkLink url).
Proof.
  intros H st w. rewrite checkLink_run. cbn. now rewrite H.
Qed.

Lemma checkAllLinks_quiet p :
  (forall u t, p (HeadRequest u t) = false) ->
  emits_no p LinkHealthChecker.checkAllLinks.
Proof.
  intros H. unfold LinkHealthChecker.checkAllLinks.
  apply emits_no_bind; [apply emits_no_gets|]. intros db.
  apply emits_no_for_of_with. intros [bl rs] [id d].
  unfold LinkHealthChecker.checkEntry, LinkHealthChecker.noStreamUrl.
  destruct (streamUrl d) as [url|]; [|apply emits_no_ret].
  destruct (negb (Js.truthy_string url)); [apply emits_no_ret|].
  apply emits_no_bind; [now apply checkLink_quiet|]. intros h.
  destruct (isActive h); unfold Date_now; quiet.
Qed.

Lemma convertToStreamLink_quiet p url :
  (forall u, p (GetInfoRequest u) = false) ->
  (forall m, p (Log (ConversionFailed m)) = false) ->
  emits_no p (YouTubeConverter.convertToStreamLink url).
Proof.
  intros H1 H2 st w. rewrite convertToStreamLink_run.
  destruct (ytdl_info w (tick w) url) as [info|e].
  - destruct (YouTubeConverter.bestFormat _); cbn; now rewrite ?H1, ?H2.
  - cbn. now rewrite H1, H2.
Qed.

Lemma refreshActiveLinks_quiet p :
  (forall u, p (GetInfoRequest u) = false) ->
  (forall m, p (Log (ConversionFailed m)) = false) ->
  emits_no p refreshActiveLinks.
Proof.
  intros H1 H2. unfold refreshActiveLinks.
  apply emits_no_bind; [apply emits_no_gets|]. intros db.
  apply emits_no_for_of. intros [id d]. unfold refreshEntry.
  destruct (Js.truthy_string (originalUrl d)); [|apply emits_no_ret].
  apply emits_no_bind; [now apply convertToStreamLink_quiet|]. intros s.
  destruct (stream_isValid s); [|apply emits_no_ret].
  unfold assign_entry, Date_now.
  apply emits_no_bind.
  { apply emits_no_bind; [apply emits_no_gets|]. intros db'.
    destruct (Obj.get id db'); quiet. }
  intros _. apply emits_no_bind; [quiet|]. intros now.
  apply emits_no_bind; [apply emits_no_gets|]. intros db'.
  destruct (Obj.get id db'); quiet.
Qed.

Lemma removeBrokenLinks_quiet p bl : emits_no p (removeBrokenLinks bl).
Proof. unfold removeBrokenLinks. quiet. Qed.

Lemma generateRefreshLog_quiet p r :
  (forall a b t d, p (Log (RefreshComplete a b t d)) = false) ->
  emits_no p (LogCollector.generateRefreshLog r).
Proof.
  intros H. unfold LogCollector.generateRefreshLog, Date_now.
  apply emits_no_bind; [quiet|]. intros _. apply emits_no_emit. apply H.
Qed.

(** ** The publisher *)

Lemma publishEntry_run acc id d st w :
  GitHubManager.publishEntry acc (id, d) st w =
  mkRes
    (Return
       (Obj.set (LinkEncoder.encode id (random36 w (tick w)))
          (mkPublished (streamUrl d) (title d) (clock w (S (tick w)))) acc))
    st (advance (advance w)) [].
Proof. reflexivity. Qed.

Lemma publishLoop_run entries : forall acc st w all,
  describes all acc -> incl entries all ->
  exists content,
    completion (for_of_with entries acc GitHubManager.publishEntry st w) =
      Return content /\
    state (for_of_with entries acc GitHubManager.publishEntry st w) = st /\
    events (for_of_with entries acc GitHubManager.publishEntry st w) = [] /\
    describes all content /\
    List.length (Obj.keys content) <=
      List.length (Obj.keys acc) + List.length entries.
Proof.
  induction entries as [|[id d] entries IH]; intros acc st w all Hacc Hin.
  - exists acc. cbn. repeat split; auto. lia.
  - cbn [for_of_with].
    assert (Hc0 : completion (GitHubManager.publishEntry acc (id, d) st w) =
                  Return
                    (Obj.set (LinkEncoder.encode id (random36 w (tick w)))
                       (mkPublished (streamUrl d) (title d)
                          (clock w (S (tick w)))) acc)) by reflexivity.
    rewrite (bind_returns _ _ _ _ Hc0).
    rewrite publishEntry_run. cbn [completion state world events List.app].
    set (k0 := LinkEncoder.encode id (random36 w (tick w))).
    set (v0 := mkPublished _ _ _).
    destruct (IH (Obj.set k0 v0 acc) st (advance (advance w)) all)
      as (content & Hc & Hs & He & Hd & Hl).
    + intros k v Hget. destruct (string_dec k k0) as [->|N].
      * rewrite get_set_same in Hget. injection Hget as <-.
        exists id, d, (random36 w (tick w)). repeat split.
        apply Hin. now left.
      * rewrite get_set_other in Hget by exact N. now apply Hacc.
    + intros x Hx. apply Hin. now right.
    + exists content. rewrite Hc, Hs, He. repeat split; auto.
      cbn [List.length].
      assert (List.length (Obj.keys (Obj.set k0 v0 acc)) <=
              S (List.length (Obj.keys acc))).
      { destruct (in_dec string_dec k0 (Obj.keys acc)) as [I|N].
        - rewrite keys_set_present by exact I. lia.
        - rewrite keys_set_absent by exact N. rewrite length_app. cbn. lia. }
      lia.
Qed.

(** The loop builds the publication of the entries, with one stamp for
    each. *)
Lemma publishLoop_exact entries : forall acc st w,
  exists stamps,
    List.length stamps = List.length entries /\
    completion (for_of_with entries acc GitHubManager.publishEntry st w) =
      Return (publication entries stamps acc).
Proof.
  induction entries as [|[id d] entries IH]; intros acc st w.
  - exists []. split; reflexivity.
  - cbn [for_of_with].
    assert (Hc0 : completion (GitHubManager.publishEntry acc (id, d) st w) =
                  Return
                    (Obj.set (LinkEncoder.encode id (random36 w (tick w)))
                       (mkPublished (streamUrl d) (title d)
                          (clock w (S (tick w)))) acc)) by reflexivity.
    rewrite (bind_returns _ _ _ _ Hc0).
    rewrite publishEntry_run. cbn [completion state world events List.app].
    destruct (IH (Obj.set (LinkEncoder.encode id (random36 w (tick w)))
                    (mkPublished (streamUrl d) (title d)
                       (clock w (S (tick w)))) acc) st
                (advance (advance w))) as (stamps & Hl & Hc).
    exists ((random36 w (tick w), clock w (S (tick w))) :: stamps).
    split; [cbn [List.length]; now rewrite Hl|].
    rewrite Hc. reflexivity.
Qed.

(** Tokens with a full suffix tell the ids apart. *)
Lemma encode_injective id id' rnd36 rnd36' :
  String.length (Js.substring 2 5 rnd36) = 3 ->
  String.length (Js.substring 2 5 rnd36') = 3 ->
  LinkEncoder.encode id rnd36 = LinkEncoder.encode id' rnd36' ->
  id = id'.
Proof.
  intros H H' E. unfold LinkEncoder.encode in E. cbv zeta in E.
  apply (f_equal (Js.slice_drop_last 3)) in E.
  rewrite (slice_drop_three _ _ H), (slice_drop_three _ _ H') in E.
  pose proof (decode_unpadded_base64 (Buffer.from id) []) as D.
  pose proof (decode_unpadded_base64 (Buffer.from id') []) as D'.
  rewrite E in D. rewrite D' in D. unfold Buffer.from in D.
  rewrite <- (string_of_list_ascii_of_string id),
          <- (string_of_list_ascii_of_string id').
  now rewrite D.
Qed.

Lemma in_keys_set {V} (o : Obj.t V) k k' v :
  In k (Obj.keys (Obj.set k' v o)) <-> k = k' \/ In k (Obj.keys o).
Proof.
  destruct (in_dec string_dec k' (Obj.keys o)) as [I|N].
  - rewrite keys_set_present by exact I. split; [auto|].
    intros [->|H]; auto.
  - rewrite keys_set_absent by exact N. rewrite in_app_iff. cbn.
    split; [intros [H|[H|[]]]; auto | intros [H|H]; auto].
Qed.

(** A key of the mapping under construction stays one. *)
Lemma publication_keeps_keys entries : forall stamps acc k,
  In k (Obj.keys acc) -> In k (Obj.keys (publication entries stamps acc)).
Proof.
  induction entries as [|[id d] entries IH]; intros [|[r n] stamps] acc k H;
    cbn [publication]; auto.
  apply IH. apply in_keys_set. now right.
Qed.

(** Every entry gone through has a key that is an encoding of its id. *)
Lemma publication_covers entries : forall stamps acc id d,
  List.length stamps = List.length entries ->
  In (id, d) entries ->
  exists rnd36,
    In (LinkEncoder.encode id rnd36)
       (Obj.keys (publication entries stamps acc)).
Proof.
  induction entries as [|[id0 d0] entries IH];
    intros [|[r n] stamps] acc id d Hl Hin; try discriminate; [easy|].
  cbn [publication]. destruct Hin as [E|Hin].
  - injection E as -> ->. exists r.
    apply publication_keeps_keys, in_keys_set. now left.
  - apply (IH stamps _ id d); [now injection Hl | exact Hin].
Qed.

(** A key that no later entry takes over keeps its value. *)
Lemma publication_get_other entries : forall stamps acc k,
  (forall id d r n,
     In (id, d) entries -> In (r, n) stamps ->
     LinkEncoder.encode id r <> k) ->
  Obj.get k (publication entries stamps acc) = Obj.get k acc.
Proof.
  induction entries as [|[id0 d0] entries IH];
    intros [|[r0 n0] stamps] acc k H; cbn [publication]; auto.
  rewrite IH.
  - apply get_set_other. intros E. symmetry in E. revert E.
    apply (H id0 d0 r0 n0); now left.
  - intros id d r n Hi Hs. apply (H id d r n); now right.
Qed.

(** With ids that differ and full suffixes, every entry gone through
    is in the mapping under a key of its own, with its stream URL and
    title. *)
Lemma publication_carries entries : forall stamps acc id d,
  NoDup (map fst entries) ->
  Forall fullSuffix stamps ->
  List.length stamps = List.length entries ->
  In (id, d) entries ->
  exists rnd36 now,
    In (rnd36, now) stamps /\
    Obj.get (LinkEncoder.encode id rnd36) (publication entries stamps acc) =
      Some {| pub_url := streamUrl d; pub_title := title d;
              pub_updated := now |}.
Proof.
  induction entries as [|[id0 d0] entries IH];
    intros [|[r n] stamps] acc id d Hnd Hf Hl Hin; try discriminate; [easy|].
  cbn [publication]. cbn [map fst] in Hnd.
  apply NoDup_cons_iff in Hnd. destruct Hnd as [Hfresh Hnd].
  apply Forall_cons_iff in Hf. destruct Hf as [Hr Hf].
  destruct Hin as [E|Hin].
  - injection E as -> ->. exists r, n. split; [now left|].
    rewrite publication_get_other; [apply get_set_same|].
    intros id' d' r' n' Hi Hs E.
    assert (Hr' : fullSuffix (r', n'))
      by (rewrite Forall_forall in Hf; now apply Hf).
    apply (encode_injective _ _ _ _ Hr' Hr) in E. subst id'.
    apply Hfresh. change id with (fst (id, d')). now apply in_map.
  - destruct (IH stamps
                (Obj.set (LinkEncoder.encode id0 r)
                   (mkPublished (streamUrl d0) (title d0) n) acc)
                id d Hnd Hf) as (r' & n' & Hs & Hg);
      [now injection Hl | exact Hin |].
    exists r', n'. split; [now right | exact Hg].
Qed.

Lemma get_in_entries {V} (o : Obj.t V) k v :
  Obj.get k o = Some v -> In (k, v) (Obj.entries o).
Proof.
  unfold Obj.entries. induction o as [|[k' v'] o IH]; cbn [Obj.get];
    [discriminate|].
  destruct (String.eqb k' k) eqn:E.
  - apply String.eqb_eq in E. subst k'. intros H. injection H as ->.
    now left.
  - intros H. right. auto.
Qed.

Lemma res_eta {A} (r : Res A) :
  r = mkRes (completion r) (state r) (world r) (events r).
Proof. destruct r. reflexivity. Qed.

Lemma bind_yields {A B} (m : M A) (k : A -> M B) st w a st1 w1 ev c st2 w2
    ev2 :
  m st w = mkRes (Return a) st1 w1 ev ->
  k a st1 w1 = mkRes c st2 w2 ev2 ->
  bind m k st w = mkRes c st2 w2 (ev ++ ev2).
Proof. intros H1 H2. unfold bind. rewrite H1. cbn. now rewrite H2. Qed.

Lemma bind_yields_throw {A B} (m : M A) (k : A -> M B) st w e st1 w1 ev :
  m st w = mkRes (Throw e) st1 w1 ev ->
  bind m k st w = mkRes (Throw e) st1 w1 ev.
Proof. intros H1. unfold bind. now rewrite H1. Qed.

Lemma try_catch_yields_return {A} (m : M A) h st w a st1 w1 ev :
  m st w = mkRes (Return a) st1 w1 ev ->
  try_catch m h st w = mkRes (Return a) st1 w1 ev.
Proof. intros H. unfold try_catch. now rewrite H. Qed.

Lemma try_catch_yields_throw {A} (m : M A) h st w e st1 w1 ev c st2 w2 ev2 :
  m st w = mkRes (Throw e) st1 w1 ev ->
  h e st1 w1 = mkRes c st2 w2 ev2 ->
  try_catch m h st w = mkRes c st2 w2 (ev ++ ev2).
Proof. intros H1 H2. unfold try_catch. rewrite H1. cbn. now rewrite H2. Qed.

Lemma updateLinksFile_run st w :
  exists content,
    describes (linkDatabase st) content /\
    List.length (Obj.keys content) <=
      List.length (Obj.keys (linkDatabase st)) /\
    completion (for_of_with (Obj.entries (linkDatabase st)) Obj.empty
                  GitHubManager.publishEntry st w) = Return content /\
    let w1 :=
      world (for_of_with (Obj.entries (linkDatabase st)) Obj.empty
               GitHubManager.publishEntry st w) in
    let sha :=
      match github_get w1 (tick w1) with
      | Return file => Some (file_sha file)
      | Throw _ => None
      end in
    let written := github_put w1 (S (S (tick w1))) content sha in
    completion (GitHubManager.updateLinksFile st w) =
      Return match written with Return _ => true | Throw _ => false end /\
    state (GitHubManager.updateLinksFile st w) = st /\
    events (GitHubManager.updateLinksFile st w) =
      [GetContentRequest; PutContentRequest content sha;
       Log match written with
           | Return _ => GithubUpdated
           | Throw e => GithubUpdateFailed (error_message e)
           end].
Proof.
  destruct (@publishLoop_run (Obj.entries (linkDatabase st)) Obj.empty st w
              (linkDatabase st)) as (content & Hc & Hs & He & Hd & Hl).
  { intros k v H. discriminate. }
  { apply incl_refl. }
  exists content. split; [exact Hd|]. split.
  { unfold Obj.entries in Hl.
    change (Obj.keys (@Obj.empty Published)) with (@nil string) in Hl.
    cbn [List.length Nat.add] in Hl.
    unfold Obj.keys at 2. now rewrite length_map. }
  split; [exact Hc|].
  cbv zeta.
  set (loop := for_of_with (Obj.entries (linkDatabase st)) Obj.empty
                 GitHubManager.publishEntry st w) in *.
  set (w1 := world loop).
  assert (Hloop : loop = mkRes (Return content) st w1 []).
  { rewrite (res_eta loop), Hc, Hs, He. reflexivity. }
  set (sha := match github_get w1 (tick w1) with
              | Return file => Some (file_sha file)
              | Throw _ => None
              end).
  assert (Hget :
    try_catch (bind octokit_getContent (fun data => ret (Some (file_sha data))))
      (fun _ => ret None) st w1 =
    mkRes (Return sha) st (advance w1) [GetContentRequest]).
  { unfold try_catch, bind, octokit_getContent, external, ret, sha.
    cbn [completion state world events].
    destruct (github_get w1 (tick w1)); reflexivity. }
  assert (Hput :
    octokit_createOrUpdateFileContents content sha st (advance (advance w1)) =
    mkRes (github_put w1 (S (S (tick w1))) content sha) st
      (advance (advance (advance w1))) [PutContentRequest content sha])
    by reflexivity.
  assert (E : exists ev,
    GitHubManager.updateLinksFile st w =
    mkRes
      (Return match github_put w1 (S (S (tick w1))) content sha with
              | Return _ => true
              | Throw _ => false
              end)
      st (advance (advance (advance w1))) ev /\
    ev = [GetContentRequest; PutContentRequest content sha;
          Log match github_put w1 (S (S (tick w1))) content sha with
              | Return _ => GithubUpdated
              | Throw e => GithubUpdateFailed (error_message e)
              end]).
  { unfold GitHubManager.updateLinksFile.
    destruct (github_put w1 (S (S (tick w1))) content sha) as [[]|e].
    - eexists. split.
      + eapply try_catch_yields_return.
        eapply bind_yields; [reflexivity|].
        eapply bind_yields; [exact Hloop|].
        eapply bind_yields; [exact Hget|].
        eapply bind_yields; [reflexivity|].
        eapply bind_yields; [exact Hput|].
        eapply bind_yields; reflexivity.
      + reflexivity.
    - eexists. split.
      + eapply try_catch_yields_throw.
        * eapply bind_yields; [reflexivity|].
          eapply bind_yields; [exact Hloop|].
          eapply bind_yields; [exact Hget|].
          eapply bind_yields; [reflexivity|].
          eapply bind_yields_throw. exact Hput.
        * eapply bind_yields; reflexivity.
      + reflexivity. }
  destruct E as (ev & -> & ->). repeat split.
Qed.

(** X8: [updateLinksFile] never throws and leaves the module state as
    it was.  It reads [links.json] once and writes it once, whatever
    the read gave: the write carries the sha that was read, or none when
    the read failed (the file is then created).  It returns [true]
    exactly when the write succeeds, logging the success, and [false]
    with the failure logged otherwise.  The mapping written has at most
    one key per registry entry, and each key is the encoding of the id
    of a registry entry and carries that entry's stream URL and
    title. *)
Theorem updateLinksFile_writes_once : forall st w,
  exists content sha ok,
    completion (GitHubManager.updateLinksFile st w) = Return ok /\
    state (GitHubManager.updateLinksFile st w) = st /\
    filter isOutgoing (events (GitHubManager.updateLinksFile st w)) =
      [GetContentRequest; PutContentRequest content sha] /\
    (let w1 :=
       world (for_of_with (Obj.entries (linkDatabase st)) Obj.empty
                GitHubManager.publishEntry st w) in
     sha = match github_get w1 (tick w1) with
           | Return file => Some (file_sha file)
           | Throw _ => None
           end /\
     (ok = true <->
      github_put w1 (S (S (tick w1))) content sha = Return tt) /\
     (In (Log GithubUpdated) (events (GitHubManager.updateLinksFile st w)) <->
      ok = true)) /\
    describes (linkDatabase st) content /\
    List.length (Obj.keys content) <=
      List.length (Obj.keys (linkDatabase st)).
Proof.
  intros st w.
  destruct (updateLinksFile_run st w) as (content & Hd & Hl & _ & H).
  cbv zeta in H. destruct H as (Hc & Hs & He).
  set (w1 := world (for_of_with (Obj.entries (linkDatabase st)) Obj.empty
                      GitHubManager.publishEntry st w)) in *.
  set (sha := match github_get w1 (tick w1) with
              | Return file => Some (file_sha file)
              | Throw _ => None
              end) in *.
  exists content, sha. eexists. split; [exact Hc|]. split; [exact Hs|].
  rewrite He. split; [reflexivity|]. split; [|auto].
  cbv zeta. fold w1. split; [reflexivity|].
  destruct (github_put w1 (S (S (tick w1))) content sha) as [[]|e].
  - split; [tauto|]. split; [reflexivity|]. intros _. cbn. auto.
  - split; [split; discriminate|]. split; [|discriminate].
    intros [H|[H|[H|[]]]]; discriminate.
Qed.

(** ** The cycle: what it emits *)

Lemma refreshAllLinks_events st w :
  isRefreshing st = false ->
  events (refreshAllLinks st w) =
  Log RefreshStarting ::
  events (refreshBody (clock w (tick w)) (set_isRefreshing true st)
            (advance w)).
Proof.
  intros Hg.
  destruct (refreshBody_runs (clock w (tick w)) (set_isRefreshing true st)
              (advance w)) as (st' & w' & R & _).
  unfold refreshAllLinks.
  rewrite (bind_events _ (runs_gets isRefreshing st w)). cbv beta.
  rewrite Hg.
  rewrite (bind_events _ (runs_modify (set_isRefreshing true) st w)).
  rewrite (bind_events _ (runs_Date_now (set_isRefreshing true st) w)).
  rewrite (bind_events _ (runs_emit (Log RefreshStarting)
                            (set_isRefreshing true st) (advance w))).
  unfold try_finally. cbn [events].
  rewrite (try_catch_events _ R). cbn [gets modify Date_now external emit
                                       events List.app].
  now rewrite app_nil_r.
Qed.

Lemma prunePhase_events p bl st w :
  filter p
    (events
       ((if (0 <? List.length bl)%nat then
           bind (LogCollector.sendBrokenLinksLog bl)
             (fun _ => removeBrokenLinks bl)
         else ret tt) st w)) =
  match bl with
  | [] => []
  | _ => filter p [Log (BrokenLinksDetected bl)]
  end.
Proof.
  destruct bl as [|l bl]; [reflexivity|].
  cbn [List.length Nat.ltb Nat.leb].
  destruct (runs_readonly st w (sendBrokenLinksLog_returns (l :: bl))
              (sendBrokenLinksLog_preserves _ (l :: bl))) as ([] & R).
  rewrite (bind_events _ R), filter_app, removeBrokenLinks_quiet, app_nil_r.
  reflexivity.
Qed.

(** The events of the [try] block, seen through a filter that lets no
    request of the health and re-resolution phases and no summary
    through: what is left comes from the notification and from the
    publication of the registry as the cycle leaves it. *)
Lemma refreshBody_filtered p startTime st w :
  (forall u t, p (HeadRequest u t) = false) ->
  (forall u, p (GetInfoRequest u) = false) ->
  (forall m, p (Log (ConversionFailed m)) = false) ->
  (forall a b t d, p (Log (RefreshComplete a b t d)) = false) ->
  exists bl rs w3,
    completion (LinkHealthChecker.checkAllLinks st w) = Return (bl, rs) /\
    filter p (events (refreshBody startTime st w)) =
      match bl with
      | [] => []
      | _ => filter p [Log (BrokenLinksDetected bl)]
      end ++
      filter p
        (events (GitHubManager.updateLinksFile
                   (state (refreshBody startTime st w)) w3)).
Proof.
  intros Hhead Hinfo Hconv Hsum.
  destruct (checkLoop_broken (Obj.entries (linkDatabase st)) []
              (mkResults 0 0 0 [] None) st w) as (bl & rs & R1 & _).
  cbn [List.app] in R1.
  assert (R1' : runs LinkHealthChecker.checkAllLinks st w (bl, rs) st
                  (worldAfter (Obj.entries (linkDatabase st)) st w)).
  { unfold LinkHealthChecker.checkAllLinks.
    eapply runs_bind; [apply runs_gets|]. exact R1. }
  destruct (prunePhase_runs bl st
              (worldAfter (Obj.entries (linkDatabase st)) st w))
    as (w2 & R2).
  set (st2 := set_linkDatabase (prune (map broken_id bl) (linkDatabase st)) st)
    in *.
  destruct (refreshActiveLinks_runs st2 w2) as (db3 & w3 & R3 & K3).
  set (st3 := set_linkDatabase db3 st2) in *.
  destruct (runs_readonly st3 w3 updateLinksFile_returns
              (updateLinksFile_preserves _)) as (ok & R4).
  set (w4 := world (GitHubManager.updateLinksFile st3 w3)) in *.
  destruct (runs_readonly st3 (advance w4)
              (generateRefreshLog_returns
                 (with_duration (clock w4 (tick w4) - startTime) rs))
              (generateRefreshLog_preserves _ _)) as ([] & R5).
  assert (Rall : runs (refreshBody startTime) st w tt st3
                   (world (LogCollector.generateRefreshLog
                             (with_duration (clock w4 (tick w4) - startTime) rs)
                             st3 (advance w4)))).
  { unfold refreshBody.
    eapply runs_bind; [exact R1'|]. cbv beta iota.
    eapply runs_bind; [exact R2|].
    eapply runs_bind; [exact R3|].
    eapply runs_bind; [exact R4|].
    eapply runs_bind; [apply runs_Date_now|].
    exact R5. }
  exists bl, rs, w3. split; [apply R1'|].
  destruct Rall as (_ & -> & _).
  unfold refreshBody.
  rewrite (bind_events _ R1'). cbv beta iota.
  rewrite (bind_events _ R2).
  rewrite (bind_events _ R3).
  rewrite (bind_events _ R4).
  rewrite (bind_events _ (runs_Date_now st3 w4)).
  rewrite !filter_app.
  rewrite (@checkAllLinks_quiet p Hhead).
  rewrite (@prunePhase_events p bl st _).
  rewrite (@refreshActiveLinks_quiet p Hinfo Hconv).
  rewrite (@generateRefreshLog_quiet p _ Hsum).
  cbn [Date_now external events filter List.app].
  now rewrite !app_nil_r.
Qed.

Lemma verdict_false_inv pre d st w :
  verdict d st (worldAfter pre st w) = false -> failsHealthCheck pre d st w.
Proof.
  unfold verdict, failsHealthCheck, returned, Js.truthy.
  destruct (streamUrl d) as [url|]; [|auto].
  destruct (Js.truthy_string url); [|auto]. cbn [andb].
  rewrite <- probeAfter_eq.
  destruct (completion (probeAfter pre url st w)) as [h|e] eqn:E.
  - intros H. right. exists url, h. auto.
  - exfalso. rewrite probeAfter_eq in E.
    destruct (checkLink_returns url st (worldAfter pre st w)) as [h Hh].
    congruence.
Qed.

(** X9: a cycle that runs emits the broken-links notification at most
    once: not at all when the health phase found every entry active,
    and otherwise once, as one batch that lists the broken links the
    health phase returned; these are the entries that had no stream URL
    or whose probe was not active. *)
Theorem cycle_notifies_in_one_batch : forall st w,
  isRefreshing st = false ->
  exists brokenLinks results,
    completion (LinkHealthChecker.checkAllLinks (set_isRefreshing true st)
                  (advance w)) = Return (brokenLinks, results) /\
    filter isBrokenNotice (events (refreshAllLinks st w)) =
      match brokenLinks with
      | [] => []
      | _ => [Log (BrokenLinksDetected brokenLinks)]
      end /\
    forall id,
      In id (map broken_id brokenLinks) <->
      exists pre d suf,
        linkDatabase st = pre ++ (id, d) :: suf /\
        failsHealthCheck pre d (set_isRefreshing true st) (advance w).
Proof.
  intros st w Hg.
  set (st1 := set_isRefreshing true st). set (w1 := advance w).
  destruct (@refreshBody_filtered isBrokenNotice (clock w (tick w)) st1 w1)
    as (bl & rs & w3 & Hc & Hf); try reflexivity.
  destruct (checkLoop_broken (Obj.entries (linkDatabase st1)) []
              (mkResults 0 0 0 [] None) st1 w1) as (bl' & rs' & R1 & Hbl).
  cbn [List.app] in R1.
  assert (R1' : runs LinkHealthChecker.checkAllLinks st1 w1 (bl', rs') st1
                  (worldAfter (Obj.entries (linkDatabase st1)) st1 w1)).
  { unfold LinkHealthChecker.checkAllLinks.
    eapply runs_bind; [apply runs_gets|]. exact R1. }
  destruct R1' as (Hc' & _). rewrite Hc in Hc'. injection Hc' as <- <-.
  exists bl, rs. split; [exact Hc|]. split.
  - rewrite (@refreshAllLinks_events st w Hg). cbn [filter isBrokenNotice].
    fold st1 w1. rewrite Hf.
    destruct (updateLinksFile_run
                (state (refreshBody (clock w (tick w)) st1 w1)) w3)
      as (content & _ & _ & _ & H).
    cbv zeta in H. destruct H as (_ & _ & He). rewrite He.
    match goal with
    | |- context [github_put ?a ?b ?c ?d] =>
        destruct (github_put a b c d) as [[]|?]
    end; cbn [filter isBrokenNotice]; rewrite app_nil_r;
      destruct bl; reflexivity.
  - intros id. rewrite Hbl. unfold Obj.entries.
    change (linkDatabase st1) with (linkDatabase st).
    split; intros (pre & d & suf & E & H); exists pre, d, suf;
      (split; [exact E|]).
    + now apply verdict_false_inv.
    + now apply verdict_false.
Qed.

Lemma cycle_notifies_in_one_batch_witness :
  isRefreshing demoState = false /\
  exists brokenLinks results,
    completion (LinkHealthChecker.checkAllLinks
                  (set_isRefreshing true demoState)
                  (advance (demoWorld 0))) = Return (brokenLinks, results) /\
    filter isBrokenNotice (events (refreshAllLinks demoState (demoWorld 0))) =
      match brokenLinks with
      | [] => []
      | _ => [Log (BrokenLinksDetected brokenLinks)]
      end /\
    forall id,
      In id (map broken_id brokenLinks) <->
      exists pre d suf,
        linkDatabase demoState = pre ++ (id, d) :: suf /\
        failsHealthCheck pre d (set_isRefreshing true demoState)
          (advance (demoWorld 0)).
Proof.
  split; [reflexivity|].
  exact (@cycle_notifies_in_one_batch demoState (demoWorld 0) eq_refl).
Defined.

(** What a cycle that runs to its end in one go writes to GitHub: once,
    after pruning and re-resolution, the publication of the registry
    as it leaves it. *)
Lemma refreshAllLinks_publishes_final_registry : forall st w,
  isRefreshing st = false ->
  let final := linkDatabase (state (refreshAllLinks st w)) in
  exists content sha stamps,
    filter isPutRequest (events (refreshAllLinks st w)) =
      [PutContentRequest content sha] /\
    List.length stamps = List.length (Obj.entries final) /\
    content = publication (Obj.entries final) stamps Obj.empty /\
    (forall id, In id (Obj.keys final) ->
       exists rnd36, In (LinkEncoder.encode id rnd36) (Obj.keys content)) /\
    describes final content /\
    List.length (Obj.keys content) <= List.length (Obj.keys final) /\
    (Obj.wf final -> forallb isAscii (Obj.keys final) = true ->
     Forall fullSuffix stamps ->
     forall id d, Obj.get id final = Some d ->
       exists rnd36 now,
         In (rnd36, now) stamps /\
         Obj.get (LinkEncoder.encode id rnd36) content =
           Some {| pub_url := streamUrl d; pub_title := title d;
                   pub_updated := now |}).
Proof.
  intros st w Hg final.
  set (st1 := set_isRefreshing true st). set (w1 := advance w).
  destruct (@refreshBody_filtered isPutRequest (clock w (tick w)) st1 w1)
    as (bl & rs & w3 & Hc & Hf); try reflexivity.
  destruct (refreshBody_runs (clock w (tick w)) st1 w1)
    as (st' & w' & R & _).
  pose proof (refreshAllLinks_runs Hg R) as (_ & Rs & _).
  destruct R as (_ & Rs' & _).
  destruct (updateLinksFile_run
              (state (refreshBody (clock w (tick w)) st1 w1)) w3)
    as (content & Hd & Hl & Hloop & H).
  cbv zeta in H. destruct H as (_ & _ & He).
  destruct (publishLoop_exact
              (Obj.entries
                 (linkDatabase
                    (state (refreshBody (clock w (tick w)) st1 w1))))
              Obj.empty (state (refreshBody (clock w (tick w)) st1 w1)) w3)
    as (stamps & Hlen & Hexact).
  rewrite Hloop in Hexact. injection Hexact as Hexact.
  assert (Ef : final =
               linkDatabase (state (refreshBody (clock w (tick w)) st1 w1))).
  { unfold final. rewrite Rs, <- Rs'. reflexivity. }
  rewrite Ef. clearbody final. clear Ef.
  set (db := linkDatabase (state (refreshBody (clock w (tick w)) st1 w1)))
    in *.
  exists content, (match github_get (world (for_of_with (Obj.entries db)
                                              Obj.empty
                                              GitHubManager.publishEntry
                                              (state (refreshBody
                                                        (clock w (tick w))
                                                        st1 w1)) w3))
                           (tick (world (for_of_with (Obj.entries db)
                                           Obj.empty
                                           GitHubManager.publishEntry
                                           (state (refreshBody
                                                     (clock w (tick w))
                                                     st1 w1)) w3))) with
                   | Return file => Some (file_sha file)
                   | Throw _ => None
                   end), stamps.
  split; [|split; [exact Hlen|split; [exact Hexact|split; [|split;
           [exact Hd|split; [exact Hl|]]]]]].
  - rewrite (@refreshAllLinks_events st w Hg). cbn [filter isPutRequest].
    fold st1 w1. rewrite Hf, He. cbn [filter isPutRequest].
    destruct bl; reflexivity.
  - intros id Hin. rewrite Hexact. unfold Obj.keys in Hin.
    apply in_map_iff in Hin. destruct Hin as ([id' d] & E & Hin).
    cbn in E. subst id'.
    apply (publication_covers _ _ _ id d Hlen Hin).
  - intros Hwf _ Hfull id d Hget. rewrite Hexact.
    apply publication_carries; auto.
    apply get_in_entries. exact Hget.
Qed.

(** X11: whether it runs or is skipped, a call of [refreshAllLinks]
    returns normally, never adds a key to the registry, and leaves the
    pending uploads, the timer handle, the registered timeouts and the
    configuration as they were. *)
Theorem cycle_only_removes : forall st w,
  completion (refreshAllLinks st w) = Return tt /\
  incl (Obj.keys (linkDatabase (state (refreshAllLinks st w))))
       (Obj.keys (linkDatabase st)) /\
  pendingUploads (state (refreshAllLinks st w)) = pendingUploads st /\
  refreshTimer (state (refreshAllLinks st w)) = refreshTimer st /\
  timeouts (state (refreshAllLinks st w)) = timeouts st /\
  nextHandle (state (refreshAllLinks st w)) = nextHandle st /\
  CONFIG (state (refreshAllLinks st w)) = CONFIG st.
Proof.
  intros st w. split; [|split].
  - destruct (isRefreshing st) eqn:Hg.
    + now rewrite (refresh_skipped st w Hg).
    + destruct (refreshBody_runs (clock w (tick w)) (set_isRefreshing true st)
                  (advance w)) as (st' & w' & R & _).
      apply (refreshAllLinks_runs Hg R).
  - destruct (isRefreshing st) eqn:Hg.
    + rewrite (refresh_skipped st w Hg). apply incl_refl.
    + destruct (refreshBody_runs (clock w (tick w)) (set_isRefreshing true st)
                  (advance w)) as (st' & w' & R & _ & _ & Hk).
      destruct (refreshAllLinks_runs Hg R) as (_ & -> & _).
      intros id Hin. apply Hk in Hin. apply Hin.
  - repeat split.
    + now apply (refreshAllLinks_preserves pendingUploads).
    + now apply (refreshAllLinks_preserves refreshTimer).
    + now apply (refreshAllLinks_preserves timeouts).
    + now apply (refreshAllLinks_preserves nextHandle).
    + now apply (refreshAllLinks_preserves CONFIG).
Qed.

(** ** The debounce timer *)

Lemma timerInvariant_view st st' :
  timerView st' = timerView st -> timerInvariant st -> timerInvariant st'.
Proof.
  unfold timerView, timerInvariant. intros [= -> -> -> ->]. auto.
Qed.

Lemma scheduleBatchUpload_rearms st w :
  timerInvariant st ->
  exists st',
    runs scheduleBatchUpload st w tt st' w /\
    refreshTimer st' = Some (nextHandle st) /\
    timeouts st' =
      [mkTimeout (nextHandle st)
         (BATCH_WINDOW_MINUTES (CONFIG st) * 60 * 1000)] /\
    nextHandle st' = S (nextHandle st) /\
    CONFIG st' = CONFIG st /\
    pendingUploads st' = pendingUploads st /\
    linkDatabase st' = linkDatabase st /\
    isRefreshing st' = isRefreshing st.
Proof.
  intros (Hin & Hlen & _). unfold scheduleBatchUpload.
  destruct (refreshTimer st) as [h|] eqn:E.
  - eexists. split.
    + eapply runs_bind; [apply runs_gets|]. cbv beta. rewrite E.
      eapply runs_bind; [apply runs_modify|].
      eapply runs_bind; [apply runs_gets|].
      eapply runs_bind.
      { unfold setTimeout. eapply runs_bind; [apply runs_gets|].
        eapply runs_bind; [apply runs_modify|]. apply runs_ret. }
      apply runs_modify.
    + cbn. repeat split.
      assert (F : filter (fun t => negb (Nat.eqb (handle t) h)) (timeouts st)
                  = []).
      { destruct (timeouts st) as [|t ts]; [reflexivity|].
        destruct ts; [|cbn in Hlen; lia].
        destruct (Hin t (or_introl eq_refl)) as [[= ->] _].
        cbn. now rewrite Nat.eqb_refl. }
      now rewrite F.
  - eexists. split.
    + eapply runs_bind; [apply runs_gets|]. cbv beta. rewrite E.
      eapply runs_bind; [apply runs_ret|].
      eapply runs_bind; [apply runs_gets|].
      eapply runs_bind.
      { unfold setTimeout. eapply runs_bind; [apply runs_gets|].
        eapply runs_bind; [apply runs_modify|]. apply runs_ret. }
      apply runs_modify.
    + cbn. repeat split.
      destruct (timeouts st) as [|t ts]; [reflexivity|].
      destruct (Hin t (or_introl eq_refl)) as [[=] _].
Qed.

Lemma timerInvariant_rearmed st st' :
  refreshTimer st' = Some (nextHandle st) ->
  timeouts st' =
    [mkTimeout (nextHandle st)
       (BATCH_WINDOW_MINUTES (CONFIG st) * 60 * 1000)] ->
  nextHandle st' = S (nextHandle st) ->
  CONFIG st' = CONFIG st ->
  timerInvariant st'.
Proof.
  intros T O N C. unfold timerInvariant. rewrite T, O, N, C.
  split; [|split].
  - intros t [<-|[]]. auto.
  - cbn. lia.
  - intros h [= <-]. lia.
Qed.

(** The state in which an accepted upload request leaves the timers. *)
Lemma uploadRoute_accepted_timers req urls st w :
  authorized (CONFIG st) req = true -> links req = Some urls ->
  timerInvariant st ->
  refreshTimer (state (uploadRoute req st w)) = Some (nextHandle st) /\
  timeouts (state (uploadRoute req st w)) =
    [mkTimeout (nextHandle st)
       (BATCH_WINDOW_MINUTES (CONFIG st) * 60 * 1000)] /\
  nextHandle (state (uploadRoute req st w)) = S (nextHandle st) /\
  CONFIG (state (uploadRoute req st w)) = CONFIG st /\
  linkDatabase (state (uploadRoute req st w)) = linkDatabase st /\
  isRefreshing (state (uploadRoute req st w)) = isRefreshing st.
Proof.
  intros A L Hinv.
  destruct (uploadLoop_appends urls [] st w)
    as (results & added & w1 & R1 & _).
  cbn [List.app] in R1.
  set (st1 := set_pendingUploads (pendingUploads st ++ added) st) in R1.
  assert (Hinv1 : timerInvariant st1) by exact Hinv.
  destruct (@scheduleBatchUpload_rearms st1 w1 Hinv1)
    as (st2 & R2 & T2 & O2 & N2 & C2 & _ & D2 & G2).
  assert (R : exists resp, runs (uploadRoute req) st w resp st2 w1).
  { eexists. unfold uploadRoute. apply runs_try_catch.
    eapply runs_bind; [apply runs_gets|]. cbv beta.
    unfold authorized in A. rewrite A, L. cbn [negb].
    eapply runs_bind; [exact R1|].
    eapply runs_bind; [exact R2|].
    apply runs_ret. }
  destruct R as (resp & _ & -> & _).
  repeat split; assumption.
Qed.

Lemma uploadRoute_timers req st w :
  timerInvariant st -> timerInvariant (state (uploadRoute req st w)).
Proof.
  intros Hinv.
  destruct (authorized (CONFIG st) req) eqn:A.
  2:{ unfold uploadRoute.
      rewrite try_catch_returned
        with (a := mkResponse 401 (ErrorBody "Invalid password" None));
        rewrite bind_gets; unfold authorized in A; rewrite A;
        [exact Hinv | reflexivity]. }
  destruct (links req) as [urls|] eqn:L.
  2:{ unfold uploadRoute.
      rewrite try_catch_returned
        with (a := mkResponse 400 (ErrorBody "Links array required" None));
        rewrite bind_gets; unfold authorized in A; rewrite A, L;
        [exact Hinv | reflexivity]. }
  destruct (@uploadRoute_accepted_timers req urls st w A L Hinv)
    as (T & O & N & C & _).
  eapply timerInvariant_rearmed; eassumption.
Qed.

Section TimerFrame.

Context {X : Type} (f : State -> X).
Hypothesis f_pendingUploads : forall v st, f (set_pendingUploads v st) = f st.
Hypothesis f_linkDatabase : forall db st, f (set_linkDatabase db st) = f st.
Hypothesis f_isRefreshing : forall b st, f (set_isRefreshing b st) = f st.

(** Admitting the pending uploads and running the cycle touches the
    pending uploads, the registry and the guard only. *)
Lemma batchTimerCallback_preserves : preserves f batchTimerCallback.
Proof.
  unfold batchTimerCallback.
  apply preserves_bind; [auto with js|]. intros pending.
  destruct (0 <? List.length pending)%nat; [|auto with js].
  apply preserves_bind; [auto with js|]. intros _.
  apply preserves_bind; [now apply preserves_modify|]. intros _.
  apply preserves_bind.
  - apply preserves_for_of. intros u. apply preserves_modify.
    intros st. apply f_linkDatabase.
  - intros _. now apply refreshAllLinks_preserves.
Qed.

End TimerFrame.

Lemma fireTimeout_run h st w :
  fireTimeout h st w =
  if existsb (fun t => Nat.eqb (handle t) h) (timeouts st) then
    bind (clearTimeout h) (fun _ => batchTimerCallback) st w
  else mkRes (Return tt) st w [].
Proof.
  unfold fireTimeout. rewrite bind_gets.
  destruct (existsb _ (timeouts st)); reflexivity.
Qed.

Lemma handleTrigger_timers t st w :
  timerInvariant st -> timerInvariant (state (handleTrigger t st w)).
Proof.
  intros Hinv. destruct t as [req|helpers|h|]; unfold handleTrigger.
  - destruct (uploadRoute_returns req st w) as [resp Hc].
    rewrite (bind_returns _ _ _ _ Hc). cbn [completion state world events ret].
    now apply uploadRoute_timers.
  - unfold express, try_catch, bind. rewrite statusRoute_run.
    cbn [completion state world events ret]. exact Hinv.
  - rewrite fireTimeout_run.
    destruct (existsb _ (timeouts st)); [|exact Hinv].
    set (st1 := set_timeouts
                  (filter (fun t => negb (Nat.eqb (handle t) h)) (timeouts st))
                  (nextHandle st) st).
    assert (Hinv1 : timerInvariant st1).
    { destruct Hinv as (Hin & Hlen & Hlt). split; [|split].
      - intros t Ht. cbn in Ht. apply filter_In in Ht. apply Hin, Ht.
      - cbn. pose proof (filter_length_le
                           (fun t => negb (Nat.eqb (handle t) h)) (timeouts st)).
        lia.
      - exact Hlt. }
    assert (R : runs (clearTimeout h) st w tt st1 w) by apply runs_modify.
    destruct R as (Rc & Rs & Rw).
    rewrite (bind_returns _ _ _ _ Rc). cbn [state]. rewrite Rs, Rw.
    apply (@timerInvariant_view st1); [|exact Hinv1]. unfold timerView.
    rewrite (batchTimerCallback_preserves refreshTimer),
      (batchTimerCallback_preserves timeouts),
      (batchTimerCallback_preserves nextHandle),
      (batchTimerCallback_preserves CONFIG); reflexivity.
  - unfold scheduledRefresh.
    assert (R : runs (emit (Log ScheduledRefresh)) st w tt st w)
      by apply runs_emit.
    destruct R as (Rc & Rs & Rw).
    rewrite (bind_returns _ _ _ _ Rc). cbn [state]. rewrite Rs, Rw.
    apply (@timerInvariant_view st); [|exact Hinv]. unfold timerView.
    rewrite (refreshAllLinks_preserves refreshTimer),
      (refreshAllLinks_preserves timeouts),
      (refreshAllLinks_preserves nextHandle),
      (refreshAllLinks_preserves CONFIG); reflexivity.
Qed.

Lemma serve_timers ts : forall st w,
  timerInvariant st -> timerInvariant (state (serve ts st w)).
Proof.
  unfold serve. induction ts as [|t ts IH]; intros st w Hinv.
  - exact Hinv.
  - cbn [for_of]. unfold bind.
    destruct (completion (handleTrigger t st w)) eqn:E; cbn [state].
    + apply IH. now apply handleTrigger_timers.
    + now apply handleTrigger_timers.
Qed.

Lemma initialState_timers cfg : timerInvariant (initialState cfg).
Proof.
  split; [|split]; cbn; [intros t []|lia|discriminate].
Qed.

(** X12: the debounce discipline is an invariant of the server.  After
    any sequence of requests, timeouts and cron ticks, at most one
    timeout is registered; if there is one, it is the timer that
    [refreshTimer] holds and its delay is the batch window; and every
    handle ever stored in [refreshTimer] is older than the next handle
    to be handed out. *)
Theorem single_outstanding_timer : forall ts cfg w,
  timerInvariant (state (serve ts (initialState cfg) w)).
Proof.
  intros ts cfg w. apply serve_timers, initialState_timers.
Qed.

Lemma serve_keeps_wf ts : forall st w,
  Obj.wf (linkDatabase st) -> isRefreshing st = false ->
  completion (serve ts st w) = Return tt /\
  Obj.wf (linkDatabase (state (serve ts st w))) /\
  isRefreshing (state (serve ts st w)) = false.
Proof.
  unfold serve. induction ts as [|t ts IH]; intros st w Hwf Hg.
  - cbn. auto.
  - destruct (@handleTrigger_invariant t st w Hwf Hg) as (Hc & Hw & Hr).
    cbn [for_of]. rewrite (bind_returns _ _ _ _ Hc).
    cbn [completion state world events]. apply IH; assumption.
Qed.

(** X13: debouncing.  On a server whose [refreshTimer] holds the handle
    [h] of an earlier upload, accepting another upload leaves exactly
    one timeout registered, the new one.  The earlier timeout is dead:
    if [h] fires afterwards nothing at all happens.  When the new
    timeout fires, it leaves the table and the pending uploads are
    taken off the queue. *)
Theorem later_upload_replaces_timer : forall ts cfg w0 urls w h w',
  refreshTimer (state (serve ts (initialState cfg) w0)) = Some h ->
  let st := state (serve ts (initialState cfg) w0) in
  let st' :=
    state (uploadRoute
             (mkUploadBody (Some urls) (Some (API_PASSWORD (CONFIG st))))
             st w) in
  timeouts st' =
    [mkTimeout (nextHandle st)
       (BATCH_WINDOW_MINUTES (CONFIG st) * 60 * 1000)] /\
  fireTimeout h st' w' = mkRes (Return tt) st' w' [] /\
  completion (fireTimeout (nextHandle st) st' w') = Return tt /\
  timeouts (state (fireTimeout (nextHandle st) st' w')) = [] /\
  pendingUploads (state (fireTimeout (nextHandle st) st' w')) = [].
Proof.
  intros ts cfg w0 urls w h w' Hh st st'.
  assert (Hinv : timerInvariant st)
    by apply serve_timers, initialState_timers.
  destruct (@serve_keeps_wf ts (initialState cfg) w0) as (_ & Hwf & Hg);
    [constructor | reflexivity |]. fold st in Hwf, Hg.
  destruct (@uploadRoute_accepted_timers
              (mkUploadBody (Some urls) (Some (API_PASSWORD (CONFIG st))))
              urls st w) as (T & O & N & C & D & G); auto.
  { unfold authorized. cbn [password]. apply String.eqb_refl. }
  fold st' in T, O, N, C, D, G.
  destruct Hinv as (_ & _ & Hlt). specialize (Hlt h Hh).
  split; [exact O|]. split.
  - rewrite fireTimeout_run, O. cbn [existsb handle].
    replace (Nat.eqb (nextHandle st) h) with false
      by (symmetry; apply Nat.eqb_neq; lia).
    reflexivity.
  - rewrite fireTimeout_run, O. cbn [existsb handle].
    rewrite Nat.eqb_refl. cbn [orb].
    set (st1 := set_timeouts
                  (filter (fun t => negb (Nat.eqb (handle t) (nextHandle st)))
                     (timeouts st')) (nextHandle st') st').
    assert (R : runs (clearTimeout (nextHandle st)) st' w' tt st1 w')
      by apply runs_modify.
    destruct R as (Rc & Rs & Rw).
    rewrite (bind_returns _ _ _ _ Rc). cbn [completion state]. rewrite Rs, Rw.
    destruct (@batchTimerCallback_keeps_wf st1 w') as (Bc & _ & Bp & _).
    { change (linkDatabase st1) with (linkDatabase st'). now rewrite D. }
    split; [exact Bc|]. split; [|exact Bp].
    rewrite (batchTimerCallback_preserves timeouts) by reflexivity.
    subst st1. cbn [timeouts set_timeouts]. rewrite O.
    cbn [filter handle]. now rewrite Nat.eqb_refl.
Qed.

Lemma later_upload_replaces_timer_witness :
  refreshTimer
    (state (serve [UploadRequest (demoUpload ["u:a"])]
              (initialState demoConfig) (demoWorld 1000))) = Some 0%nat /\
  fireTimeout 0
    (state (uploadRoute
              (mkUploadBody (Some ["u:b"])
                 (Some (API_PASSWORD
                          (CONFIG (state (serve
                                            [UploadRequest (demoUpload ["u:a"])]
                                            (initialState demoConfig)
                                            (demoWorld 1000)))))))
              (state (serve [UploadRequest (demoUpload ["u:a"])]
                        (initialState demoConfig) (demoWorld 1000)))
              (demoWorld 1000)))
    (demoWorld 1000) =
  mkRes (Return tt)
    (state (uploadRoute
              (mkUploadBody (Some ["u:b"])
                 (Some (API_PASSWORD
                          (CONFIG (state (serve
                                            [UploadRequest (demoUpload ["u:a"])]
                                            (initialState demoConfig)
                                            (demoWorld 1000)))))))
              (state (serve [UploadRequest (demoUpload ["u:a"])]
                        (initialState demoConfig) (demoWorld 1000)))
              (demoWorld 1000)))
    (demoWorld 1000) [].
Proof.
  split; [vm_compute; reflexivity|].
  apply (@later_upload_replaces_timer
           [UploadRequest (demoUpload ["u:a"])] demoConfig (demoWorld 1000)
           ["u:b"] (demoWorld 1000) 0%nat (demoWorld 1000)).
  vm_compute. reflexivity.
Defined.

(** ** Link ids *)

Lemma prefix_append p : forall s, String.prefix p (p ++ s)%string = true.
Proof.
  induction p as [|c p IH]; intros s; cbn.
  - now destruct s.
  - destruct (ascii_dec c c); [apply IH | congruence].
Qed.

Lemma append_cancel p : forall a b, (p ++ a = p ++ b)%string -> a = b.
Proof.
  induction p as [|c p IH]; intros a b H; cbn in H; [exact H|].
  injection H as H. now apply IH.
Qed.

Lemma length_append_string a : forall b,
  String.length (a ++ b)%string = (String.length a + String.length b)%nat.
Proof. induction a as [|c a IH]; intros b; cbn; [reflexivity | now rewrite IH]. Qed.

Lemma length_repeat_char c n : String.length (Js.repeat_char c n) = n.
Proof. induction n as [|n IH]; cbn; [reflexivity | now rewrite IH]. Qed.

Lemma uint_of_string_zeros k : forall s,
  option_map Nat.of_uint
    (NilEmpty.uint_of_string (Js.repeat_char "0" k ++ s)%string) =
  option_map Nat.of_uint (NilEmpty.uint_of_string s).
Proof.
  induction k as [|k IH]; intros s; [reflexivity|].
  change (NilEmpty.uint_of_string (Js.repeat_char "0" (S k) ++ s)%string)
    with (uint_of_char "0"
            (NilEmpty.uint_of_string (Js.repeat_char "0" k ++ s)%string)).
  rewrite <- (IH s).
  destruct (NilEmpty.uint_of_string (Js.repeat_char "0" k ++ s)%string)
    as [d|]; reflexivity.
Qed.

Lemma string_of_nat_nonempty n : Js.String_of_nat n <> ""%string.
Proof.
  unfold Js.String_of_nat. intros H.
  assert (E := NilEmpty.usu (Nat.to_uint n)). rewrite H in E. cbn in E.
  injection E as E.
  assert (F := DecimalNat.Unsigned.of_to n). rewrite <- E in F. cbn in F.
  subst n. discriminate H.
Qed.

Lemma linkNumber_padStart n :
  linkNumber (Js.padStart 3 "0" (Js.String_of_nat n)) = Some n.
Proof.
  unfold linkNumber, Js.padStart.
  destruct (Js.repeat_char "0" (3 - String.length (Js.String_of_nat n)) ++
            Js.String_of_nat n)%string eqn:E.
  - exfalso. apply (f_equal String.length) in E.
    rewrite length_append_string in E. cbn in E.
    assert (H := @string_of_nat_nonempty n).
    destruct (Js.String_of_nat n); [congruence | cbn in E; lia].
  - rewrite <- E, uint_of_string_zeros. unfold Js.String_of_nat.
    rewrite NilEmpty.usu. cbn [option_map].
    now rewrite DecimalNat.Unsigned.of_to.
Qed.

Lemma linkIdOf_injective type n m :
  linkIdOf type n = linkIdOf type m -> n = m.
Proof.
  unfold linkIdOf. intros H. apply append_cancel in H.
  apply (f_equal linkNumber) in H. rewrite !linkNumber_padStart in H.
  congruence.
Qed.

Lemma string_of_nat_short n :
  (n <= 999)%nat -> (String.length (Js.String_of_nat n) <= 3)%nat.
Proof.
  intros Hn.
  assert (B : forallb (fun k => Nat.leb (String.length (Js.String_of_nat k)) 3)
                (seq 0 1000) = true) by (vm_compute; reflexivity).
  rewrite forallb_forall in B.
  apply Nat.leb_le, B, in_seq. lia.
Qed.

(** X14: the shape of a generated id.  [generateLinkId] reads the
    registry and changes nothing; the id is the prefix followed by at
    least three decimal digits (exactly three up to 999 counted keys),
    and the digits denote one more than the number of registry keys that
    start with the prefix. *)
Theorem generateLinkId_shape : forall type st w,
  exists digits,
    generateLinkId type st w =
      mkRes (Return (type ++ digits)%string) st w [] /\
    Js.startsWith (type ++ digits)%string type = true /\
    (3 <= String.length digits)%nat /\
    linkNumber digits = Some (S (countWithPrefix type (linkDatabase st))) /\
    ((countWithPrefix type (linkDatabase st) < 999)%nat ->
     String.length digits = 3%nat).
Proof.
  intros type st w.
  exists (Js.padStart 3 "0"
            (Js.String_of_nat (S (countWithPrefix type (linkDatabase st))))).
  split; [|split; [|split; [|split]]].
  - unfold generateLinkId, gets, nextLinkId, countWithPrefix.
    now rewrite Nat.add_1_r.
  - apply prefix_append.
  - unfold Js.padStart. rewrite length_append_string, length_repeat_char. lia.
  - apply linkNumber_padStart.
  - intros Hlt. unfold Js.padStart.
    rewrite length_append_string, length_repeat_char.
    enough (String.length
              (Js.String_of_nat (S (countWithPrefix type (linkDatabase st))))
            <= 3)%nat by lia.
    apply string_of_nat_short. lia.
Qed.

(** X15: freshness while the numbering has no gap.  If every registry
    key that starts with the prefix carries a number between 1 and the
    count of such keys, the generated id is not a key of the registry.
    (The hypothesis fails once an entry with a smaller number has been
    removed, which is when an id is handed out twice.) *)
Theorem generateLinkId_fresh_without_gaps : forall type db,
  (forall k, In k (Obj.keys db) -> Js.startsWith k type = true ->
     exists n, (1 <= n <= countWithPrefix type db)%nat /\
               k = linkIdOf type n) ->
  ~ In (nextLinkId type db) (Obj.keys db).
Proof.
  intros type db Hnum Hin.
  assert (E : nextLinkId type db = linkIdOf type (S (countWithPrefix type db))).
  { unfold nextLinkId, linkIdOf, countWithPrefix. now rewrite Nat.add_1_r. }
  rewrite E in Hin.
  destruct (Hnum _ Hin) as (n & Hn & Hk).
  { unfold linkIdOf. apply prefix_append. }
  apply linkIdOf_injective in Hk. lia.
Qed.

Lemma generateLinkId_fresh_without_gaps_witness :
  Obj.keys (linkDatabase (state single2)) = ["mov001"%string] /\
  ~ In (nextLinkId "mov" (linkDatabase (state single2)))
       (Obj.keys (linkDatabase (state single2))).
Proof.
  assert (K : Obj.keys (linkDatabase (state single2)) = ["mov001"%string])
    by (vm_compute; reflexivity).
  assert (N : countWithPrefix "mov" (linkDatabase (state single2)) = 1%nat)
    by (vm_compute; reflexivity).
  split; [exact K|].
  refine (@generateLinkId_fresh_without_gaps "mov"
            (linkDatabase (state single2)) _).
  rewrite K, N. intros k [<-|[]] _. exists 1%nat.
  split; [lia | vm_compute; reflexivity].
Defined.

Open Scope list_scope.

(** * Interleaved runs *)

(** ** Tasks, stretch by stretch *)

Lemma runAmong_settle {A B} (t : Task A) (k : Completion A -> Task B) :
  forall sched rt,
    runAmong (settle t k) sched rt =
    runAmong (k (among_completion (runAmong t sched rt)))
      (among_schedule (runAmong t sched rt))
      (among_runtime (runAmong t sched rt)).
Proof.
  induction t as [a|e|X m k' IH|rest IH]; intros sched rt; cbn [settle runAmong].
  - reflexivity.
  - reflexivity.
  - apply IH.
  - destruct sched as [|batch sched']; apply IH.
Qed.

Lemma runAmong_bindT {A B} (t : Task A) (k : A -> Task B) sched rt a :
  among_completion (runAmong t sched rt) = Return a ->
  runAmong (bindT t k) sched rt =
  runAmong (k a) (among_schedule (runAmong t sched rt))
    (among_runtime (runAmong t sched rt)).
Proof. intros H. unfold bindT. now rewrite runAmong_settle, H. Qed.

Lemma runAmong_bindT_throw {A B} (t : Task A) (k : A -> Task B) sched rt e :
  among_completion (runAmong t sched rt) = Throw e ->
  runAmong (bindT t k) sched rt =
  mkAmong (Throw e) (among_runtime (runAmong t sched rt))
    (among_schedule (runAmong t sched rt)).
Proof. intros H. unfold bindT. now rewrite runAmong_settle, H. Qed.

Lemma runAmong_try_catchT {A} (t : Task A) h sched rt a :
  among_completion (runAmong t sched rt) = Return a ->
  runAmong (try_catchT t h) sched rt =
  mkAmong (Return a) (among_runtime (runAmong t sched rt))
    (among_schedule (runAmong t sched rt)).
Proof. intros H. unfold try_catchT. now rewrite runAmong_settle, H. Qed.

Lemma runAmong_try_catchT_throw {A} (t : Task A) h sched rt e :
  among_completion (runAmong t sched rt) = Throw e ->
  runAmong (try_catchT t h) sched rt =
  runAmong (h e) (among_schedule (runAmong t sched rt))
    (among_runtime (runAmong t sched rt)).
Proof. intros H. unfold try_catchT. now rewrite runAmong_settle, H. Qed.

Lemma runAmong_now {A} (m : M A) sched rt :
  runAmong (now m) sched rt =
  mkAmong (completion (m (module_state rt) (outside rt)))
    (ran rt (m (module_state rt) (outside rt))) sched.
Proof.
  unfold now. cbn [runAmong].
  destruct (completion (m (module_state rt) (outside rt))); reflexivity.
Qed.

Lemma runAmong_Yield {A} (t : Task A) sched rt :
  runAmong (Yield t) sched rt =
  runAmong t (snd (pause sched rt)) (fst (pause sched rt)).
Proof. destruct sched; reflexivity. Qed.

Lemma runAmong_await {A} (t : Task A) sched rt :
  runAmong (await t) sched rt =
  mkAmong (among_completion (runAmong t sched rt))
    (fst (pause (among_schedule (runAmong t sched rt))
            (among_runtime (runAmong t sched rt))))
    (snd (pause (among_schedule (runAmong t sched rt))
            (among_runtime (runAmong t sched rt)))).
Proof.
  unfold await. rewrite runAmong_settle, runAmong_Yield.
  destruct (among_completion (runAmong t sched rt)); reflexivity.
Qed.

Lemma among_eta {A} (r : Among A) :
  r = mkAmong (among_completion r) (among_runtime r) (among_schedule r).
Proof. destruct r. reflexivity. Qed.

Lemma ran_ret {A} (a : A) rt :
  ran rt (ret a (module_state rt) (outside rt)) = rt.
Proof. destruct rt. unfold ran. cbn. now rewrite app_nil_r. Qed.

Lemma ran_gets {A} (f : State -> A) rt :
  ran rt (gets f (module_state rt) (outside rt)) = rt.
Proof. destruct rt. unfold ran. cbn. now rewrite app_nil_r. Qed.

(** ** Bystanders *)

Lemma bystander_settle {A B} (t : Task A) (k : Completion A -> Task B) :
  bystander t -> (forall c, bystander (k c)) -> bystander (settle t k).
Proof.
  intros Ht Hk. induction t as [a|e|X m k' IH|rest IH]; cbn [settle bystander] in *.
  - apply Hk.
  - apply Hk.
  - destruct Ht as (H1 & H2 & H3). repeat split; auto.
  - auto.
Qed.

Lemma bystander_settled {A} (c : Completion A) : bystander (settled c).
Proof. destruct c; exact I. Qed.

Lemma bystander_now {A} (m : M A) :
  preserves linkDatabase m -> preserves isRefreshing m -> bystander (now m).
Proof.
  intros H1 H2. unfold now. cbn. repeat split; auto.
  intros c. apply bystander_settled.
Qed.

Lemma bystander_await {A} (t : Task A) : bystander t -> bystander (await t).
Proof.
  intros H. unfold await. apply bystander_settle; [exact H|].
  intros c. cbn. apply bystander_settled.
Qed.

Lemma bystander_bindT {A B} (t : Task A) (k : A -> Task B) :
  bystander t -> (forall a, bystander (k a)) -> bystander (bindT t k).
Proof.
  intros Ht Hk. unfold bindT. apply bystander_settle; [exact Ht|].
  intros [a|e]; [apply Hk | exact I].
Qed.

Lemma bystander_try_catchT {A} (t : Task A) h :
  bystander t -> (forall e, bystander (h e)) -> bystander (try_catchT t h).
Proof.
  intros Ht Hh. unfold try_catchT. apply bystander_settle; [exact Ht|].
  intros [a|e]; [exact I | apply Hh].
Qed.

Lemma bystander_for_of_withT {X L} (body : L -> X -> Task L) xs :
  (forall acc x, bystander (body acc x)) ->
  forall acc, bystander (for_of_withT xs acc body).
Proof.
  intros Hb. induction xs as [|x xs IH]; intros acc; cbn [for_of_withT].
  - exact I.
  - apply bystander_bindT; auto.
Qed.

Create HintDb tasks.
#[global] Hint Resolve bystander_now bystander_await bystander_bindT
  bystander_try_catchT bystander_for_of_withT bystander_settled : tasks.

Lemma preserves_linkDatabase_external {A} req (o : World -> nat -> Completion A) :
  preserves linkDatabase (external req o).
Proof. intros st w. reflexivity. Qed.

Ltac frame :=
  solve [ intros ? ?; reflexivity
        | auto with js ].

Lemma bystander_getVideoInfo url : bystander (Tasks.getVideoInfo url).
Proof.
  unfold Tasks.getVideoInfo.
  apply bystander_try_catchT; [|intros e; exact I].
  apply bystander_bindT; [|intros info; exact I].
  apply bystander_await, bystander_now; frame.
Qed.

Lemma bystander_convertToStreamLink url :
  bystander (Tasks.convertToStreamLink url).
Proof.
  unfold Tasks.convertToStreamLink.
  apply bystander_try_catchT.
  - apply bystander_bindT; [apply bystander_await, bystander_now; frame|].
    intros info. destruct (YouTubeConverter.bestFormat _); [|exact I].
    apply bystander_bindT; [apply bystander_now; frame|]. intros t. exact I.
  - intros e. apply bystander_bindT; [apply bystander_now; frame|].
    intros _. exact I.
Qed.

Lemma bystander_checkLink url : bystander (Tasks.checkLink url).
Proof.
  unfold Tasks.checkLink.
  apply bystander_try_catchT; [|intros e; exact I].
  apply bystander_bindT; [|intros s; exact I].
  apply bystander_await, bystander_now; frame.
Qed.

Lemma bystander_checkEntry acc entry : bystander (Tasks.checkEntry acc entry).
Proof.
  destruct acc as [bl rs], entry as [id d]. unfold Tasks.checkEntry.
  destruct (streamUrl d) as [url|]; [|apply bystander_now; frame].
  destruct (negb _); [apply bystander_now; frame|].
  apply bystander_bindT; [apply bystander_await, bystander_checkLink|].
  intros h. destruct (isActive h).
  - apply bystander_bindT; [apply bystander_now; frame|]. intros t. exact I.
  - apply bystander_bindT; [apply bystander_now; frame|]. intros t. exact I.
Qed.

Lemma bystander_checkAllLinks : bystander Tasks.checkAllLinks.
Proof.
  unfold Tasks.checkAllLinks.
  apply bystander_bindT; [apply bystander_now; frame|].
  intros db. apply bystander_for_of_withT. apply bystander_checkEntry.
Qed.

Lemma bystander_updateLinksFile : bystander Tasks.updateLinksFile.
Proof.
  unfold Tasks.updateLinksFile.
  apply bystander_try_catchT.
  - apply bystander_bindT; [apply bystander_now; frame|]. intros db.
    apply bystander_bindT.
    { apply bystander_now; apply preserves_for_of_with; intros acc x;
        apply publishEntry_preserves. }
    intros content.
    apply bystander_bindT.
    { apply bystander_try_catchT; [|intros e; exact I].
      apply bystander_bindT; [apply bystander_await, bystander_now; frame|].
      intros data. exact I. }
    intros sha.
    apply bystander_bindT; [apply bystander_now; frame|]. intros _.
    apply bystander_bindT; [apply bystander_await, bystander_now; frame|].
    intros _.
    apply bystander_bindT; [apply bystander_now; frame|]. intros _. exact I.
  - intros e. apply bystander_bindT; [apply bystander_now; frame|].
    intros _. exact I.
Qed.

Lemma bystander_uploadOne results url : bystander (Tasks.uploadOne results url).
Proof.
  unfold Tasks.uploadOne.
  apply bystander_bindT; [apply bystander_await, bystander_getVideoInfo|].
  intros v.
  apply bystander_bindT; [apply bystander_await, bystander_convertToStreamLink|].
  intros s.
  apply bystander_bindT; [apply bystander_now; frame|]. intros id.
  apply bystander_bindT; [apply bystander_now; frame|]. intros rnd.
  apply bystander_bindT; [apply bystander_now; frame|]. intros t1.
  apply bystander_bindT; [apply bystander_now; frame|]. intros t2.
  apply bystander_bindT; [apply bystander_now; frame|]. intros _.
  apply bystander_bindT; [apply bystander_now; frame|]. intros cfg.
  exact I.
Qed.

Lemma bystander_uploadRoute req : bystander (Tasks.uploadRoute req).
Proof.
  unfold Tasks.uploadRoute.
  apply bystander_try_catchT.
  - apply bystander_bindT; [apply bystander_now; frame|]. intros cfg.
    destruct (negb _); [exact I|].
    destruct (links req) as [urls|]; [|exact I].
    apply bystander_bindT.
    { apply bystander_for_of_withT. apply bystander_uploadOne. }
    intros results.
    apply bystander_bindT; [|intros _; exact I].
    apply bystander_now; apply scheduleBatchUpload_preserves; reflexivity.
  - intros e. apply bystander_bindT; [apply bystander_now; frame|].
    intros _. exact I.
Qed.

(** ** One stretch *)

Lemma stretch_settle {A B} (t : Task A) (k : Completion A -> Task B) :
  forall st w,
    stretch (settle t k) st w =
    match outcome (stretch t st w) with
    | Finished c =>
        after (ran_events (stretch t st w))
          (stretch (k c) (ran_state (stretch t st w))
             (ran_world (stretch t st w)))
    | Suspended rest =>
        mkRan (Suspended (settle rest k)) (ran_state (stretch t st w))
          (ran_world (stretch t st w)) (ran_events (stretch t st w))
    end.
Proof.
  induction t as [a|e|X m k' IH|rest IH]; intros st w; cbn [settle stretch].
  - cbn. unfold after. cbn. now destruct (stretch (k (Return a)) st w).
  - cbn. unfold after. cbn. now destruct (stretch (k (Throw e)) st w).
  - rewrite IH. cbn [outcome ran_state ran_world ran_events].
    destruct (outcome (stretch (k' (completion (m st w))) (state (m st w))
                         (world (m st w)))).
    + unfold after. cbn. now rewrite app_assoc.
    + reflexivity.
  - reflexivity.
Qed.

Lemma stretch_now {A} (m : M A) st w :
  stretch (now m) st w =
  mkRan (Finished (completion (m st w))) (state (m st w)) (world (m st w))
    (events (m st w) ++ []).
Proof.
  unfold now. cbn [stretch]. destruct (completion (m st w)); reflexivity.
Qed.

Lemma stretch_bind_now {A B} (m : M A) (k : A -> Task B) st w a :
  completion (m st w) = Return a ->
  stretch (bindT (now m) k) st w =
  after (events (m st w)) (stretch (k a) (state (m st w)) (world (m st w))).
Proof.
  intros H. unfold bindT. rewrite stretch_settle, stretch_now.
  cbn [outcome ran_state ran_world ran_events]. rewrite H, app_nil_r.
  reflexivity.
Qed.

Lemma stretch_bystander {A} (t : Task A) :
  bystander t ->
  forall st w,
    linkDatabase (ran_state (stretch t st w)) = linkDatabase st /\
    isRefreshing (ran_state (stretch t st w)) = isRefreshing st /\
    match outcome (stretch t st w) with
    | Suspended rest => bystander rest
    | Finished _ => True
    end.
Proof.
  induction t as [a|e|X m k IH|rest IH]; intros Hb st w; cbn [stretch].
  - cbn. auto.
  - cbn. auto.
  - destruct Hb as (H1 & H2 & H3).
    destruct (IH (completion (m st w)) (H3 _) (state (m st w)) (world (m st w)))
      as (I1 & I2 & I3).
    cbn [ran_state outcome]. rewrite I1, I2, (H1 st w), (H2 st w). auto.
  - cbn. auto.
Qed.

(** ** What the other handlers do while a cycle is suspended *)

Lemma joined_refl rt : joined rt rt.
Proof.
  exists []. split; [now rewrite app_nil_r|]. intros k. cbn. tauto.
Qed.

Lemma joined_trans rt1 rt2 rt3 : joined rt1 rt2 -> joined rt2 rt3 -> joined rt1 rt3.
Proof.
  intros (n1 & A1 & K1) (n2 & A2 & K2). exists (n1 ++ n2). split.
  - now rewrite A2, A1, app_assoc.
  - intros k. rewrite K2, K1, in_app_iff. tauto.
Qed.

Lemma joined_same rt rt' :
  admitted rt' = admitted rt ->
  linkDatabase (module_state rt') = linkDatabase (module_state rt) ->
  joined rt rt'.
Proof.
  intros A D. exists []. split; [now rewrite app_nil_r|].
  intros k. rewrite D. cbn. tauto.
Qed.

Lemma admission_loop ups : forall st w,
  for_of ups
    (fun upload =>
       modify (fun st =>
         set_linkDatabase
           (Obj.set (upload_id upload) (upload_data upload) (linkDatabase st))
           st)) st w =
  mkRes (Return tt) (set_linkDatabase (admission ups (linkDatabase st)) st) w [].
Proof.
  induction ups as [|u ups IH]; intros st w; cbn [for_of admission fold_left].
  - unfold ret. now rewrite set_linkDatabase_same.
  - unfold bind at 1. cbn [modify completion state world events].
    rewrite IH. reflexivity.
Qed.

Lemma keys_admission ups : forall db k,
  In k (Obj.keys (admission ups db)) <->
  In k (Obj.keys db) \/ In k (map upload_id ups).
Proof.
  unfold admission. induction ups as [|u ups IH]; intros db k; cbn [fold_left map].
  - cbn. tauto.
  - rewrite IH. cbn [In].
    destruct (in_dec string_dec (upload_id u) (Obj.keys db)) as [Y|N].
    + rewrite keys_set_present by exact Y.
      split; [tauto|]. intros [H|[<-|H]]; auto.
    + rewrite keys_set_absent by exact N. rewrite in_app_iff. cbn. tauto.
Qed.

Lemma wf_admission ups : forall db, Obj.wf db -> Obj.wf (admission ups db).
Proof.
  unfold admission. induction ups as [|u ups IH]; intros db H; cbn; [exact H|].
  apply IH, wf_set, H.
Qed.

(** A cycle that is asked for while the guard is set. *)
Lemma stretch_refresh_skipped st w :
  isRefreshing st = true ->
  stretch Tasks.refreshAllLinks st w =
  mkRan (Finished (Return tt)) st w [Log RefreshSkipped].
Proof.
  intros H. unfold Tasks.refreshAllLinks.
  rewrite stretch_bind_now with (a := true); [|cbn; now rewrite H].
  cbn [gets state world events]. rewrite stretch_now. reflexivity.
Qed.

(** The timer callback while the guard is set: the pending uploads are
    admitted and the refresh is dropped. *)
Lemma stretch_callback_skipped st w :
  isRefreshing st = true ->
  stretch Tasks.batchTimerCallback st w =
  match pendingUploads st with
  | [] => mkRan (Finished (Return tt)) st w []
  | _ :: _ =>
      mkRan (Suspended (Pure tt))
        (set_linkDatabase (admission (pendingUploads st) (linkDatabase st))
           (set_pendingUploads [] st))
        w
        [Log (ProcessingPending (List.length (pendingUploads st)));
         Log RefreshSkipped]
  end.
Proof.
  intros H. unfold Tasks.batchTimerCallback.
  rewrite stretch_bind_now with (a := pendingUploads st) by reflexivity.
  cbn [gets state world events].
  destruct (pendingUploads st) as [|u us] eqn:E; [reflexivity|].
  cbn [List.length Nat.ltb Nat.leb].
  rewrite stretch_bind_now with (a := tt) by reflexivity.
  cbn [emit state world events].
  rewrite stretch_bind_now with (a := tt) by reflexivity.
  cbn [modify state world events].
  rewrite stretch_bind_now with (a := tt) by (now rewrite admission_loop).
  rewrite admission_loop. cbn [state world events].
  unfold await. rewrite stretch_settle, stretch_refresh_skipped by exact H.
  reflexivity.
Qed.

Lemma after_nil {A} (r : Ran A) : after [] r = r.
Proof. destruct r. reflexivity. Qed.

Lemma stretch_fireTimeout_during h st w :
  isRefreshing st = true ->
  stretch (Tasks.fireTimeout h) st w =
  if existsb (fun t => Nat.eqb (handle t) h) (timeouts st) then
    let st1 :=
      set_timeouts
        (filter (fun t => negb (Nat.eqb (handle t) h)) (timeouts st))
        (nextHandle st) st in
    match pendingUploads st with
    | [] => mkRan (Finished (Return tt)) st1 w []
    | _ :: _ =>
        mkRan (Suspended (Pure tt))
          (set_linkDatabase (admission (pendingUploads st) (linkDatabase st))
             (set_pendingUploads [] st1))
          w
          [Log (ProcessingPending (List.length (pendingUploads st)));
           Log RefreshSkipped]
    end
  else mkRan (Finished (Return tt)) st w [].
Proof.
  intros Hg. unfold Tasks.fireTimeout.
  rewrite stretch_bind_now
    with (a := existsb (fun t => Nat.eqb (handle t) h) (timeouts st))
    by reflexivity.
  cbn [gets state world events]. rewrite after_nil.
  destruct (existsb _ (timeouts st)); [|reflexivity].
  rewrite stretch_bind_now with (a := tt) by reflexivity.
  unfold clearTimeout. cbn [modify state world events]. rewrite after_nil.
  rewrite stretch_callback_skipped by exact Hg.
  cbn [pendingUploads set_timeouts linkDatabase].
  destruct (pendingUploads st); reflexivity.
Qed.

Lemma stretch_scheduledRefresh_during st w :
  isRefreshing st = true ->
  stretch Tasks.scheduledRefresh st w =
  mkRan (Finished (Return tt)) st w [Log ScheduledRefresh; Log RefreshSkipped].
Proof.
  intros Hg. unfold Tasks.scheduledRefresh.
  rewrite stretch_bind_now with (a := tt) by reflexivity.
  cbn [emit state world events].
  rewrite stretch_refresh_skipped by exact Hg. reflexivity.
Qed.

Lemma preserves_status {X} (f : State -> X) helpers :
  preserves f (express (statusRoute helpers)).
Proof. intros st w. unfold express, try_catch. now rewrite statusRoute_run. Qed.

Lemma bystander_handler_request t :
  match t with
  | UploadRequest _ | StatusRequest _ => bystander (Tasks.handler t)
  | _ => True
  end.
Proof.
  destruct t as [req|helpers|h|]; cbn [Tasks.handler]; try exact I.
  - apply bystander_bindT; [apply bystander_uploadRoute | intros _; exact I].
  - apply bystander_bindT; [|intros _; exact I].
    apply bystander_now; apply preserves_status.
Qed.

(** A handler that starts while the guard is set: it leaves the guard
    set, what it leaves suspended is a bystander, and the registry
    gains the keys it admits. *)
Lemma arrive_during t st w :
  isRefreshing st = true ->
  let r := stretch (Tasks.handler t) st w in
  isRefreshing (ran_state r) = true /\
  (Obj.wf (linkDatabase st) -> Obj.wf (linkDatabase (ran_state r))) /\
  match outcome r with
  | Suspended rest => bystander rest
  | Finished _ => True
  end /\
  forall k,
    In k (Obj.keys (linkDatabase (ran_state r))) <->
    In k (Obj.keys (linkDatabase st)) \/ In k (admits t st).
Proof.
  intros Hg r. subst r.
  destruct t as [req|helpers|h|].
  - pose proof (bystander_handler_request (UploadRequest req)) as Hb.
    destruct (stretch_bystander _ Hb st w) as (D & G & R).
    rewrite D, G. cbn [admits In]. repeat split; auto; tauto.
  - pose proof (bystander_handler_request (StatusRequest helpers)) as Hb.
    destruct (stretch_bystander _ Hb st w) as (D & G & R).
    rewrite D, G. cbn [admits In]. repeat split; auto; tauto.
  - cbn [Tasks.handler admits].
    rewrite stretch_fireTimeout_during by exact Hg.
    destruct (existsb _ (timeouts st)).
    2:{ cbn. repeat split; auto; tauto. }
    unfold pendingIds.
    destruct (pendingUploads st) as [|u us] eqn:E.
    + cbn. repeat split; auto; tauto.
    + cbn [outcome ran_state linkDatabase set_linkDatabase isRefreshing
             set_pendingUploads set_timeouts bystander].
      repeat split; auto.
      * intros Hwf. now apply wf_admission.
      * apply keys_admission.
      * apply keys_admission.
  - cbn [Tasks.handler admits].
    rewrite stretch_scheduledRefresh_during by exact Hg.
    cbn. repeat split; auto; tauto.
Qed.

Lemma Forall_without {X} (P : X -> Prop) i : forall xs,
  Forall P xs -> Forall P (without i xs).
Proof.
  induction i as [|i IH]; intros [|x xs] H; cbn; auto;
    inversion H; subst; auto.
Qed.

Lemma step_calm mv rt :
  calm rt -> calm (step mv rt) /\ joined rt (step mv rt).
Proof.
  intros (Hg & Hp). destruct mv as [t|i]; cbn [step].
  - destruct (@arrive_during t (module_state rt) (outside rt) Hg)
      as (G & _ & R & K).
    unfold launch. split; [split|].
    + exact G.
    + cbn [suspended].
      destruct (outcome (stretch (Tasks.handler t) (module_state rt)
                           (outside rt))); [exact Hp|].
      apply Forall_app. split; [exact Hp|]. now constructor.
    + exists (admits t (module_state rt)). split; [reflexivity|]. exact K.
  - destruct (nth_error (suspended rt) i) as [task|] eqn:E.
    2:{ split; [now split | apply joined_refl]. }
    assert (Hb : bystander task).
    { rewrite Forall_forall in Hp. apply Hp. eapply nth_error_In; exact E. }
    destruct (stretch_bystander _ Hb (module_state rt) (outside rt))
      as (D & G & R).
    unfold launch. split; [split|].
    + cbn [module_state]. now rewrite G.
    + cbn [suspended].
      destruct (outcome (stretch task (module_state rt) (outside rt))).
      * now apply Forall_without.
      * apply Forall_app. split; [now apply Forall_without|]. now constructor.
    + apply joined_same; [cbn; now rewrite app_nil_r | exact D].
Qed.

Lemma interleave_calm moves : forall rt,
  calm rt -> calm (interleave moves rt) /\ joined rt (interleave moves rt).
Proof.
  unfold interleave. induction moves as [|mv moves IH]; intros rt H; cbn.
  - split; [exact H | apply joined_refl].
  - destruct (step_calm mv H) as [C J].
    destruct (IH _ C) as [C' J']. split; [exact C'|].
    eapply joined_trans; eassumption.
Qed.

Lemma pause_calm sched rt :
  calm rt -> calm (fst (pause sched rt)) /\ joined rt (fst (pause sched rt)).
Proof.
  intros H. destruct sched as [|b sched]; cbn.
  - split; [exact H | apply joined_refl].
  - now apply interleave_calm.
Qed.

Lemma ran_calm {X} (m : M X) rt :
  preserves linkDatabase m -> preserves isRefreshing m ->
  calm rt ->
  calm (ran rt (m (module_state rt) (outside rt))) /\
  joined rt (ran rt (m (module_state rt) (outside rt))).
Proof.
  intros H1 H2 (Hg & Hp). split; [split|].
  - cbn. now rewrite (H2 _ _).
  - exact Hp.
  - apply joined_same; [reflexivity | apply H1].
Qed.

(** A bystander among the others leaves the runtime calm and the
    registry with the keys it had and those admitted meanwhile. *)
Lemma runAmong_bystander {A} (t : Task A) :
  bystander t ->
  forall sched rt,
    calm rt ->
    calm (among_runtime (runAmong t sched rt)) /\
    joined rt (among_runtime (runAmong t sched rt)).
Proof.
  induction t as [a|e|X m k IH|rest IH]; intros Hb sched rt Hc.
  - split; [exact Hc | apply joined_refl].
  - split; [exact Hc | apply joined_refl].
  - cbn [runAmong]. destruct Hb as (H1 & H2 & H3).
    destruct (ran_calm H1 H2 Hc) as [C J].
    destruct (IH (completion (m (module_state rt) (outside rt))) (H3 _)
                sched _ C) as [C' J'].
    split; [exact C'|]. eapply joined_trans; eassumption.
  - rewrite runAmong_Yield. destruct (pause_calm sched Hc) as [C J].
    destruct (IH Hb (snd (pause sched rt)) _ C) as [C' J'].
    split; [exact C'|]. eapply joined_trans; eassumption.
Qed.

(** ** Tasks that cannot throw *)

Lemma lands_Pure {A} (a : A) : lands (Pure a).
Proof. intros sched rt. now exists a. Qed.

Lemma lands_now {A} (m : M A) : returns m -> lands (now m).
Proof.
  intros H sched rt. rewrite runAmong_now.
  destruct (H (module_state rt) (outside rt)) as [a Ha]. now exists a.
Qed.

Lemma lands_bindT {A B} (t : Task A) (k : A -> Task B) :
  lands t -> (forall a, lands (k a)) -> lands (bindT t k).
Proof.
  intros Ht Hk sched rt. destruct (Ht sched rt) as [a Ha].
  rewrite (runAmong_bindT _ _ _ _ Ha). apply Hk.
Qed.

Lemma lands_try_catchT {A} (t : Task A) h :
  (forall e, lands (h e)) -> lands (try_catchT t h).
Proof.
  intros Hh sched rt.
  destruct (among_completion (runAmong t sched rt)) as [a|e] eqn:E.
  - rewrite (runAmong_try_catchT _ _ _ _ E). now exists a.
  - rewrite (runAmong_try_catchT_throw _ _ _ _ E). apply Hh.
Qed.

Lemma lands_await {A} (t : Task A) : lands t -> lands (await t).
Proof.
  intros H sched rt. rewrite runAmong_await. apply H.
Qed.

#[global] Hint Resolve lands_Pure lands_now lands_bindT lands_try_catchT
  lands_await : tasks.

Lemma lands_checkLink url : lands (Tasks.checkLink url).
Proof. unfold Tasks.checkLink. apply lands_try_catchT. intros e. apply lands_Pure. Qed.

Lemma lands_convertToStreamLink url : lands (Tasks.convertToStreamLink url).
Proof.
  unfold Tasks.convertToStreamLink. apply lands_try_catchT. intros e.
  apply lands_bindT; [apply lands_now; auto with js|].
  intros _. apply lands_Pure.
Qed.

Lemma lands_updateLinksFile : lands Tasks.updateLinksFile.
Proof.
  unfold Tasks.updateLinksFile. apply lands_try_catchT. intros e.
  apply lands_bindT; [apply lands_now; auto with js|].
  intros _. apply lands_Pure.
Qed.

(** ** The health phase among the other handlers *)

Lemma checkEntry_among bl rs id d sched rt :
  (exists rs' reason,
     among_completion (runAmong (Tasks.checkEntry (bl, rs) (id, d)) sched rt) =
     Return (if verdictAmong d sched rt then bl
             else bl ++ [LinkHealthChecker.brokenLink id d reason], rs')) /\
  among_runtime (runAmong (Tasks.checkEntry (bl, rs) (id, d)) sched rt) =
  among_runtime (runAmong (Tasks.checkEntry noResults (id, d)) sched rt) /\
  among_schedule (runAmong (Tasks.checkEntry (bl, rs) (id, d)) sched rt) =
  among_schedule (runAmong (Tasks.checkEntry noResults (id, d)) sched rt).
Proof.
  unfold Tasks.checkEntry, noResults, verdictAmong.
  destruct (streamUrl d) as [url|].
  2:{ rewrite !runAmong_now.
      cbn [among_completion among_runtime among_schedule
           LinkHealthChecker.noStreamUrl ret completion state world events].
      split; [|auto]. do 2 eexists. reflexivity. }
  destruct (Js.truthy_string url); cbn [negb andb].
  2:{ rewrite !runAmong_now.
      cbn [among_completion among_runtime among_schedule
           LinkHealthChecker.noStreamUrl ret completion state world events].
      split; [|auto]. do 2 eexists. reflexivity. }
  destruct (lands_checkLink url sched rt) as [h Hh].
  assert (Ha : among_completion (runAmong (await (Tasks.checkLink url)) sched rt)
               = Return h) by (now rewrite runAmong_await).
  rewrite !(runAmong_bindT _ _ _ _ Ha). rewrite Hh.
  destruct (isActive h).
  - rewrite !runAmong_bindT with (a := clock _ _)
      by (rewrite runAmong_now; reflexivity).
    cbn [among_completion among_runtime among_schedule].
    split; [|auto]. eexists. exists ""%string. reflexivity.
  - rewrite !runAmong_bindT with (a := clock _ _)
      by (rewrite runAmong_now; reflexivity).
    cbn [among_completion among_runtime among_schedule].
    split; [|auto]. do 2 eexists. reflexivity.
Qed.

(** The runtime and the schedule after the loop do not depend on the
    locals it started with. *)
Lemma checkLoop_runtime pre : forall acc s1 rt1,
  among_runtime (runAmong (for_of_withT pre acc Tasks.checkEntry) s1 rt1) =
  among_runtime (runAmong (for_of_withT pre noResults Tasks.checkEntry) s1 rt1) /\
  among_schedule (runAmong (for_of_withT pre acc Tasks.checkEntry) s1 rt1) =
  among_schedule (runAmong (for_of_withT pre noResults Tasks.checkEntry) s1 rt1).
Proof.
  induction pre as [|[i e] pre IHp]; intros acc s1 rt1.
  - cbn. auto.
  - destruct acc as [bl rs]. cbn [for_of_withT].
    destruct (checkEntry_among bl rs i e s1 rt1)
      as ((rs1 & reason & C1) & R1 & S1).
    destruct (checkEntry_among [] (mkResults 0 0 0 [] None) i e s1 rt1)
      as ((rs0 & reason0 & C0) & _ & _).
    fold noResults in C0.
    rewrite (runAmong_bindT _ _ _ _ C1), (runAmong_bindT _ _ _ _ C0).
    rewrite R1, S1.
    destruct (IHp (if verdictAmong e s1 rt1 then bl
                   else bl ++ [LinkHealthChecker.brokenLink i e reason], rs1)
                (among_schedule (runAmong (Tasks.checkEntry noResults (i, e)) s1 rt1))
                (among_runtime (runAmong (Tasks.checkEntry noResults (i, e)) s1 rt1)))
      as [E1 E2].
    destruct (IHp (if verdictAmong e s1 rt1 then []
                   else [] ++ [LinkHealthChecker.brokenLink i e reason0], rs0)
                (among_schedule (runAmong (Tasks.checkEntry noResults (i, e)) s1 rt1))
                (among_runtime (runAmong (Tasks.checkEntry noResults (i, e)) s1 rt1)))
      as [E3 E4].
    split; congruence.
Qed.

Lemma checkLoop_among entries : forall bl rs sched rt,
  (exists bl' rs',
     among_completion
       (runAmong (for_of_withT entries (bl, rs) Tasks.checkEntry) sched rt) =
     Return (bl ++ bl', rs') /\
     forall id,
       In id (map broken_id bl') <->
       exists pre d suf,
         entries = pre ++ (id, d) :: suf /\
         verdictAfter pre d sched rt = false) /\
  among_runtime
    (runAmong (for_of_withT entries (bl, rs) Tasks.checkEntry) sched rt) =
  among_runtime
    (runAmong (for_of_withT entries noResults Tasks.checkEntry) sched rt) /\
  among_schedule
    (runAmong (for_of_withT entries (bl, rs) Tasks.checkEntry) sched rt) =
  among_schedule
    (runAmong (for_of_withT entries noResults Tasks.checkEntry) sched rt).
Proof.
  induction entries as [|[id0 d0] entries IH]; intros bl rs sched rt.
  - cbn. split; [|auto]. exists [], rs. split; [now rewrite app_nil_r|].
    intros id. split; [intros []|].
    intros (pre & d & suf & E & _). destruct pre; discriminate.
  - cbn [for_of_withT].
    destruct (checkEntry_among bl rs id0 d0 sched rt)
      as ((rs1 & reason & C1) & R1 & S1).
    destruct (checkEntry_among [] (mkResults 0 0 0 [] None) id0 d0 sched rt)
      as ((rs0 & reason0 & C0) & _ & _).
    fold noResults in C0.
    rewrite (runAmong_bindT _ _ _ _ C1), (runAmong_bindT _ _ _ _ C0).
    rewrite R1, S1.
    set (rt1 := among_runtime (runAmong (Tasks.checkEntry noResults (id0, d0))
                                 sched rt)) in *.
    set (s1 := among_schedule (runAmong (Tasks.checkEntry noResults (id0, d0))
                                 sched rt)) in *.
    assert (Hcons : forall pre d,
              verdictAfter ((id0, d0) :: pre) d sched rt =
              verdictAfter pre d s1 rt1).
    { intros pre d. unfold verdictAfter. cbn [for_of_withT].
      rewrite (runAmong_bindT _ _ _ _ C0). fold rt1 s1.
      destruct (checkLoop_runtime pre
                  (if verdictAmong d0 sched rt then []
                   else [] ++ [LinkHealthChecker.brokenLink id0 d0 reason0], rs0)
                  s1 rt1) as [-> ->].
      reflexivity. }
    destruct (IH (if verdictAmong d0 sched rt then bl
                  else bl ++ [LinkHealthChecker.brokenLink id0 d0 reason])
                rs1 s1 rt1) as ((bl2 & rs2 & C2 & Hbl) & Er & Es).
    destruct (IH (if verdictAmong d0 sched rt then []
                  else [] ++ [LinkHealthChecker.brokenLink id0 d0 reason0])
                rs0 s1 rt1) as (_ & Er0 & Es0).
    split; [|split; congruence].
    assert (V0 : verdictAfter [] d0 sched rt = verdictAmong d0 sched rt)
      by reflexivity.
    destruct (verdictAmong d0 sched rt) eqn:V.
    + exists bl2, rs2. split; [exact C2|].
      intros id. rewrite Hbl. split.
      * intros (pre & d & suf & E & Hv).
        exists ((id0, d0) :: pre), d, suf. split; [now rewrite E|].
        now rewrite Hcons.
      * intros (pre & d & suf & E & Hv).
        destruct pre as [|p pre]; cbn in E.
        -- injection E as E1 E2 E3. subst. congruence.
        -- injection E as E1 E2. subst. exists pre, d, suf.
           split; [reflexivity|]. now rewrite <- Hcons.
    + exists (LinkHealthChecker.brokenLink id0 d0 reason :: bl2), rs2.
      split; [rewrite C2; now rewrite <- app_assoc|].
      intros id. cbn [map In LinkHealthChecker.brokenLink broken_id].
      rewrite Hbl. split.
      * intros [<-|(pre & d & suf & E & Hv)].
        -- exists [], d0, entries. split; [reflexivity|]. congruence.
        -- exists ((id0, d0) :: pre), d, suf. split; [now rewrite E|].
           now rewrite Hcons.
      * intros (pre & d & suf & E & Hv).
        destruct pre as [|p pre]; cbn in E.
        -- injection E as E1 E2 E3. subst. now left.
        -- injection E as E1 E2. subst. right. exists pre, d, suf.
           split; [reflexivity|]. now rewrite <- Hcons.
Qed.

Lemma verdictAfter_true pre d sched rt :
  verdictAfter pre d sched rt = true <-> passesHealthCheckAmong pre d sched rt.
Proof.
  unfold verdictAfter, verdictAmong, passesHealthCheckAmong, probeAmong. split.
  - destruct (streamUrl d) as [url|]; [|discriminate].
    intros H. apply andb_prop in H. destruct H as [Ht Ha].
    destruct (among_completion _) as [h|e] eqn:E; [|discriminate].
    exists url, h. auto.
  - intros (url & h & -> & Ht & Hc & Ha). now rewrite Hc, Ht, Ha.
Qed.

Lemma verdictAfter_false pre d sched rt :
  failsHealthCheckAmong pre d sched rt -> verdictAfter pre d sched rt = false.
Proof.
  unfold verdictAfter, verdictAmong, failsHealthCheckAmong, probeAmong,
    Js.truthy.
  intros [H|(url & h & -> & Hc & Ha)].
  - destruct (streamUrl d); [|reflexivity]. now rewrite H.
  - rewrite Hc, Ha. apply andb_false_r.
Qed.

(** ** The re-resolution phase among the other handlers *)

Lemma assign_among id f rt :
  calm rt -> In id (Obj.keys (linkDatabase (module_state rt))) ->
  completion (assign_entry id f (module_state rt) (outside rt)) = Return tt /\
  calm (ran rt (assign_entry id f (module_state rt) (outside rt))) /\
  joined rt (ran rt (assign_entry id f (module_state rt) (outside rt))).
Proof.
  intros (Hg & Hp) Hin.
  destruct (get_of_key _ _ Hin) as [d0 Hd0].
  destruct (@assign_entry_runs id f d0 (module_state rt) (outside rt) Hd0)
    as (Rc & Rs & Rw).
  split; [exact Rc|]. split; [split|].
  - cbn [ran module_state]. rewrite Rs. exact Hg.
  - exact Hp.
  - exists []. split; [cbn; now rewrite app_nil_r|].
    intros k. cbn [ran module_state]. rewrite Rs, linkDatabase_set.
    rewrite keys_set_present by exact Hin. cbn. tauto.
Qed.

Lemma joined_keeps_key rt rt' id :
  joined rt rt' ->
  In id (Obj.keys (linkDatabase (module_state rt))) ->
  In id (Obj.keys (linkDatabase (module_state rt'))).
Proof. intros (new & _ & K) H. apply K. now left. Qed.

Lemma refreshEntry_among id d sched rt :
  calm rt -> In id (Obj.keys (linkDatabase (module_state rt))) ->
  among_completion (runAmong (Tasks.refreshEntry (id, d)) sched rt) = Return tt /\
  calm (among_runtime (runAmong (Tasks.refreshEntry (id, d)) sched rt)) /\
  joined rt (among_runtime (runAmong (Tasks.refreshEntry (id, d)) sched rt)).
Proof.
  intros Hc Hin. unfold Tasks.refreshEntry.
  destruct (Js.truthy_string (originalUrl d)).
  2:{ cbn. split; [reflexivity|]. split; [exact Hc | apply joined_refl]. }
  assert (Hb : bystander (await (Tasks.convertToStreamLink (originalUrl d))))
    by apply bystander_await, bystander_convertToStreamLink.
  destruct (@runAmong_bystander _ _ Hb sched rt Hc) as [C1 J1].
  assert (Hl : lands (await (Tasks.convertToStreamLink (originalUrl d))))
    by apply lands_await, lands_convertToStreamLink.
  destruct (Hl sched rt) as [s Hs].
  rewrite (runAmong_bindT _ _ _ _ Hs).
  set (rt1 := among_runtime (runAmong (await (Tasks.convertToStreamLink
                                                (originalUrl d))) sched rt)) in *.
  set (s1 := among_schedule (runAmong (await (Tasks.convertToStreamLink
                                                (originalUrl d))) sched rt)) in *.
  destruct (stream_isValid s).
  2:{ cbn. split; [reflexivity|]. split; [exact C1 | exact J1]. }
  pose proof (@joined_keeps_key _ _ _ J1 Hin) as Hin1.
  destruct (@assign_among id (with_streamUrl (stream_streamUrl s)) rt1 C1 Hin1)
    as (A2 & C2 & J2).
  rewrite runAmong_bindT with (a := tt) by (now rewrite runAmong_now).
  rewrite runAmong_now. cbn [among_runtime among_schedule].
  set (rt2 := ran rt1 _) in *.
  pose proof (@joined_keeps_key _ _ _ J2 Hin1) as Hin2.
  destruct (@ran_calm _ Date_now rt2) as [C3 J3];
    [intros ? ?; reflexivity | intros ? ?; reflexivity | exact C2 |].
  rewrite runAmong_bindT
    with (a := clock (outside rt2) (tick (outside rt2)))
    by (now rewrite runAmong_now).
  rewrite runAmong_now. cbn [among_runtime among_schedule].
  set (rt3 := ran rt2 _) in *.
  pose proof (@joined_keeps_key _ _ _ J3 Hin2) as Hin3.
  destruct (@assign_among id
              (with_lastRefreshed (clock (outside rt2) (tick (outside rt2))))
              rt3 C3 Hin3) as (A4 & C4 & J4).
  rewrite runAmong_now. cbn [among_completion among_runtime].
  split; [exact A4|]. split; [exact C4|].
  eapply joined_trans; [exact J1|]. eapply joined_trans; [exact J2|].
  eapply joined_trans; [exact J3|]. exact J4.
Qed.

Lemma refreshLoop_among xs : forall sched rt,
  calm rt ->
  (forall id d, In (id, d) xs ->
     In id (Obj.keys (linkDatabase (module_state rt)))) ->
  among_completion (runAmong (for_ofT xs Tasks.refreshEntry) sched rt) =
    Return tt /\
  calm (among_runtime (runAmong (for_ofT xs Tasks.refreshEntry) sched rt)) /\
  joined rt (among_runtime (runAmong (for_ofT xs Tasks.refreshEntry) sched rt)).
Proof.
  induction xs as [|[id d] xs IH]; intros sched rt Hc Hk.
  - cbn. split; [reflexivity|]. split; [exact Hc | apply joined_refl].
  - cbn [for_ofT].
    destruct (@refreshEntry_among id d sched rt Hc) as (E1 & C1 & J1);
      [apply (Hk id d); now left|].
    rewrite (runAmong_bindT _ _ _ _ E1).
    destruct (IH (among_schedule (runAmong (Tasks.refreshEntry (id, d)) sched rt))
                (among_runtime (runAmong (Tasks.refreshEntry (id, d)) sched rt))
                C1) as (E2 & C2 & J2).
    { intros id' d' H. apply (@joined_keeps_key _ _ _ J1). apply (Hk id' d').
      now right. }
    split; [exact E2|]. split; [exact C2|].
    eapply joined_trans; eassumption.
Qed.

(** ** The cycle among the other handlers *)

(** The re-resolution phase among the others: it returns, the guard
    stays set, and the registry loses no key. *)
Lemma refreshActiveLinks_among sched rt :
  calm rt ->
  among_completion (runAmong Tasks.refreshActiveLinks sched rt) = Return tt /\
  calm (among_runtime (runAmong Tasks.refreshActiveLinks sched rt)) /\
  joined rt (among_runtime (runAmong Tasks.refreshActiveLinks sched rt)).
Proof.
  intros Hc. unfold Tasks.refreshActiveLinks.
  rewrite runAmong_bindT with (a := linkDatabase (module_state rt))
    by (now rewrite runAmong_now).
  rewrite runAmong_now. cbn [among_runtime among_schedule].
  rewrite ran_gets. apply refreshLoop_among; [exact Hc|].
  intros id d H. apply (in_map fst) in H. exact H.
Qed.

Lemma bystander_returning {A} (t : Task A) sched rt :
  bystander t -> lands t -> calm rt ->
  exists a,
    among_completion (runAmong t sched rt) = Return a /\
    calm (among_runtime (runAmong t sched rt)) /\
    joined rt (among_runtime (runAmong t sched rt)).
Proof.
  intros Hb Hl Hc. destruct (Hl sched rt) as [a Ha]. exists a.
  split; [exact Ha|]. now apply runAmong_bystander.
Qed.

Lemma refreshBody_among startTime sched rt :
  calm rt ->
  among_completion (runAmong (Tasks.refreshBody startTime) sched rt) =
    Return tt /\
  calm (among_runtime (runAmong (Tasks.refreshBody startTime) sched rt)) /\
  exists new ids,
    admitted (among_runtime (runAmong (Tasks.refreshBody startTime) sched rt)) =
      admitted rt ++ new /\
    (forall id,
       In id ids <->
       exists pre d suf,
         linkDatabase (module_state rt) = pre ++ (id, d) :: suf /\
         verdictAfter pre d sched rt = false) /\
    (forall k,
       In k (Obj.keys
               (linkDatabase
                  (module_state
                     (among_runtime
                        (runAmong (Tasks.refreshBody startTime) sched rt))))) ->
       In k new \/
       (In k (Obj.keys (linkDatabase (module_state rt))) /\ ~ In k ids)).
Proof.
  intros Hc. unfold Tasks.refreshBody.
  (* the health phase *)
  destruct (checkLoop_among (Obj.entries (linkDatabase (module_state rt)))
              [] (mkResults 0 0 0 [] None) sched rt)
    as ((bl & rs & Hloop & Hbl) & _ & _).
  cbn [List.app] in Hloop. fold noResults in Hloop.
  assert (H1 : among_completion (runAmong (await Tasks.checkAllLinks) sched rt)
               = Return (bl, rs)).
  { rewrite runAmong_await. unfold Tasks.checkAllLinks.
    rewrite runAmong_bindT with (a := linkDatabase (module_state rt))
      by (now rewrite runAmong_now).
    rewrite runAmong_now. cbn [among_runtime among_schedule].
    rewrite ran_gets. exact Hloop. }
  assert (Hb : bystander (await Tasks.checkAllLinks))
    by apply bystander_await, bystander_checkAllLinks.
  destruct (@runAmong_bystander _ _ Hb sched rt Hc) as [C1 J1].
  rewrite (runAmong_bindT _ _ _ _ H1).
  set (rt1 := among_runtime (runAmong (await Tasks.checkAllLinks) sched rt)) in *.
  set (s1 := among_schedule (runAmong (await Tasks.checkAllLinks) sched rt)) in *.
  (* the prune phase *)
  set (prunePhase :=
         if (0 <? List.length bl)%nat
         then bindT (await (Tasks.sendBrokenLinksLog bl))
                (fun _ => now (removeBrokenLinks bl))
         else Pure tt).
  assert (H2 : among_completion (runAmong prunePhase s1 rt1) = Return tt /\
               calm (among_runtime (runAmong prunePhase s1 rt1)) /\
               exists new,
                 admitted (among_runtime (runAmong prunePhase s1 rt1)) =
                   admitted rt1 ++ new /\
                 forall k,
                   In k (Obj.keys (linkDatabase
                           (module_state
                              (among_runtime (runAmong prunePhase s1 rt1))))) <->
                   (In k (Obj.keys (linkDatabase (module_state rt1))) \/
                    In k new) /\ ~ In k (map broken_id bl)).
  { subst prunePhase. destruct bl as [|l bl'].
    - cbn. split; [reflexivity|]. split; [exact C1|]. exists [].
      split; [now rewrite app_nil_r|]. intros k. cbn. tauto.
    - cbn [List.length Nat.ltb Nat.leb].
      destruct (@bystander_returning _
                  (await (Tasks.sendBrokenLinksLog (l :: bl'))) s1 rt1)
        as ([] & E & C & (new & A & K)).
      { apply bystander_await, bystander_now;
          apply sendBrokenLinksLog_preserves. }
      { apply lands_await, lands_now, sendBrokenLinksLog_returns. }
      { exact C1. }
      rewrite (runAmong_bindT _ _ _ _ E). rewrite runAmong_now.
      cbn [among_completion among_runtime].
      set (rt' := among_runtime (runAmong (await (Tasks.sendBrokenLinksLog
                                                    (l :: bl'))) s1 rt1)) in *.
      destruct (removeBrokenLinks_runs (l :: bl') (module_state rt')
                  (outside rt')) as (Rc & Rs & Rw).
      split; [exact Rc|]. split.
      + destruct C as [Cg Cp]. split; [|exact Cp].
        cbn [ran module_state]. rewrite Rs. exact Cg.
      + exists new. split; [exact A|].
        intros k. cbn [ran module_state]. rewrite Rs, linkDatabase_set.
        rewrite in_keys_prune, K. reflexivity. }
  destruct H2 as (E2 & C2 & new2 & A2 & K2).
  rewrite (runAmong_bindT _ _ _ _ E2).
  set (rt2 := among_runtime (runAmong prunePhase s1 rt1)) in *.
  set (s2 := among_schedule (runAmong prunePhase s1 rt1)) in *.
  (* the re-resolution phase *)
  assert (H3 : among_completion (runAmong Tasks.refreshActiveLinks s2 rt2) =
               Return tt /\
               calm (among_runtime (runAmong Tasks.refreshActiveLinks s2 rt2)) /\
               joined rt2 (among_runtime (runAmong Tasks.refreshActiveLinks s2 rt2))).
  { unfold Tasks.refreshActiveLinks.
    rewrite runAmong_bindT with (a := linkDatabase (module_state rt2))
      by (now rewrite runAmong_now).
    rewrite runAmong_now. cbn [among_runtime among_schedule].
    rewrite ran_gets. apply refreshLoop_among; [exact C2|].
    intros id d H. apply (in_map fst) in H. exact H. }
  destruct H3 as (E3 & C3 & J3).
  rewrite (runAmong_bindT _ _ _ _ E3).
  set (rt3 := among_runtime (runAmong Tasks.refreshActiveLinks s2 rt2)) in *.
  set (s3 := among_schedule (runAmong Tasks.refreshActiveLinks s2 rt2)) in *.
  (* the publication *)
  destruct (@bystander_returning _ (await Tasks.updateLinksFile) s3 rt3)
    as (ok & E4 & C4 & J4);
    [apply bystander_await, bystander_updateLinksFile
    | apply lands_await, lands_updateLinksFile | exact C3 |].
  rewrite (runAmong_bindT _ _ _ _ E4).
  set (rt4 := among_runtime (runAmong (await Tasks.updateLinksFile) s3 rt3)) in *.
  set (s4 := among_schedule (runAmong (await Tasks.updateLinksFile) s3 rt3)) in *.
  (* the report *)
  destruct (@ran_calm _ Date_now rt4) as [C5 J5];
    [intros ? ?; reflexivity | intros ? ?; reflexivity | exact C4 |].
  rewrite runAmong_bindT
    with (a := clock (outside rt4) (tick (outside rt4)))
    by (now rewrite runAmong_now).
  rewrite runAmong_now. cbn [among_runtime among_schedule].
  set (rt5 := ran rt4 _) in *.
  set (report := with_duration _ rs).
  destruct (@bystander_returning _ (await (Tasks.generateRefreshLog report))
              s4 rt5) as ([] & E6 & C6 & J6).
  { apply bystander_await, bystander_now; apply generateRefreshLog_preserves. }
  { apply lands_await, lands_now, generateRefreshLog_returns. }
  { exact C5. }
  split; [exact E6|]. split; [exact C6|].
  (* the keys *)
  destruct J1 as (new1 & A1 & K1).
  assert (J : joined rt2 (among_runtime
                            (runAmong (await (Tasks.generateRefreshLog report))
                               s4 rt5))).
  { eapply joined_trans; [exact J3|]. eapply joined_trans; [exact J4|].
    eapply joined_trans; [exact J5|]. exact J6. }
  destruct J as (new3 & A3 & K3).
  exists (new1 ++ new2 ++ new3), (map broken_id bl).
  split; [now rewrite A3, A2, A1, <- !app_assoc|].
  split; [exact Hbl|].
  intros k Hin. rewrite !in_app_iff.
  destruct (proj1 (K3 k) Hin) as [Hin3|Hin3]; [|tauto].
  destruct (proj1 (K2 k) Hin3) as [[Hin2|Hin2] Hn]; [|tauto].
  pose proof (proj1 (K1 k) Hin2). tauto.
Qed.

(** A cycle that starts while the guard is clear, among bystanders. *)
Lemma refreshAllLinks_among sched rt :
  isRefreshing (module_state rt) = false ->
  Forall bystander (suspended rt) ->
  let start := clock (outside rt) (tick (outside rt)) in
  let body := runAmong (Tasks.refreshBody start) sched (entered rt) in
  runAmong Tasks.refreshAllLinks sched rt =
  mkAmong (Return tt)
    (ran (among_runtime body)
       (modify (set_isRefreshing false) (module_state (among_runtime body))
          (outside (among_runtime body))))
    (among_schedule body).
Proof.
  intros Hg Hp start body. unfold Tasks.refreshAllLinks.
  rewrite runAmong_bindT with (a := false)
    by (rewrite runAmong_now; cbn [among_completion gets completion];
        now rewrite Hg).
  rewrite runAmong_now. cbn [among_runtime among_schedule].
  rewrite runAmong_bindT with (a := tt) by (now rewrite runAmong_now).
  rewrite runAmong_now. cbn [among_runtime among_schedule].
  rewrite runAmong_bindT with (a := start) by (now rewrite runAmong_now).
  rewrite runAmong_now. cbn [among_runtime among_schedule].
  rewrite runAmong_bindT with (a := tt) by (now rewrite runAmong_now).
  rewrite runAmong_now. cbn [among_runtime among_schedule].
  match goal with
  | |- runAmong _ _ ?R = _ =>
      replace R with (entered rt)
        by (destruct rt; unfold ran, entered;
            cbn [module_state outside suspended output admitted gets modify
                 Date_now external emit state world events];
            now rewrite !app_nil_r)
  end.
  assert (Hc : calm (entered rt)) by (split; [reflexivity | exact Hp]).
  destruct (@refreshBody_among start sched (entered rt) Hc) as (E & _).
  fold body in E.
  unfold try_finallyT. rewrite runAmong_settle.
  rewrite (runAmong_try_catchT _ _ _ _ E).
  cbn [among_completion among_runtime among_schedule].
  rewrite runAmong_settle, runAmong_now.
  cbn [among_completion among_runtime among_schedule modify completion
       settled runAmong].
  reflexivity.
Qed.

(** C1: a refresh cycle that starts while no other is running, and
    that the event loop interleaves at its [await]s with any other
    handlers (upload and status requests, timers and the schedule
    firing, suspended requests going on), returns normally and clears
    the guard.  Every entry left in the registry either was in it when
    the cycle began, had a stream URL and had an active health probe in
    this cycle, or was admitted from the pending queue by a timer
    callback while the cycle was suspended.  And every entry that had
    no stream URL when the cycle began, or whose probe was not active,
    has been removed: its key is free, unless an upload admitted
    meanwhile has taken it. *)
Theorem cycle_keeps_only_probed_healthy : forall st w pool sched,
  isRefreshing st = false ->
  Forall bystander pool ->
  let start := mkRuntime st w pool [] [] in
  let finish := runAmong Tasks.refreshAllLinks sched start in
  among_completion finish = Return tt /\
  isRefreshing (module_state (among_runtime finish)) = false /\
  (forall id,
     In id (Obj.keys (linkDatabase (module_state (among_runtime finish)))) ->
     (exists pre d suf,
        linkDatabase st = pre ++ (id, d) :: suf /\
        passesHealthCheckAmong pre d sched (entered start)) \/
     In id (admitted (among_runtime finish))) /\
  (forall pre id d suf,
     linkDatabase st = pre ++ (id, d) :: suf ->
     failsHealthCheckAmong pre d sched (entered start) ->
     Obj.get id (linkDatabase (module_state (among_runtime finish))) = None \/
     In id (admitted (among_runtime finish))).
Proof.
  intros st w pool sched Hg Hp start finish.
  assert (Hc : calm (entered start)) by (split; [reflexivity | exact Hp]).
  pose proof (@refreshAllLinks_among sched start Hg Hp) as R.
  cbv zeta in R. fold finish in R.
  destruct (@refreshBody_among
              (clock (outside start) (tick (outside start))) sched
              (entered start) Hc) as (_ & _ & new & ids & A & Hids & K).
  rewrite R. cbn [among_completion among_runtime ran module_state admitted
                  modify state isRefreshing set_isRefreshing linkDatabase].
  rewrite A. cbn [entered admitted start List.app].
  split; [reflexivity|]. split; [reflexivity|]. split.
  - intros id Hin. destruct (K id Hin) as [Hn|[Hk Hnot]]; [now right|].
    left. cbn [entered module_state start linkDatabase set_isRefreshing] in Hk.
    apply in_map_iff in Hk. destruct Hk as ([id' d] & Ei & Hk).
    cbn in Ei. subst id'. apply in_split in Hk.
    destruct Hk as (pre & suf & E). exists pre, d, suf. split; [exact E|].
    apply verdictAfter_true.
    destruct (verdictAfter pre d sched (entered start)) eqn:V; [reflexivity|].
    exfalso. apply Hnot, Hids. exists pre, d, suf. split; [exact E | exact V].
  - intros pre id d suf E Hf.
    destruct (Obj.get id _) as [v|] eqn:G; [|now left]. right.
    apply key_of_get in G. destruct (K id G) as [Hn|[_ Hnot]]; [exact Hn|].
    exfalso. apply Hnot, Hids. exists pre, d, suf. split; [exact E|].
    now apply verdictAfter_false.
Qed.

Lemma cycle_keeps_only_probed_healthy_witness :
  isRefreshing (state waiting) = false /\
  Forall bystander (@nil (Task unit)) /\
  let finish :=
    runAmong Tasks.refreshAllLinks timerFiresFirst
      (mkRuntime (state waiting) (world waiting) [] [] []) in
  Obj.keys (linkDatabase (state waiting)) = ["mov001"] /\
  Obj.keys (linkDatabase (module_state (among_runtime finish))) =
    ["mov001"; "mov002"] /\
  admitted (among_runtime finish) = ["mov002"] /\
  forall id,
    In id (Obj.keys (linkDatabase (module_state (among_runtime finish)))) ->
    (exists pre d suf,
       linkDatabase (state waiting) = pre ++ (id, d) :: suf /\
       passesHealthCheckAmong pre d timerFiresFirst
         (entered (mkRuntime (state waiting) (world waiting) [] [] []))) \/
    In id (admitted (among_runtime finish)).
Proof.
  assert (G : isRefreshing (state waiting) = false) by (vm_compute; reflexivity).
  split; [exact G|]. split; [constructor|].
  split; [vm_compute; reflexivity|].
  split; [vm_compute; reflexivity|].
  split; [vm_compute; reflexivity|].
  apply (@cycle_keeps_only_probed_healthy (state waiting) (world waiting) []
           timerFiresFirst G (Forall_nil _)).
Defined.

(** ** At most one cycle at a time *)

Lemma bystander_keepsGuard {A} (t : Task A) : bystander t -> keepsGuard t.
Proof.
  induction t as [a|e|X m k IH|rest IH]; cbn; auto.
  intros (_ & H & Hk). split; auto.
Qed.

Lemma keepsGuard_settle {A B} (t : Task A) (k : Completion A -> Task B) :
  keepsGuard t -> (forall c, keepsGuard (k c)) -> keepsGuard (settle t k).
Proof.
  intros Ht Hk. induction t as [a|e|X m k' IH|rest IH];
    cbn [settle keepsGuard] in *; auto.
  destruct Ht as (H1 & H2). split; auto.
Qed.

Lemma keepsGuard_settled {A} (c : Completion A) : keepsGuard (settled c).
Proof. destruct c; exact I. Qed.

Lemma keepsGuard_now {A} (m : M A) :
  preserves isRefreshing m -> keepsGuard (now m).
Proof.
  intros H. unfold now. cbn. split; [exact H|].
  intros c. apply keepsGuard_settled.
Qed.

Lemma keepsGuard_bindT {A B} (t : Task A) (k : A -> Task B) :
  keepsGuard t -> (forall a, keepsGuard (k a)) -> keepsGuard (bindT t k).
Proof.
  intros Ht Hk. unfold bindT. apply keepsGuard_settle; [exact Ht|].
  intros [a|e]; [apply Hk | exact I].
Qed.

Lemma keepsGuard_try_catchT {A} (t : Task A) h :
  keepsGuard t -> (forall e, keepsGuard (h e)) -> keepsGuard (try_catchT t h).
Proof.
  intros Ht Hh. unfold try_catchT. apply keepsGuard_settle; [exact Ht|].
  intros [a|e]; [exact I | apply Hh].
Qed.

Lemma keepsGuard_await {A} (t : Task A) : keepsGuard t -> keepsGuard (await t).
Proof.
  intros H. unfold await. apply keepsGuard_settle; [exact H|].
  intros c. cbn. apply keepsGuard_settled.
Qed.

Lemma keepsGuard_for_ofT {X} (body : X -> Task unit) xs :
  (forall x, keepsGuard (body x)) -> keepsGuard (for_ofT xs body).
Proof.
  intros Hb. induction xs as [|x xs IH]; cbn [for_ofT]; [exact I|].
  apply keepsGuard_bindT; auto.
Qed.

Lemma assign_entry_keeps_guard id g : preserves isRefreshing (assign_entry id g).
Proof.
  intros st w. unfold assign_entry, bind, gets.
  cbn [completion state world events].
  destruct (Obj.get id (linkDatabase st)); reflexivity.
Qed.

Lemma removeBrokenLinks_keeps_guard bl :
  preserves isRefreshing (removeBrokenLinks bl).
Proof.
  unfold removeBrokenLinks. apply preserves_for_of. intros l.
  apply preserves_modify. reflexivity.
Qed.

Lemma keepsGuard_refreshEntry entry : keepsGuard (Tasks.refreshEntry entry).
Proof.
  destruct entry as [id d]. unfold Tasks.refreshEntry.
  destruct (Js.truthy_string (originalUrl d)); [|exact I].
  apply keepsGuard_bindT.
  { apply keepsGuard_await, bystander_keepsGuard, bystander_convertToStreamLink. }
  intros s. destruct (stream_isValid s); [|exact I].
  apply keepsGuard_bindT;
    [apply keepsGuard_now, assign_entry_keeps_guard|]. intros _.
  apply keepsGuard_bindT; [apply keepsGuard_now; intros ? ?; reflexivity|].
  intros t. apply keepsGuard_now, assign_entry_keeps_guard.
Qed.

Lemma keepsGuard_refreshBody startTime : keepsGuard (Tasks.refreshBody startTime).
Proof.
  unfold Tasks.refreshBody.
  apply keepsGuard_bindT.
  { apply keepsGuard_await, bystander_keepsGuard, bystander_checkAllLinks. }
  intros [bl rs].
  apply keepsGuard_bindT.
  { destruct (0 <? List.length bl)%nat; [|exact I].
    apply keepsGuard_bindT.
    - apply keepsGuard_await, keepsGuard_now, sendBrokenLinksLog_preserves.
    - intros _. apply keepsGuard_now, removeBrokenLinks_keeps_guard. }
  intros _.
  apply keepsGuard_bindT.
  { unfold Tasks.refreshActiveLinks.
    apply keepsGuard_bindT; [apply keepsGuard_now; intros ? ?; reflexivity|].
    intros db. apply keepsGuard_for_ofT, keepsGuard_refreshEntry. }
  intros _.
  apply keepsGuard_bindT.
  { apply keepsGuard_await, bystander_keepsGuard, bystander_updateLinksFile. }
  intros _.
  apply keepsGuard_bindT; [apply keepsGuard_now; intros ? ?; reflexivity|].
  intros t.
  apply keepsGuard_await, keepsGuard_now, generateRefreshLog_preserves.
Qed.

(** While its stretches leave the guard alone a task that goes on as a
    cycle is a cycle. *)
Lemma cycling_settle {A B} (t : Task A) (k : Completion A -> Task B) :
  keepsGuard t -> (forall c, cycling (k c)) -> cycling (settle t k).
Proof.
  intros Ht Hk. induction t as [a|e|X m k' IH|rest IH];
    cbn [settle cycling keepsGuard] in *; auto.
  destruct Ht as (H1 & H2). intros st w Hg.
  rewrite (H1 st w), Hg. auto.
Qed.

(** A cycle followed by what a bystander would do is a cycle. *)
Lemma cycling_then {A B} (t : Task A) (k : Completion A -> Task B) :
  cycling t -> (forall c, bystander (k c)) -> cycling (settle t k).
Proof.
  intros Ht Hk. induction t as [a|e|X m k' IH|rest IH];
    cbn [settle cycling] in *; try contradiction; auto.
  intros st w Hg. specialize (Ht st w Hg).
  destruct (isRefreshing (state (m st w))).
  - now apply IH.
  - apply bystander_settle; auto.
Qed.

Lemma cycling_bind_now {A B} (m : M A) (k : A -> Task B) :
  preserves isRefreshing m -> returns m -> (forall a, cycling (k a)) ->
  cycling (bindT (now m) k).
Proof.
  intros Hp Hr Hk. unfold bindT, now. cbn [settle cycling].
  intros st w Hg. rewrite (Hp st w), Hg.
  destruct (Hr st w) as [a Ha]. rewrite Ha. cbn. apply Hk.
Qed.

(** The [try] block with its [catch] and [finally], once the guard is
    set. *)
Lemma cycling_try_block startTime :
  cycling
    (try_finallyT
       (try_catchT (Tasks.refreshBody startTime)
          (fun error =>
             now (emit (Log (RefreshFailed (error_message error))))))
       (now (modify (set_isRefreshing false)))).
Proof.
  unfold try_finallyT. apply cycling_settle.
  - apply keepsGuard_try_catchT; [apply keepsGuard_refreshBody|].
    intros e. apply keepsGuard_now. intros ? ?. reflexivity.
  - intros c. unfold now. cbn [settle cycling].
    intros st w _. cbn [modify state isRefreshing set_isRefreshing completion].
    cbn [settled settle]. apply bystander_settled.
Qed.

Lemma bystander_starting {A} (t : Task A) : bystander t -> starting t.
Proof.
  induction t as [a|e|X m k IH|rest IH]; cbn [bystander starting]; auto.
  intros (_ & H & Hk) st w Hg. rewrite (H st w), Hg. auto.
Qed.

Lemma starting_then {A B} (t : Task A) (k : Completion A -> Task B) :
  starting t -> (forall c, bystander (k c)) -> starting (settle t k).
Proof.
  intros Ht Hk. induction t as [a|e|X m k' IH|rest IH];
    cbn [settle starting] in *.
  - apply bystander_starting, Hk.
  - apply bystander_starting, Hk.
  - intros st w Hg. specialize (Ht st w Hg).
    destruct (isRefreshing (state (m st w))).
    + now apply cycling_then.
    + now apply IH.
  - apply bystander_settle; auto.
Qed.

Lemma starting_bind_now {A B} (m : M A) (k : A -> Task B) :
  preserves isRefreshing m -> (forall a, starting (k a)) ->
  starting (bindT (now m) k).
Proof.
  intros Hp Hk. unfold bindT, now. cbn [settle starting].
  intros st w Hg. rewrite (Hp st w), Hg.
  destruct (completion (m st w)) as [a|e]; cbn; [apply Hk | exact I].
Qed.

Lemma starting_refreshAllLinks : starting Tasks.refreshAllLinks.
Proof.
  unfold Tasks.refreshAllLinks.
  apply starting_bind_now; [intros ? ?; reflexivity|].
  intros [|].
  - apply bystander_starting, bystander_now; intros ? ?; reflexivity.
  - unfold bindT at 1. unfold now at 1. cbn [settle starting].
    intros st w _. cbn [modify state isRefreshing set_isRefreshing completion].
    cbn [settled settle].
    apply cycling_bind_now; [intros ? ?; reflexivity | auto with js|].
    intros startTime.
    apply cycling_bind_now; [intros ? ?; reflexivity | auto with js|].
    intros _. apply cycling_try_block.
Qed.

Lemma starting_handler t : starting (Tasks.handler t).
Proof.
  destruct t as [req|helpers|h|].
  - apply bystander_starting.
    exact (bystander_handler_request (UploadRequest req)).
  - apply bystander_starting.
    exact (bystander_handler_request (StatusRequest helpers)).
  - cbn [Tasks.handler]. unfold Tasks.fireTimeout.
    apply starting_bind_now; [intros ? ?; reflexivity|].
    intros [|]; [|exact I].
    apply starting_bind_now; [intros ? ?; reflexivity|]. intros _.
    unfold Tasks.batchTimerCallback.
    apply starting_bind_now; [intros ? ?; reflexivity|]. intros pending.
    destruct (0 <? List.length pending)%nat; [|exact I].
    apply starting_bind_now; [intros ? ?; reflexivity|]. intros _.
    apply starting_bind_now; [intros ? ?; reflexivity|]. intros _.
    apply starting_bind_now.
    { apply preserves_for_of. intros u. apply preserves_modify. reflexivity. }
    intros _. unfold await.
    apply starting_then; [apply starting_refreshAllLinks|].
    intros c. cbn. apply bystander_settled.
  - cbn [Tasks.handler]. unfold Tasks.scheduledRefresh.
    apply starting_bind_now; [intros ? ?; reflexivity|].
    intros _. apply starting_refreshAllLinks.
Qed.

(** One stretch of a running cycle, and of a handler that starts. *)
Lemma stretch_cycling {A} (t : Task A) :
  cycling t ->
  forall st w,
    isRefreshing st = true ->
    (isRefreshing (ran_state (stretch t st w)) = true /\
     exists rest, outcome (stretch t st w) = Suspended rest /\ cycling rest) \/
    (isRefreshing (ran_state (stretch t st w)) = false /\
     match outcome (stretch t st w) with
     | Suspended rest => bystander rest
     | Finished _ => True
     end).
Proof.
  induction t as [a|e|X m k IH|rest IH]; intros Hc st w Hg;
    cbn [cycling stretch] in *; try contradiction.
  - specialize (Hc st w Hg). cbn [ran_state outcome].
    destruct (isRefreshing (state (m st w))) eqn:G.
    + exact (IH _ Hc _ _ G).
    + right.
      destruct (stretch_bystander _ Hc (state (m st w)) (world (m st w)))
        as (_ & G' & R).
      rewrite G', G. auto.
  - left. cbn. split; [exact Hg|]. now exists rest.
Qed.

Lemma stretch_starting {A} (t : Task A) :
  starting t ->
  forall st w,
    isRefreshing st = false ->
    (isRefreshing (ran_state (stretch t st w)) = true /\
     exists rest, outcome (stretch t st w) = Suspended rest /\ cycling rest) \/
    (isRefreshing (ran_state (stretch t st w)) = false /\
     match outcome (stretch t st w) with
     | Suspended rest => bystander rest
     | Finished _ => True
     end).
Proof.
  induction t as [a|e|X m k IH|rest IH]; intros Hs st w Hg;
    cbn [starting stretch] in *.
  - right. cbn. auto.
  - right. cbn. auto.
  - specialize (Hs st w Hg). cbn [ran_state outcome].
    destruct (isRefreshing (state (m st w))) eqn:G.
    + exact (stretch_cycling _ Hs _ _ G).
    + exact (IH _ Hs _ _ G).
  - right. cbn. auto.
Qed.

Lemma without_middle {X} (P : X -> Prop) (before : list X) c : forall behind i task,
  nth_error (before ++ c :: behind) i = Some task ->
  Forall P (before ++ behind) ->
  (i = List.length before /\ task = c /\
   without i (before ++ c :: behind) = before ++ behind) \/
  (P task /\
   exists before' behind',
     without i (before ++ c :: behind) = before' ++ c :: behind' /\
     Forall P (before' ++ behind')).
Proof.
  induction before as [|b before IH]; intros behind i task Hn Hp.
  - destruct i as [|i]; cbn in Hn.
    + injection Hn as <-. left. auto.
    + right. cbn [List.app] in Hp |- *. split.
      * rewrite Forall_forall in Hp. apply Hp. eapply nth_error_In; exact Hn.
      * exists [], (without i behind). split.
        -- cbn. destruct behind; reflexivity.
        -- cbn. now apply Forall_without.
  - cbn [List.app] in Hp. inversion Hp as [|? ? Pb Hp']; subst.
    destruct i as [|i]; cbn in Hn.
    + injection Hn as <-. right. split; [exact Pb|].
      exists before, behind. split; [reflexivity | exact Hp'].
    + destruct (IH behind i task Hn Hp') as [(Ei & Et & Ew)|(Pt & b' & h' & Ew & Hf)].
      * left. cbn. rewrite Ew. subst. auto.
      * right. split; [exact Pt|]. exists (b :: b'), h'. cbn. rewrite Ew.
        split; [reflexivity|]. now constructor.
Qed.

Lemma step_oneCycle mv rt : oneCycle rt -> oneCycle (step mv rt).
Proof.
  intros [(Hg & Hp)|(Hg & before & c & behind & Ep & Hc & Hp)].
  - (* no cycle is running *)
    destruct mv as [t|i]; cbn [step].
    + unfold launch.
      destruct (stretch_starting _ (starting_handler t) (module_state rt)
                  (outside rt) Hg) as [(G & rest & Er & Cr)|(G & R)].
      * right. cbn [module_state suspended]. split; [exact G|].
        rewrite Er. exists (suspended rt), rest, []. split; [reflexivity|].
        split; [exact Cr|]. now rewrite app_nil_r.
      * left. cbn [module_state suspended]. split; [exact G|].
        destruct (outcome _); [exact Hp|].
        apply Forall_app. split; [exact Hp|]. now constructor.
    + destruct (nth_error (suspended rt) i) as [task|] eqn:E;
        [|left; now split].
      assert (Hb : bystander task).
      { rewrite Forall_forall in Hp. apply Hp. eapply nth_error_In; exact E. }
      destruct (stretch_bystander _ Hb (module_state rt) (outside rt))
        as (_ & G & R).
      left. unfold launch. cbn [module_state suspended].
      split; [now rewrite G|].
      destruct (outcome _).
      * now apply Forall_without.
      * apply Forall_app. split; [now apply Forall_without|]. now constructor.
  - (* a cycle is suspended *)
    destruct mv as [t|i]; cbn [step].
    + destruct (@arrive_during t (module_state rt) (outside rt) Hg)
        as (G & _ & R & _).
      right. unfold launch. cbn [module_state suspended]. split; [exact G|].
      rewrite Ep. destruct (outcome _) as [fin|rest].
      * exists before, c, behind. auto.
      * exists before, c, (behind ++ [rest]). split; [now rewrite <- app_assoc|].
        split; [exact Hc|]. rewrite app_assoc.
        apply Forall_app. split; [exact Hp|]. now constructor.
    + destruct (nth_error (suspended rt) i) as [task|] eqn:E.
      2:{ right. split; [exact Hg|]. exists before, c, behind. auto. }
      rewrite Ep in E |- *.
      destruct (@without_middle _ (@bystander unit) before c behind i task E Hp)
        as [(Ei & Et & Ew)|(Pt & b' & h' & Ew & Hf)].
      * (* the cycle goes on *)
        subst task. rewrite Ew. unfold launch.
        destruct (stretch_cycling _ Hc (module_state rt) (outside rt) Hg)
          as [(G & rest & Er & Cr)|(G & R)].
        -- right. cbn [module_state suspended]. split; [exact G|].
           rewrite Er. exists (before ++ behind), rest, [].
           split; [reflexivity|]. split; [exact Cr|]. now rewrite app_nil_r.
        -- left. cbn [module_state suspended]. split; [exact G|].
           destruct (outcome _); [exact Hp|].
           apply Forall_app. split; [exact Hp|]. now constructor.
      * (* a bystander goes on *)
        destruct (stretch_bystander _ Pt (module_state rt) (outside rt))
          as (_ & G & R).
        right. unfold launch. cbn [module_state suspended].
        split; [now rewrite G|]. rewrite Ew.
        destruct (outcome _) as [fin|rest].
        -- exists b', c, h'. auto.
        -- exists b', c, (h' ++ [rest]). split; [now rewrite <- app_assoc|].
           split; [exact Hc|]. rewrite app_assoc.
           apply Forall_app. split; [exact Hf|]. now constructor.
Qed.

Lemma interleave_oneCycle moves : forall rt,
  oneCycle rt -> oneCycle (interleave moves rt).
Proof.
  unfold interleave. induction moves as [|mv moves IH]; intros rt H; cbn.
  - exact H.
  - apply IH, step_oneCycle, H.
Qed.

(** X18: at most one refresh cycle is in flight, whatever the schedule
    of the event loop has been since the server started.  Whenever the
    guard is clear, every suspended task is a bystander (it never
    writes the registry or the guard): this is the situation in which
    a cycle starts.  Whenever the guard is set, one suspended task is
    the running cycle, which clears the guard in its last stretch, and
    the others are bystanders. *)
Theorem one_cycle_at_a_time : forall moves cfg w,
  oneCycle (interleave moves (boot cfg w)).
Proof.
  intros moves cfg w. apply interleave_oneCycle.
  left. split; [reflexivity | constructor].
Qed.

(** ** A handler that nothing interrupts

    Run with nothing in between, each task is the function of the same
    name that was embedded as one computation: that embedding is the
    schedule in which every handler runs to its end before the next
    starts. *)

Lemma ran_bind {A B} (m : M A) (k : A -> M B) rt a :
  completion (m (module_state rt) (outside rt)) = Return a ->
  ran rt (bind m k (module_state rt) (outside rt)) =
  ran (ran rt (m (module_state rt) (outside rt)))
    (k a (state (m (module_state rt) (outside rt)))
       (world (m (module_state rt) (outside rt)))).
Proof.
  intros H. rewrite (bind_returns _ _ _ _ H). unfold ran.
  cbn [state world events module_state outside suspended output admitted].
  now rewrite app_assoc.
Qed.

Lemma alone_Pure {A} (a : A) : alone (Pure a) (ret a).
Proof. intros rt. cbn [runAmong]. now rewrite ran_ret. Qed.

Lemma alone_Raise {A} e : alone (@Raise A e) (throw e).
Proof.
  intros rt. cbn [runAmong]. unfold ran, throw. cbn. destruct rt. cbn.
  now rewrite app_nil_r.
Qed.

Lemma alone_now {A} (m : M A) : alone (now m) m.
Proof. intros rt. apply runAmong_now. Qed.

Lemma alone_bindT {A B} (t : Task A) (k : A -> Task B) m k' :
  alone t m -> (forall a, alone (k a) (k' a)) -> alone (bindT t k) (bind m k').
Proof.
  intros Ht Hk rt. unfold bindT. rewrite runAmong_settle, (Ht rt).
  cbn [among_completion among_runtime among_schedule].
  destruct (completion (m (module_state rt) (outside rt))) as [a|e] eqn:E.
  - rewrite (Hk a). cbn [ran module_state outside].
    rewrite (bind_returns _ _ _ _ E). cbn [completion]. f_equal.
    unfold ran. cbn [state world events module_state outside suspended
                     output admitted]. now rewrite app_assoc.
  - cbn [runAmong]. rewrite (bind_throws _ _ _ _ E). reflexivity.
Qed.

Lemma alone_try_catchT {A} (t : Task A) h m h' :
  alone t m -> (forall e, alone (h e) (h' e)) ->
  alone (try_catchT t h) (try_catch m h').
Proof.
  intros Ht Hh rt. unfold try_catchT. rewrite runAmong_settle, (Ht rt).
  cbn [among_completion among_runtime among_schedule].
  unfold try_catch.
  destruct (completion (m (module_state rt) (outside rt))) as [a|e] eqn:E.
  - cbn [runAmong]. rewrite E. reflexivity.
  - rewrite (Hh e). cbn [ran module_state outside completion]. f_equal.
    unfold ran. cbn [state world events module_state outside suspended
                     output admitted]. now rewrite app_assoc.
Qed.

Lemma alone_try_finallyT {A} (t : Task A) f m f' :
  alone t m -> alone f f' -> alone (try_finallyT t f) (try_finally m f').
Proof.
  intros Ht Hf rt. unfold try_finallyT.
  rewrite runAmong_settle, (Ht rt).
  cbn [among_completion among_runtime among_schedule].
  rewrite runAmong_settle, (Hf _).
  cbn [among_completion among_runtime among_schedule ran module_state outside].
  unfold try_finally. cbn [completion state world events].
  destruct (completion (f' _ _)) as [[]|e'].
  - destruct (completion (m (module_state rt) (outside rt))) as [a|e];
      cbn [settled runAmong]; f_equal; unfold ran;
      cbn [state world events module_state outside suspended output admitted];
      now rewrite app_assoc.
  - cbn [runAmong]. f_equal. unfold ran.
    cbn [state world events module_state outside suspended output admitted].
    now rewrite app_assoc.
Qed.

Lemma alone_await {A} (t : Task A) m : alone t m -> alone (await t) m.
Proof.
  intros Ht rt. rewrite runAmong_await, (Ht rt). reflexivity.
Qed.

Lemma alone_for_ofT {X} (body : X -> Task unit) body' xs :
  (forall x, alone (body x) (body' x)) ->
  alone (for_ofT xs body) (for_of xs body').
Proof.
  intros Hb. induction xs as [|x xs IH]; cbn [for_ofT for_of].
  - apply alone_Pure.
  - apply alone_bindT; auto.
Qed.

Lemma alone_for_of_withT {X L} (body : L -> X -> Task L) body' xs :
  (forall acc x, alone (body acc x) (body' acc x)) ->
  forall acc, alone (for_of_withT xs acc body) (for_of_with xs acc body').
Proof.
  intros Hb. induction xs as [|x xs IH]; intros acc;
    cbn [for_of_withT for_of_with].
  - apply alone_Pure.
  - apply alone_bindT; auto.
Qed.

#[global] Hint Resolve alone_Pure alone_Raise alone_now alone_bindT
  alone_try_catchT alone_try_finallyT alone_await alone_for_ofT
  alone_for_of_withT : tasks.

Lemma alone_getVideoInfo url :
  alone (Tasks.getVideoInfo url) (YouTubeConverter.getVideoInfo url).
Proof.
  unfold Tasks.getVideoInfo, YouTubeConverter.getVideoInfo.
  auto 10 with tasks.
Qed.

Lemma alone_convertToStreamLink url :
  alone (Tasks.convertToStreamLink url)
    (YouTubeConverter.convertToStreamLink url).
Proof.
  unfold Tasks.convertToStreamLink, YouTubeConverter.convertToStreamLink.
  apply alone_try_catchT; [|auto 10 with tasks].
  apply alone_bindT; [auto with tasks|]. intros info.
  destruct (YouTubeConverter.bestFormat _); auto 10 with tasks.
Qed.

Lemma alone_checkLink url :
  alone (Tasks.checkLink url) (LinkHealthChecker.checkLink url).
Proof.
  unfold Tasks.checkLink, LinkHealthChecker.checkLink. auto 10 with tasks.
Qed.

Lemma alone_checkEntry acc entry :
  alone (Tasks.checkEntry acc entry) (LinkHealthChecker.checkEntry acc entry).
Proof.
  destruct acc as [bl rs], entry as [id d].
  unfold Tasks.checkEntry, LinkHealthChecker.checkEntry.
  destruct (streamUrl d) as [url|]; [|apply alone_now].
  destruct (negb _); [apply alone_now|].
  apply alone_bindT; [apply alone_await, alone_checkLink|].
  intros h. destruct (isActive h); auto 10 with tasks.
Qed.

Lemma alone_checkAllLinks :
  alone Tasks.checkAllLinks LinkHealthChecker.checkAllLinks.
Proof.
  unfold Tasks.checkAllLinks, LinkHealthChecker.checkAllLinks.
  apply alone_bindT; [apply alone_now|]. intros db.
  apply alone_for_of_withT. apply alone_checkEntry.
Qed.

Lemma alone_updateLinksFile :
  alone Tasks.updateLinksFile GitHubManager.updateLinksFile.
Proof.
  unfold Tasks.updateLinksFile, GitHubManager.updateLinksFile.
  auto 20 with tasks.
Qed.

Lemma alone_refreshEntry entry :
  alone (Tasks.refreshEntry entry) (refreshEntry entry).
Proof.
  destruct entry as [id d]. unfold Tasks.refreshEntry, refreshEntry.
  destruct (Js.truthy_string (originalUrl d)); [|apply alone_Pure].
  apply alone_bindT; [apply alone_await, alone_convertToStreamLink|].
  intros s. destruct (stream_isValid s); auto 10 with tasks.
Qed.

Lemma alone_refreshBody startTime :
  alone (Tasks.refreshBody startTime) (refreshBody startTime).
Proof.
  unfold Tasks.refreshBody, refreshBody.
  apply alone_bindT; [apply alone_await, alone_checkAllLinks|].
  intros [bl rs].
  apply alone_bindT.
  { destruct (0 <? List.length bl)%nat; [|apply alone_Pure].
    unfold Tasks.sendBrokenLinksLog. auto 10 with tasks. }
  intros _.
  apply alone_bindT.
  { unfold Tasks.refreshActiveLinks, refreshActiveLinks.
    apply alone_bindT; [apply alone_now|]. intros db.
    apply alone_for_ofT, alone_refreshEntry. }
  intros _.
  apply alone_bindT; [apply alone_await, alone_updateLinksFile|]. intros _.
  apply alone_bindT; [apply alone_now|]. intros t.
  unfold Tasks.generateRefreshLog. auto with tasks.
Qed.

Lemma alone_refreshAllLinks : alone Tasks.refreshAllLinks refreshAllLinks.
Proof.
  unfold Tasks.refreshAllLinks, refreshAllLinks.
  apply alone_bindT; [apply alone_now|]. intros [|]; [apply alone_now|].
  apply alone_bindT; [apply alone_now|]. intros _.
  apply alone_bindT; [apply alone_now|]. intros startTime.
  apply alone_bindT; [apply alone_now|]. intros _.
  apply alone_try_finallyT; [|apply alone_now].
  apply alone_try_catchT; [apply alone_refreshBody|].
  intros e. apply alone_now.
Qed.


Lemma alone_uploadOne results url :
  alone (Tasks.uploadOne results url) (uploadOne results url).
Proof.
  unfold Tasks.uploadOne, uploadOne.
  apply alone_bindT; [apply alone_await, alone_getVideoInfo|]. intros v.
  apply alone_bindT; [apply alone_await, alone_convertToStreamLink|].
  intros s. auto 20 with tasks.
Qed.

Lemma alone_uploadRoute req : alone (Tasks.uploadRoute req) (uploadRoute req).
Proof.
  unfold Tasks.uploadRoute, uploadRoute.
  apply alone_try_catchT; [|auto 10 with tasks].
  apply alone_bindT; [apply alone_now|]. intros cfg.
  destruct (negb _); [apply alone_Pure|].
  destruct (links req) as [urls|]; [|apply alone_Pure].
  apply alone_bindT.
  { apply alone_for_of_withT. apply alone_uploadOne. }
  intros results. auto 10 with tasks.
Qed.


Lemma atomically_alone {A} (t : Task A) (m : M A) :
  alone t m -> forall st w, atomically t st w = m st w.
Proof.
  intros H st w. unfold atomically.
  rewrite (H (mkRuntime st w [] [] [])).
  cbn [among_completion among_runtime ran module_state outside output List.app].
  now destruct (m st w).
Qed.


(** ** A timer that fires while a cycle is suspended *)

Lemma get_admission_last ups u db :
  Obj.get (upload_id u) (admission (ups ++ [u]) db) = Some (upload_data u).
Proof.
  unfold admission. rewrite fold_left_app. cbn [fold_left]. apply get_set_same.
Qed.

(** X16: a timer that fires while a cycle is suspended admits its
    pending uploads unchecked.  The whole handler is one stretch: the
    queue is emptied, every pending upload is written under its id (the
    last upload of the queue stands under its id with the data it was
    queued with, whatever its stream URL), the guard stays set, and the
    refresh the callback asks for is dropped; no request leaves the
    process, so none of the admitted entries is probed, and nothing is
    left of the handler but a return. *)
Theorem timer_during_cycle_admits_unchecked : forall h rt,
  isRefreshing (module_state rt) = true ->
  In h (map handle (timeouts (module_state rt))) ->
  pendingUploads (module_state rt) <> [] ->
  let st := module_state rt in
  let rt' := step (Arrive (TimeoutFires h)) rt in
  linkDatabase (module_state rt') =
    admission (pendingUploads st) (linkDatabase st) /\
  pendingUploads (module_state rt') = [] /\
  isRefreshing (module_state rt') = true /\
  (forall ups u,
     pendingUploads st = ups ++ [u] ->
     Obj.get (upload_id u) (linkDatabase (module_state rt')) =
       Some (upload_data u)) /\
  outside rt' = outside rt /\
  output rt' =
    output rt ++
    [Log (ProcessingPending (List.length (pendingUploads st)));
     Log RefreshSkipped] /\
  suspended rt' = suspended rt ++ [Pure tt] /\
  admitted rt' = admitted rt ++ pendingIds st.
Proof.
  intros h rt Hg Hh Hne st rt'. subst rt' st. cbn [step]. unfold launch.
  cbn [Tasks.handler admits].
  rewrite stretch_fireTimeout_during by exact Hg.
  assert (Ex : existsb (fun t => Nat.eqb (handle t) h)
                 (timeouts (module_state rt)) = true).
  { apply existsb_exists. apply in_map_iff in Hh.
    destruct Hh as (t & Et & Ht). exists t. split; [exact Ht|].
    now apply Nat.eqb_eq. }
  rewrite Ex.
  destruct (pendingUploads (module_state rt)) as [|u0 us] eqn:E; [congruence|].
  cbn [module_state outside output suspended admitted outcome ran_state
       ran_world ran_events linkDatabase set_linkDatabase pendingUploads
       set_pendingUploads isRefreshing set_timeouts].
  repeat split; auto.
  intros ups u Eu. rewrite Eu. apply get_admission_last.
Qed.

Lemma timer_during_cycle_admits_unchecked_witness :
  isRefreshing (module_state midCycle) = true /\
  map (fun e => (fst e, streamUrl (snd e)))
    (linkDatabase (module_state midCycle)) = [("mov001", Some "s:b")] /\
  map (fun e => (fst e, streamUrl (snd e)))
    (linkDatabase (module_state (step (Arrive (TimeoutFires 1)) midCycle))) =
    [("mov001", Some "s:b"); ("mov002", None)] /\
  linkDatabase (module_state (step (Arrive (TimeoutFires 1)) midCycle)) =
    admission (pendingUploads (module_state midCycle))
      (linkDatabase (module_state midCycle)).
Proof.
  assert (G : isRefreshing (module_state midCycle) = true)
    by (vm_compute; reflexivity).
  assert (T : In 1%nat (map handle (timeouts (module_state midCycle))))
    by (vm_compute; auto).
  assert (P : pendingUploads (module_state midCycle) <> [])
    by (vm_compute; discriminate).
  split; [exact G|]. split; [vm_compute; reflexivity|].
  split; [vm_compute; reflexivity|].
  apply (@timer_during_cycle_admits_unchecked 1%nat midCycle G T P).
Defined.

(** ** An entry without a stream URL can stay *)

(** X17: the server does not keep the registry free of entries without
    a stream URL.  There is a schedule of the event loop on a fresh
    server after which no task is suspended, no cycle is running, and
    the registry holds an entry that has no stream URL, which has also
    been published: the upload that could not be resolved was admitted
    while a cycle was suspended after its health phase had taken its
    list of entries, and the refresh of its own callback was
    dropped. *)
Theorem unresolved_upload_can_stay :
  exists moves cfg w,
    let rt := interleave moves (boot cfg w) in
    suspended rt = [] /\
    isRefreshing (module_state rt) = false /\
    pendingUploads (module_state rt) = [] /\
    exists id d content key p,
      Obj.get id (linkDatabase (module_state rt)) = Some d /\
      streamUrl d = None /\
      last (publishedMappings (output rt)) Obj.empty = content /\
      Obj.get key content = Some p /\
      LinkEncoder.decode key = Return (Some id) /\
      pub_url p = None.
Proof.
  exists lateTimer, demoConfig, (demoWorld 1000).
  cbv zeta. split; [vm_compute; reflexivity|].
  split; [vm_compute; reflexivity|]. split; [vm_compute; reflexivity|].
  exists "mov002"%string.
  eexists. eexists. exists "bW92MDAyxyz"%string. eexists.
  split; [vm_compute; reflexivity|]. split; [reflexivity|].
  split; [vm_compute; reflexivity|].
  split; [vm_compute; reflexivity|].
  split; [vm_compute; reflexivity|]. reflexivity.
Qed.

(** ** Handlers that nothing interrupts *)

(** X10: a cycle that starts while no other is running, and during
    which no other handler runs, writes to GitHub exactly once, after
    pruning and re-resolution, and what it writes is the publication of
    the registry as the cycle leaves it: the mapping built by going
    through the entries left, in order, with one random string and one
    time for each.  So every entry left has a key that encodes its id;
    each key is the encoding of the id of an entry left, with that
    entry's current stream URL and title, and no pruned entry is
    published; and when the registry holds each key once, the ids are
    made of ASCII characters and every random string gives its three
    characters, every entry left is published under a key of its own
    with its stream URL and title. *)
Theorem cycle_publishes_final_registry_once : forall st w,
  isRefreshing st = false ->
  let run := atomically Tasks.refreshAllLinks st w in
  let final := linkDatabase (state run) in
  exists content sha stamps,
    filter isPutRequest (events run) = [PutContentRequest content sha] /\
    List.length stamps = List.length (Obj.entries final) /\
    content = publication (Obj.entries final) stamps Obj.empty /\
    (forall id, In id (Obj.keys final) ->
       exists rnd36, In (LinkEncoder.encode id rnd36) (Obj.keys content)) /\
    describes final content /\
    List.length (Obj.keys content) <= List.length (Obj.keys final) /\
    (Obj.wf final -> forallb isAscii (Obj.keys final) = true ->
     Forall fullSuffix stamps ->
     forall id d, Obj.get id final = Some d ->
       exists rnd36 now,
         In (rnd36, now) stamps /\
         Obj.get (LinkEncoder.encode id rnd36) content =
           Some {| pub_url := streamUrl d; pub_title := title d;
                   pub_updated := now |}).
Proof.
  intros st w Hg run. unfold run.
  rewrite (atomically_alone alone_refreshAllLinks).
  now apply refreshAllLinks_publishes_final_registry.
Qed.

Lemma cycle_publishes_final_registry_once_witness :
  isRefreshing demoState = false /\
  let run := atomically Tasks.refreshAllLinks demoState (demoWorld 0) in
  let final := linkDatabase (state run) in
  exists content sha stamps,
    filter isPutRequest (events run) = [PutContentRequest content sha] /\
    List.length stamps = List.length (Obj.entries final) /\
    content = publication (Obj.entries final) stamps Obj.empty /\
    (forall id, In id (Obj.keys final) ->
       exists rnd36, In (LinkEncoder.encode id rnd36) (Obj.keys content)) /\
    describes final content /\
    List.length (Obj.keys content) <= List.length (Obj.keys final) /\
    (Obj.wf final -> forallb isAscii (Obj.keys final) = true ->
     Forall fullSuffix stamps ->
     forall id d, Obj.get id final = Some d ->
       exists rnd36 now,
         In (rnd36, now) stamps /\
         Obj.get (LinkEncoder.encode id rnd36) content =
           Some {| pub_url := streamUrl d; pub_title := title d;
                   pub_updated := now |}).
Proof.
  split; [reflexivity|].
  exact (@cycle_publishes_final_registry_once demoState (demoWorld 0)
           eq_refl).
Defined.

(** X19: whatever the registry and the world, when no other handler
    runs during an accepted upload request, all the uploads of its
    batch get the id that [generateLinkId] gives at the start, the
    registry is not touched, and the timer is armed. *)
Theorem uninterrupted_batch_shares_one_id : forall st w urls,
  let r :=
    atomically
      (Tasks.uploadRoute
         (mkUploadBody (Some urls) (Some (API_PASSWORD (CONFIG st))))) st w in
  exists resp,
    completion r = Return resp /\ code resp = 200%Z /\
    responseIds resp =
      repeat (nextLinkId "mov" (linkDatabase st)) (List.length urls) /\
    pendingIds (state r) =
      pendingIds st ++
      repeat (nextLinkId "mov" (linkDatabase st)) (List.length urls) /\
    linkDatabase (state r) = linkDatabase st /\
    refreshTimer (state r) = Some (nextHandle st).
Proof.
  intros st w urls r. unfold r.
  rewrite (atomically_alone (alone_uploadRoute _)).
  apply upload_batch_shares_one_id.
Qed.

(** ** The re-resolution phase among the others *)

(** X21: the re-resolution phase of a cycle, interleaved at its
    [await]s with any other handlers, returns normally and removes no
    entry, whatever the resolutions give: every key of the registry
    when the phase began is a key when it ends, and a key that was not
    there when it began is the id of an upload that a timer callback
    has admitted. *)
Theorem reresolution_among_others_removes_nothing : forall sched rt,
  calm rt ->
  let finish := runAmong Tasks.refreshActiveLinks sched rt in
  among_completion finish = Return tt /\
  (forall k,
     In k (Obj.keys (linkDatabase (module_state rt))) ->
     In k (Obj.keys (linkDatabase (module_state (among_runtime finish))))) /\
  (forall k,
     In k (Obj.keys (linkDatabase (module_state (among_runtime finish)))) ->
     In k (Obj.keys (linkDatabase (module_state rt))) \/
     In k (admitted (among_runtime finish))).
Proof.
  intros sched rt Hc finish.
  destruct (@refreshActiveLinks_among sched rt Hc) as (E & _ & new & A & K).
  fold finish in E, A, K.
  split; [exact E|]. split.
  - intros k Hin. apply K. now left.
  - intros k Hin. apply K in Hin. destruct Hin as [Hin|Hin]; [now left|].
    right. rewrite A. apply in_or_app. now right.
Qed.

Lemma reresolution_among_others_removes_nothing_witness :
  let rt := entered (mkRuntime (state waiting) (world waiting) [] [] []) in
  let finish := runAmong Tasks.refreshActiveLinks timerFiresFirst rt in
  calm rt /\
  Obj.keys (linkDatabase (module_state rt)) = ["mov001"] /\
  Obj.keys (linkDatabase (module_state (among_runtime finish))) =
    ["mov001"; "mov002"] /\
  among_completion finish = Return tt /\
  (forall k,
     In k (Obj.keys (linkDatabase (module_state rt))) ->
     In k (Obj.keys (linkDatabase (module_state (among_runtime finish))))) /\
  (forall k,
     In k (Obj.keys (linkDatabase (module_state (among_runtime finish)))) ->
     In k (Obj.keys (linkDatabase (module_state rt))) \/
     In k (admitted (among_runtime finish))).
Proof.
  assert (C : calm (entered (mkRuntime (state waiting) (world waiting)
                               [] [] [])))
    by (split; [reflexivity | constructor]).
  cbv zeta. split; [exact C|].
  split; [vm_compute; reflexivity|].
  split; [vm_compute; reflexivity|].
  exact (@reresolution_among_others_removes_nothing timerFiresFirst _ C).
Defined.
